(** * autoposter-backend: JSON store, HTTP routes and OAuth account resolution

    The repository holds several revisions of one Express server
    ([src/server.js] and the revisions kept under [src/unnamed]).  This
    development embeds the storage helpers, the JSON routes and the OAuth
    callback of each revision as executable functions, over an explicit
    model of the JavaScript values, of the two files on disk and of the
    identity provider reached through [axios]; the start of the server,
    the redirect to the consent dialog and the debug routes follow.

    Scope of the model.  Strings are sequences of 8-bit code units;
    numbers are integers (IEEE doubles are not represented, and the JSON
    reader rejects fractions, exponents and integers beyond 2^53);
    [console] output is not part of the state.  A handler is a function
    of the request and of the disk; what [POST /buckets] can leave in the
    process itself, on a built-in prototype, is followed in [Process]. *)

From Stdlib Require Import String Ascii List ZArith NArith Arith Lia Bool.
From Stdlib Require Import Decimal DecimalString DecimalN DecimalFacts.
Import ListNotations.

Local Open Scope string_scope.
Local Open Scope list_scope.

Infix "+++" := String.append (right associativity, at level 60).

(** ** JavaScript values *)

Module JS.

(** The values a handler can hold: what [JSON.parse] builds, plus
    [undefined] and the built-in objects that a lookup can reach through
    [Object.prototype] ([VHost]: a function such as [Object], or
    [Object.prototype] itself). *)
#[warnings="-register-all"]
Inductive value : Type :=
| VUndef : value
| VNull : value
| VBool : bool -> value
| VNum : Z -> value
| VStr : string -> value
| VArr : list value -> value
| VObj : list (string * value) -> value
| VHost : value.

(** What JavaScript code throws: an error object with its [name] and
    [message], or an axios rejection, which carries the body of the
    provider's reply ([VUndef] when there was no reply) and a message. *)
Inductive exn : Type :=
| JsError : string -> string -> exn
| AxiosError : value -> string -> exn.

Inductive result (A : Type) : Type :=
| Ok : A -> result A
| Throw : exn -> result A.
Arguments Ok {A} _.
Arguments Throw {A} _.

Definition TypeError (msg : string) : exn := JsError "TypeError" msg.
Definition RangeError (msg : string) : exn := JsError "RangeError" msg.
Definition SyntaxError (msg : string) : exn := JsError "SyntaxError" msg.
Definition Error (msg : string) : exn := JsError "Error" msg.

(** [String(err)] *)
Definition String_of_exn (e : exn) : string :=
  match e with
  | JsError n m => n +++ ": " +++ m
  | AxiosError _ m => "AxiosError: " +++ m
  end.

(** ToBoolean. *)
Definition truthy (v : value) : bool :=
  match v with
  | VUndef | VNull => false
  | VBool b => b
  | VNum n => negb (n =? 0)%Z
  | VStr s => negb (s =? "")%string
  | VArr _ | VObj _ | VHost => true
  end.

(** [a || b] *)
Definition or_else (a b : value) : value := if truthy a then a else b.

(** Number::toString on an integer, all digits written out (as
    JavaScript writes the integers below 2^53). *)
Definition Z_to_string (n : Z) : string :=
  if (n <? 0)%Z
  then "-" +++ NilZero.string_of_uint (N.to_uint (Z.abs_N n))
  else NilZero.string_of_uint (N.to_uint (Z.abs_N n)).

Definition nat_to_string (n : nat) : string := Z_to_string (Z.of_nat n).

(** *** Own properties of an ordinary object

    An object is the list of its own properties in the order
    [Object.keys] reports them: array indices in ascending order first,
    then the other keys in the order they were created. *)

(** A key is an array index when it is the canonical decimal spelling of
    an integer below 2^32 - 1. *)
Definition array_index (k : string) : option N :=
  match NilEmpty.uint_of_string k with
  | Some u =>
      let n := N.of_uint u in
      if ((NilZero.string_of_uint (N.to_uint n) =? k)%string && (n <? 4294967295)%N)%bool
      then Some n else None
  | None => None
  end.

(** [key_before k1 k2]: a property [k1] that exists already stays in front
    of a new property [k2]. *)
Definition key_before (k1 k2 : string) : bool :=
  match array_index k1, array_index k2 with
  | Some a, Some b => (a <? b)%N
  | Some _, None => true
  | None, Some _ => false
  | None, None => negb (k1 =? k2)%string
  end.

Definition props : Type := list (string * value).

Fixpoint own (m : props) (k : string) : option value :=
  match m with
  | [] => None
  | (k', v) :: m' => if (k' =? k)%string then Some v else own m' k
  end.

Definition has_own (m : props) (k : string) : bool :=
  match own m k with Some _ => true | None => false end.

Fixpoint replace_own (m : props) (k : string) (v : value) : props :=
  match m with
  | [] => []
  | (k', v') :: m' =>
      if (k' =? k)%string then (k', v) :: m' else (k', v') :: replace_own m' k v
  end.

Fixpoint insert_own (m : props) (k : string) (v : value) : props :=
  match m with
  | [] => [(k, v)]
  | (k', v') :: m' =>
      if key_before k' k then (k', v') :: insert_own m' k v
      else (k, v) :: (k', v') :: m'
  end.

(** CreateDataProperty / [[Set]] on an own data property. *)
Definition define_own (m : props) (k : string) (v : value) : props :=
  if has_own m k then replace_own m k v else insert_own m k v.

(** The properties every ordinary object inherits from
    [Object.prototype] when the process starts; all of them hold a
    function, except [__proto__], whose getter returns
    [Object.prototype]: a lookup that reaches one of them yields a truthy
    built-in.  What the prototypes gain while the server runs is kept in
    [Process.realm]. *)
Definition Object_prototype : list string :=
  [ "constructor"; "__defineGetter__"; "__defineSetter__"; "hasOwnProperty";
    "__lookupGetter__"; "__lookupSetter__"; "isPrototypeOf";
    "propertyIsEnumerable"; "toString"; "valueOf"; "__proto__";
    "toLocaleString" ].

Definition inherited (k : string) : value :=
  if existsb (String.eqb k) Object_prototype then VHost else VUndef.

Definition char_at (s : string) (i : N) : value :=
  match String.get (N.to_nat i) s with
  | Some c => VStr (String c "")
  | None => VUndef
  end.

(** [v[k]] on a value: [None] is the TypeError of reading a property of
    [null] or [undefined].  Arrays and strings answer [length] and their
    indices; the methods of [Array.prototype], [String.prototype] and the
    like are not listed: no key the program spells out names one, and
    the one key a request chooses, the [accountId] of [POST /buckets], is
    looked up in a stored document that the properties about it take to
    be an object. *)
Definition prop (v : value) (k : string) : option value :=
  match v with
  | VUndef | VNull => None
  | VObj m => Some (match own m k with Some x => x | None => inherited k end)
  | VArr l =>
      Some (if (k =? "length")%string then VNum (Z.of_nat (List.length l))
            else match array_index k with
                 | Some i => nth (N.to_nat i) l VUndef
                 | None => inherited k
                 end)
  | VStr s =>
      Some (if (k =? "length")%string then VNum (Z.of_nat (String.length s))
            else match array_index k with
                 | Some i => char_at s i
                 | None => inherited k
                 end)
  | VBool _ | VNum _ | VHost => Some (inherited k)
  end.

(** [v?.k] *)
Definition prop_opt (v : value) (k : string) : value :=
  match prop v k with Some x => x | None => VUndef end.

(** [v.k], throwing as JavaScript does. *)
Definition get (v : value) (k : string) : result value :=
  match prop v k with
  | Some x => Ok x
  | None => Throw (TypeError ("Cannot read properties of " +++
                              (match v with VNull => "null" | _ => "undefined" end) +++
                              " (reading '" +++ k +++ "')"))
  end.

Fixpoint set_nth (l : list value) (i : nat) (v : value) : list value :=
  match i, l with
  | O, [] => [v]
  | O, _ :: l' => v :: l'
  | S i', [] => VUndef :: set_nth [] i' v
  | S i', x :: l' => x :: set_nth l' i' v
  end.

Fixpoint resize (l : list value) (n : nat) : list value :=
  match n with
  | O => []
  | S n' => match l with
            | [] => VUndef :: resize [] n'
            | x :: l' => x :: resize l' n'
            end
  end.

(** [o[k] = v] in sloppy mode (the server files are CommonJS modules
    without a strict-mode directive); the result is [o] after the
    assignment, [None] a TypeError or RangeError.  On an object, a key
    that is not an own property and is spelled [__proto__] reaches the
    setter of [Object.prototype]: no own property is created.  A property
    put on a primitive is dropped; a named property put on an array does
    not show in its elements, its length or its JSON text.  A property
    put on a built-in does not change [o] either, but it stays in the
    process: what the later requests read of it is followed in
    [Process], further down. *)
Definition assign (o : value) (k : string) (v : value) : option value :=
  match o with
  | VUndef | VNull => None
  | VObj m =>
      if has_own m k then Some (VObj (replace_own m k v))
      else if (k =? "__proto__")%string then Some o
      else Some (VObj (insert_own m k v))
  | VArr l =>
      if (k =? "length")%string then
        match v with
        | VNum n => if ((0 <=? n) && (n <? 4294967296))%Z
                    then Some (VArr (resize l (Z.to_nat n))) else None
        | _ => None
        end
      else match array_index k with
           | Some i => Some (VArr (set_nth l (N.to_nat i) v))
           | None => Some o
           end
  | VBool _ | VNum _ | VStr _ | VHost => Some o
  end.

Definition put (o : value) (k : string) (v : value) : result value :=
  match assign o k v with
  | Some o' => Ok o'
  | None =>
      match o with
      | VArr _ => Throw (RangeError "Invalid array length")
      | VNull => Throw (TypeError ("Cannot set properties of null (setting '" +++ k +++ "')"))
      | _ => Throw (TypeError ("Cannot set properties of undefined (setting '" +++ k +++ "')"))
      end
  end.

(** [o[k].f = v] seen from [o]: the record [o[k]] is shared, so the
    assignment shows in [o] when [o[k]] is an own property or an element
    of [o]; [r'] is the record after the assignment.  A record reached
    through the prototype is a built-in, which [o] does not contain. *)
Definition store_back (o : value) (k : string) (r' : value) : value :=
  match o with
  | VObj m => if has_own m k then VObj (replace_own m k r') else o
  | VArr l =>
      if (k =? "length")%string then o
      else match array_index k with
           | Some i => if (N.to_nat i <? List.length l)%nat
                       then VArr (set_nth l (N.to_nat i) r') else o
           | None => o
           end
  | _ => o
  end.

Fixpoint join (sep : string) (l : list string) : string :=
  match l with
  | [] => ""
  | [x] => x
  | x :: l' => x +++ sep +++ join sep l'
  end.

(** ToString, as a template literal and a computed key apply it.  An
    object answers through its [toString]: the inherited one gives
    [[object Object]], whatever the object holds under [valueOf]; an own
    property [toString] holds a value that cannot be called (the objects
    of the program come out of [JSON.parse] and out of literals without
    methods), [valueOf] is tried next and gives no primitive, and [None]
    is the TypeError that follows. *)
Fixpoint to_string (v : value) : option string :=
  match v with
  | VUndef => Some "undefined"
  | VNull => Some "null"
  | VBool true => Some "true"
  | VBool false => Some "false"
  | VNum n => Some (Z_to_string n)
  | VStr s => Some s
  | VArr l =>
      option_map (join ",")
        ((fix elems (l : list value) : option (list string) :=
            match l with
            | [] => Some []
            | x :: l' =>
                match (match x with VUndef | VNull => Some "" | _ => to_string x end),
                      elems l' with
                | Some s, Some ss => Some (s :: ss)
                | _, _ => None
                end
            end) l)
  | VObj m => if has_own m "toString" then None else Some "[object Object]"
  | VHost => Some "function () { [native code] }"
  end.

Definition ToString (v : value) : result string :=
  match to_string v with
  | Some s => Ok s
  | None => Throw (TypeError "Cannot convert object to primitive value")
  end.

Fixpoint index_from (i : nat) (l : list value) : props :=
  match l with
  | [] => []
  | x :: l' => (nat_to_string i, x) :: index_from (S i) l'
  end.

Fixpoint chars (s : string) : list value :=
  match s with
  | EmptyString => []
  | String c s' => VStr (String c "") :: chars s'
  end.

(** [Object.entries(v)]; [None] is the TypeError on [null] and
    [undefined]. *)
Definition entries (v : value) : option props :=
  match v with
  | VUndef | VNull => None
  | VObj m => Some m
  | VArr l => Some (index_from 0 l)
  | VStr s => Some (index_from 0 (chars s))
  | VBool _ | VNum _ | VHost => Some []
  end.

Definition Object_entries (v : value) : result props :=
  match entries v with
  | Some m => Ok m
  | None => Throw (TypeError "Cannot convert undefined or null to object")
  end.

Definition Object_keys (v : value) : result (list string) :=
  match entries v with
  | Some m => Ok (map fst m)
  | None => Throw (TypeError "Cannot convert undefined or null to object")
  end.

(** The values a [for (const p of v)] loop visits; [None] is the
    TypeError of a value that is not iterable. *)
Definition iterate (v : value) : option (list value) :=
  match v with
  | VArr l => Some l
  | VStr s => Some (chars s)
  | _ => None
  end.

Definition for_of (v : value) : result (list value) :=
  match iterate v with
  | Some l => Ok l
  | None => Throw (TypeError "value is not iterable")
  end.

(** Sequencing of computations that may throw. *)
Definition bind_result {A B : Type} (r : result A) (k : A -> result B) : result B :=
  match r with
  | Ok a => k a
  | Throw e => Throw e
  end.

(** Induction on a value and on the values inside it. *)
Section ValueInduction.
Variable Q : value -> Prop.
Hypothesis HUndef : Q VUndef.
Hypothesis HNull : Q VNull.
Hypothesis HBool : forall b, Q (VBool b).
Hypothesis HNum : forall n, Q (VNum n).
Hypothesis HStr : forall s, Q (VStr s).
Hypothesis HArr : forall l, Forall Q l -> Q (VArr l).
Hypothesis HObj : forall m, Forall (fun kv => Q (snd kv)) m -> Q (VObj m).
Hypothesis HHost : Q VHost.

Fixpoint value_induction (v : value) : Q v :=
  match v with
  | VUndef => HUndef
  | VNull => HNull
  | VBool b => HBool b
  | VNum n => HNum n
  | VStr s => HStr s
  | VArr l =>
      HArr l ((fix all (l : list value) : Forall Q l :=
                 match l with
                 | [] => Forall_nil Q
                 | x :: l' => Forall_cons x (value_induction x) (all l')
                 end) l)
  | VObj m =>
      HObj m ((fix all (m : props) : Forall (fun kv => Q (snd kv)) m :=
                 match m with
                 | [] => Forall_nil _
                 | kv :: m' => Forall_cons kv (value_induction (snd kv)) (all m')
                 end) m)
  | VHost => HHost
  end.
End ValueInduction.

End JS.

(** ** JSON text: [JSON.stringify(value, null, 2)] and [JSON.parse] *)

Module JSON.
Import JS.

Definition nl : string := String (ascii_of_nat 10) "".
Definition dquote : ascii := ascii_of_nat 34.
Definition backslash : ascii := ascii_of_nat 92.

Fixpoint spaces (n : nat) : string :=
  match n with
  | O => ""
  | S n' => String " " (spaces n')
  end.

Definition hex_digit (n : N) : ascii :=
  if (n <? 10)%N then ascii_of_N (48 + n) else ascii_of_N (87 + n).

(** QuoteJSONString, one code unit at a time. *)
Definition escape_char (c : ascii) : string :=
  let n := N_of_ascii c in
  if (n =? 34)%N then String backslash (String dquote "")
  else if (n =? 92)%N then String backslash (String backslash "")
  else if (n =? 8)%N then "\b"
  else if (n =? 9)%N then "\t"
  else if (n =? 10)%N then "\n"
  else if (n =? 12)%N then "\f"
  else if (n =? 13)%N then "\r"
  else if (n <? 32)%N then
    "\u00" +++ String (hex_digit (n / 16)) (String (hex_digit (n mod 16)) "")
  else String c "".

Fixpoint escape (s : string) : string :=
  match s with
  | EmptyString => ""
  | String c s' => escape_char c +++ escape s'
  end.

Definition quote (s : string) : string :=
  String dquote (escape s +++ String dquote "").

(** A property whose value is [undefined] or a function is left out of an
    object and printed as [null] in an array. *)
Definition defined (v : value) : bool :=
  match v with
  | VUndef | VHost => false
  | _ => true
  end.

Definition sep (first : bool) (ind : nat) : string :=
  (if first then "" else ",") +++ nl +++ spaces ind.

(** SerializeJSONProperty with a gap of two spaces; [ind] is the current
    indentation. *)
Fixpoint render (ind : nat) (v : value) : string :=
  match v with
  | VUndef | VHost | VNull => "null"
  | VBool true => "true"
  | VBool false => "false"
  | VNum n => Z_to_string n
  | VStr s => quote s
  | VArr l =>
      match l with
      | [] => "[]"
      | _ =>
          "[" +++
          (fix items (l : list value) (first : bool) : string :=
             match l with
             | [] => ""
             | x :: l' => sep first (ind + 2) +++ render (ind + 2) x +++ items l' false
             end) l true
          +++ nl +++ spaces ind +++ "]"
      end
  | VObj m =>
      if forallb (fun kv => negb (defined (snd kv))) m then "{}"
      else
        "{" +++
        (fix members (m : props) (first : bool) : string :=
           match m with
           | [] => ""
           | (k, x) :: m' =>
               if defined x
               then sep first (ind + 2) +++ quote k +++ ": " +++ render (ind + 2) x
                    +++ members m' false
               else members m' first
           end) m true
        +++ nl +++ spaces ind +++ "}"
  end.

(** [JSON.stringify(v, null, 2)]; [None] is the [undefined] it returns
    for [undefined] and for a function. *)
Definition stringify (v : value) : option string :=
  if defined v then Some (render 0 v) else None.

(** *** Reading *)

Definition is_ws (c : ascii) : bool :=
  let n := N_of_ascii c in
  ((n =? 32) || (n =? 9) || (n =? 10) || (n =? 13))%N.

Fixpoint skip_ws (s : string) : string :=
  match s with
  | EmptyString => ""
  | String c s' => if is_ws c then skip_ws s' else s
  end.

Definition is_digit (c : ascii) : bool :=
  let n := N_of_ascii c in ((48 <=? n) && (n <=? 57))%N.

Fixpoint span_digits (s : string) : string * string :=
  match s with
  | EmptyString => ("", "")
  | String c s' =>
      if is_digit c then let (d, r) := span_digits s' in (String c d, r)
      else ("", s)
  end.

Definition hex_val (c : ascii) : option N :=
  let n := N_of_ascii c in
  if ((48 <=? n) && (n <=? 57))%N then Some (n - 48)%N
  else if ((97 <=? n) && (n <=? 102))%N then Some (n - 87)%N
  else if ((65 <=? n) && (n <=? 70))%N then Some (n - 55)%N
  else None.

(** The code unit of [\uXXXX]; code units above 0xFF are outside the
    alphabet of the model and are rejected. *)
Definition hex4 (a b c d : ascii) : option ascii :=
  match hex_val a, hex_val b, hex_val c, hex_val d with
  | Some x, Some y, Some z, Some w =>
      if ((x =? 0) && (y =? 0))%N then Some (ascii_of_N (z * 16 + w)) else None
  | _, _, _, _ => None
  end.

Definition simple_escape (c : ascii) : option ascii :=
  let n := N_of_ascii c in
  if (n =? 34)%N then Some c
  else if (n =? 92)%N then Some c
  else if (n =? 47)%N then Some c
  else if (n =? 98)%N then Some (ascii_of_N 8)
  else if (n =? 102)%N then Some (ascii_of_N 12)
  else if (n =? 110)%N then Some (ascii_of_N 10)
  else if (n =? 114)%N then Some (ascii_of_N 13)
  else if (n =? 116)%N then Some (ascii_of_N 9)
  else None.

Definition prepend (c : ascii) (r : option (string * string)) : option (string * string) :=
  match r with
  | Some (s, rest) => Some (String c s, rest)
  | None => None
  end.

(** The characters of a string literal after its opening quote, up to and
    including the closing quote. *)
Fixpoint parse_chars (s : string) : option (string * string) :=
  match s with
  | EmptyString => None
  | String c r =>
      let n := N_of_ascii c in
      if (n =? 34)%N then Some ("", r)
      else if (n =? 92)%N then
        match r with
        | EmptyString => None
        | String e r1 =>
            match simple_escape e with
            | Some x => prepend x (parse_chars r1)
            | None =>
                if (N_of_ascii e =? 117)%N then
                  match r1 with
                  | String a (String b (String c' (String d r2))) =>
                      match hex4 a b c' d with
                      | Some x => prepend x (parse_chars r2)
                      | None => None
                      end
                  | _ => None
                  end
                else None
            end
        end
      else if (n <? 32)%N then None
      else prepend c (parse_chars r)
  end.

Definition safe_integer (n : Z) : bool :=
  ((-9007199254740992 <? n) && (n <? 9007199254740992))%Z.

(** The unsigned part of a number: a canonical run of digits that no
    fraction or exponent follows. *)
Definition parse_digits (s : string) : option (N * string) :=
  let (d, r) := span_digits s in
  match NilEmpty.uint_of_string d with
  | Some u =>
      let n := N.of_uint u in
      if (NilZero.string_of_uint (N.to_uint n) =? d)%string then
        match r with
        | String c _ =>
            let k := N_of_ascii c in
            if ((k =? 46) || (k =? 101) || (k =? 69))%N then None else Some (n, r)
        | EmptyString => Some (n, r)
        end
      else None
  | None => None
  end.

Definition parse_number (s : string) : option (value * string) :=
  match s with
  | String c r =>
      if (N_of_ascii c =? 45)%N then
        match parse_digits r with
        | Some (n, r') =>
            if safe_integer (- Z.of_N n) then Some (VNum (- Z.of_N n), r') else None
        | None => None
        end
      else
        match parse_digits s with
        | Some (n, r') =>
            if safe_integer (Z.of_N n) then Some (VNum (Z.of_N n), r') else None
        | None => None
        end
  | EmptyString => None
  end.

Fixpoint expect (word s : string) : option string :=
  match word with
  | EmptyString => Some s
  | String c w' =>
      match s with
      | String c' s' => if (c =? c')%char then expect w' s' else None
      | EmptyString => None
      end
  end.

Definition literal (word : string) (v : value) (s : string) : option (value * string) :=
  match expect word s with
  | Some r => Some (v, r)
  | None => None
  end.

(** The recursive-descent reader.  [fuel] bounds the nesting of calls;
    a text of [n] characters never needs more than [n] (each call
    consumes a character of its own). *)
Fixpoint parse_value (fuel : nat) (s : string) {struct fuel} : option (value * string) :=
  match fuel with
  | O => None
  | S f =>
      match skip_ws s with
      | EmptyString => None
      | String c r =>
          let n := N_of_ascii c in
          if (n =? 123)%N then
            match skip_ws r with
            | String c' r' =>
                if (N_of_ascii c' =? 125)%N then Some (VObj [], r')
                else parse_members f r []
            | EmptyString => None
            end
          else if (n =? 91)%N then
            match skip_ws r with
            | String c' r' =>
                if (N_of_ascii c' =? 93)%N then Some (VArr [], r')
                else match parse_elements f r with
                     | Some (l, r'') => Some (VArr l, r'')
                     | None => None
                     end
            | EmptyString => None
            end
          else if (n =? 34)%N then
            match parse_chars r with
            | Some (str, r') => Some (VStr str, r')
            | None => None
            end
          else if (n =? 110)%N then literal "null" VNull (String c r)
          else if (n =? 116)%N then literal "true" (VBool true) (String c r)
          else if (n =? 102)%N then literal "false" (VBool false) (String c r)
          else parse_number (String c r)
      end
  end
with parse_elements (fuel : nat) (s : string) {struct fuel} : option (list value * string) :=
  match fuel with
  | O => None
  | S f =>
      match parse_value f s with
      | Some (v, r) =>
          match skip_ws r with
          | String c r' =>
              if (N_of_ascii c =? 44)%N then
                match parse_elements f r' with
                | Some (vs, r'') => Some (v :: vs, r'')
                | None => None
                end
              else if (N_of_ascii c =? 93)%N then Some ([v], r')
              else None
          | EmptyString => None
          end
      | None => None
      end
  end
with parse_members (fuel : nat) (s : string) (acc : props) {struct fuel} : option (value * string) :=
  match fuel with
  | O => None
  | S f =>
      match skip_ws s with
      | String c r =>
          if (N_of_ascii c =? 34)%N then
            match parse_chars r with
            | Some (k, r1) =>
                match skip_ws r1 with
                | String c2 r2 =>
                    if (N_of_ascii c2 =? 58)%N then
                      match parse_value f r2 with
                      | Some (v, r3) =>
                          let acc' := define_own acc k v in
                          match skip_ws r3 with
                          | String c3 r4 =>
                              if (N_of_ascii c3 =? 44)%N then parse_members f r4 acc'
                              else if (N_of_ascii c3 =? 125)%N then Some (VObj acc', r4)
                              else None
                          | EmptyString => None
                          end
                      | None => None
                      end
                    else None
                | EmptyString => None
                end
            | None => None
            end
          else None
      | EmptyString => None
      end
  end.

(** [JSON.parse(text)]; [None] is the SyntaxError. *)
Definition parse (text : string) : option value :=
  match parse_value (S (String.length text)) text with
  | Some (v, r) => if (skip_ws r =? "")%string then Some v else None
  | None => None
  end.

(** The documents that [JSON.stringify] and [JSON.parse] carry without
    loss: no [undefined] and no function anywhere, integers within the
    safe range, and objects whose keys are distinct and in the order an
    object keeps them. *)
Fixpoint keys_ok (ks : list string) : bool :=
  match ks with
  | [] => true
  | k :: ks' => forallb (key_before k) ks' && keys_ok ks'
  end.

Fixpoint serializable (v : value) : bool :=
  match v with
  | VUndef | VHost => false
  | VNull | VBool _ | VStr _ => true
  | VNum n => safe_integer n
  | VArr l =>
      (fix all (l : list value) : bool :=
         match l with
         | [] => true
         | x :: l' => serializable x && all l'
         end) l
  | VObj m =>
      keys_ok (map fst m) &&
      (fix all (m : props) : bool :=
         match m with
         | [] => true
         | (_, x) :: m' => serializable x && all m'
         end) m
  end.

(** *** Notions the round trip is stated with *)

(** The loops of [render] and of [serializable], by name. *)
Definition render_items (ind : nat) : list value -> bool -> string :=
  fix items (l : list value) (first : bool) : string :=
    match l with
    | [] => ""
    | x :: l' => sep first (ind + 2) +++ render (ind + 2) x +++ items l' false
    end.

Definition render_members (ind : nat) : props -> bool -> string :=
  fix members (m : props) (first : bool) : string :=
    match m with
    | [] => ""
    | (k, x) :: m' =>
        if defined x
        then sep first (ind + 2) +++ quote k +++ ": " +++ render (ind + 2) x
             +++ members m' false
        else members m' first
    end.

(** What may follow a number: the end of the text, or a character that
    neither continues the digits nor opens a fraction or an exponent. *)
Definition stops (rest : string) : bool :=
  match rest with
  | EmptyString => true
  | String c _ =>
      let k := N_of_ascii c in
      negb (is_digit c) && negb ((k =? 46) || (k =? 101) || (k =? 69))%N
  end.

Definition digits_of (n : N) : string := NilZero.string_of_uint (N.to_uint n).

(** A bound on the nesting of calls the reader makes on a document. *)
Fixpoint size (v : value) : nat :=
  match v with
  | VArr l =>
      S ((fix go (l : list value) : nat :=
            match l with
            | [] => 0
            | x :: l' => S (size x + go l')
            end) l)
  | VObj m =>
      S ((fix go (m : props) : nat :=
            match m with
            | [] => 0
            | (_, x) :: m' => S (size x + go m')
            end) m)
  | _ => 1
  end.

Definition size_items : list value -> nat :=
  fix go (l : list value) : nat :=
    match l with
    | [] => 0
    | x :: l' => S (size x + go l')
    end.

Definition size_members : props -> nat :=
  fix go (m : props) : nat :=
    match m with
    | [] => 0
    | (_, x) :: m' => S (size x + go m')
    end.

(** A text that starts with a character of a value: no blank, and not
    the bracket that closes an array. *)
Definition token_start (s : string) : bool :=
  match s with
  | EmptyString => false
  | String c _ => negb (is_ws c) && negb (N_of_ascii c =? 93)%N
  end.

(** What a value reads back as, in the middle of a text. *)
Definition reads_back (v : value) : Prop :=
  serializable v = true ->
  forall (ind : nat) (rest : string) (fuel : nat),
    size v <= fuel -> stops rest = true ->
    parse_value fuel (render ind v +++ rest) = Some (v, rest).

End JSON.

(** ** The file system, as far as [fs] is used *)

Module Fs.
Import JS.

Inductive node : Type :=
| Absent : node
| Dir : node
| File : string -> node.

(** [nodes] says what is at each path; a path that is not [writable]
    refuses [mkdirSync] and [writeFileSync] (a read-only volume, a
    permission refused). *)
Record FS : Type := mkFS {
  nodes : string -> node;
  writable : string -> bool
}.

Definition set_node (fs : FS) (p : string) (n : node) : FS :=
  {| nodes := fun q => if (q =? p)%string then n else nodes fs q;
     writable := writable fs |}.

Definition existsSync (fs : FS) (p : string) : bool :=
  match nodes fs p with
  | Absent => false
  | _ => true
  end.

(** [fs.readFileSync(p, 'utf-8')] *)
Definition readFileSync (fs : FS) (p : string) : result string :=
  match nodes fs p with
  | File txt => Ok txt
  | Dir => Throw (Error "EISDIR: illegal operation on a directory, read")
  | Absent => Throw (Error "ENOENT: no such file or directory")
  end.

(** [fs.mkdirSync(p, { recursive: true })]: nothing to do on a directory
    that exists.  The ancestors of [p] are not tracked. *)
Definition mkdirSync (fs : FS) (p : string) : result FS :=
  match nodes fs p with
  | Dir => Ok fs
  | File _ => Throw (Error "EEXIST: file already exists, mkdir")
  | Absent =>
      if writable fs p then Ok (set_node fs p Dir)
      else Throw (Error "EACCES: permission denied, mkdir")
  end.

(** [fs.writeFileSync(p, txt)] *)
Definition writeFileSync (fs : FS) (p : string) (txt : string) : result FS :=
  match nodes fs p with
  | Dir => Throw (Error "EISDIR: illegal operation on a directory, open")
  | _ =>
      if writable fs p then Ok (set_node fs p (File txt))
      else Throw (Error "EACCES: permission denied, open")
  end.

(** [path.join(dir, name)] for a directory written without a trailing
    separator, and [path.dirname]. *)
Definition path_join (dir name : string) : string := dir +++ "/" +++ name.

Fixpoint has_slash (s : string) : bool :=
  match s with
  | EmptyString => false
  | String c s' => (c =? "/")%char || has_slash s'
  end.

Fixpoint path_dirname_aux (s : string) : string :=
  match s with
  | EmptyString => ""
  | String c s' => if has_slash s' then String c (path_dirname_aux s') else ""
  end.

Definition path_dirname (p : string) : string :=
  if has_slash p then
    match path_dirname_aux p with
    | EmptyString => "/"
    | d => d
    end
  else ".".

End Fs.

(** ** Storage helpers

    [loadJSON] and [saveJSON] read the same in every revision of the
    server (the revisions differ in what [saveJSON] logs). *)

Module Storage.
Import JS Fs.

(** <<
function loadJSON(file) {
  try {
    if (!fs.existsSync(file)) return {};
    const txt = fs.readFileSync(file, 'utf-8');
    return txt ? JSON.parse(txt) : {};
  } catch (e) { console.error('loadJSON error:', e); return {}; }
}
>> *)
Definition loadJSON_try (fs : FS) (file : string) : result value :=
  if negb (existsSync fs file) then Ok (VObj [])
  else
    bind_result (readFileSync fs file) (fun txt =>
    if truthy (VStr txt) then
      match JSON.parse txt with
      | Some v => Ok v
      | None => Throw (SyntaxError "Unexpected token in JSON")
      end
    else Ok (VObj [])).

Definition loadJSON (fs : FS) (file : string) : value :=
  match loadJSON_try fs file with
  | Ok v => v
  | Throw _ => VObj []
  end.

(** <<
function saveJSON(file, data) {
  try {
    fs.mkdirSync(path.dirname(file), { recursive: true });
    fs.writeFileSync(file, JSON.stringify(data, null, 2));
    console.log(`Wrote ${file}`);
  } catch (e) { console.error(`saveJSON error for ${file}:`, e); }
}
>>
    The state threaded through the [try] block is the file system; what a
    step did before a later step threw stays done. *)
Definition saveJSON_try (fs : FS) (file : string) (data : value) : FS * result unit :=
  match mkdirSync fs (path_dirname file) with
  | Throw e => (fs, Throw e)
  | Ok fs1 =>
      match JSON.stringify data with
      | None =>
          (fs1, Throw (TypeError "The data argument must be of type string"))
      | Some txt =>
          match writeFileSync fs1 file txt with
          | Throw e => (fs1, Throw e)
          | Ok fs2 => (fs2, Ok tt)
          end
      end
  end.

Definition saveJSON (fs : FS) (file : string) (data : value) : FS :=
  fst (saveJSON_try fs file data).

(** Whether the write of [saveJSON fs file data] goes through. *)
Definition save_succeeds (fs : FS) (file : string) (data : value) : bool :=
  match snd (saveJSON_try fs file data) with
  | Ok _ => true
  | Throw _ => false
  end.

Definition ACCOUNTS_FILE (DATA_DIR : string) : string := path_join DATA_DIR "accounts.json".
Definition SCHEDULE_FILE (DATA_DIR : string) : string := path_join DATA_DIR "scheduleData.json".

End Storage.

(** ** Requests, replies and the identity provider *)

Module Http.
Import JS Fs.

(** What a handler reads of an Express request: the parsed query and body
    ([VUndef] when there is none) and the headers [buildBaseUrl] looks
    at. *)
Record request : Type := mkRequest {
  query : value;
  body : value;
  x_forwarded_proto : option string;
  protocol : string;
  x_forwarded_host : option string;
  host : option string
}.

Inductive payload : Type :=
| Text : string -> payload
| Json : value -> payload.

(** What the client gets: [res.status(s).send(text)] and [res.json(v)]
    (status 200 unless set), or the reply of Express's own error handler
    when a synchronous handler throws. *)
Inductive response : Type :=
| Reply : Z -> payload -> response
| Unhandled : exn -> response.

(** [axios.get(url, { params })] *)
Record call : Type := mkCall {
  url : string;
  params : list (string * value)
}.

(** The provider answers with a body, or the call is rejected (a status
    outside 2xx, with the body of the reply, or no reply at all, with
    [VUndef]). *)
Inductive answer : Type :=
| Resolved : value -> answer
| Rejected : value -> string -> answer.

Section World.
(** The provider is a machine of its own: a state and what it answers
    to each call. *)
Variable P : Type.
Variable respond : P -> call -> answer * P.

Record world : Type := mkWorld {
  disk : FS;
  net : P
}.

(** Computations of the asynchronous handler: they read and change the
    world and may throw; the world a throwing step leaves is kept. *)
Definition M (A : Type) : Type := world -> result A * world.

Definition ret {A : Type} (a : A) : M A := fun w => (Ok a, w).

Definition bind {A B : Type} (m : M A) (k : A -> M B) : M B :=
  fun w => match m w with
           | (Ok a, w') => k a w'
           | (Throw e, w') => (Throw e, w')
           end.

Definition throw {A : Type} (e : exn) : M A := fun w => (Throw e, w).

Definition try_catch {A : Type} (m : M A) (h : exn -> M A) : M A :=
  fun w => match m w with
           | (Ok a, w') => (Ok a, w')
           | (Throw e, w') => h e w'
           end.

Definition lift {A : Type} (r : result A) : M A := fun w => (r, w).

(** [(await axios.get(url, { params })).data] *)
Definition axios_get (u : string) (ps : list (string * value)) : M value :=
  fun w =>
    match respond (net w) (mkCall u ps) with
    | (Resolved data, p') => (Ok data, mkWorld (disk w) p')
    | (Rejected data msg, p') => (Throw (AxiosError data msg), mkWorld (disk w) p')
    end.

Definition load (file : string) : M value :=
  fun w => (Ok (Storage.loadJSON (disk w) file), w).

Definition save (file : string) (data : value) : M unit :=
  fun w => (Ok tt, mkWorld (Storage.saveJSON (disk w) file data) (net w)).

(** A computation that leaves the disk as it is. *)
Definition keeps_disk {A : Type} (m : M A) : Prop :=
  forall w r w', m w = (r, w') -> disk w' = disk w.

End World.

Arguments mkWorld {P} _ _.
Arguments disk {P} _.
Arguments net {P} _.
Arguments ret {P A} _ _.
Arguments bind {P A B} _ _ _.
Arguments throw {P A} _ _.
Arguments try_catch {P A} _ _ _.
Arguments lift {P A} _ _.
Arguments axios_get {P} _ _ _ _.
Arguments load {P} _ _.
Arguments save {P} _ _ _.
Arguments keeps_disk P {A} _.

(** <<
function buildBaseUrl(req) {
  const proto = req.get('x-forwarded-proto') || req.protocol || 'https';
  const host  = req.get('x-forwarded-host') || req.get('host');
  return `${proto}://${host}`;
}
>> *)
Definition header (h : option string) : value :=
  match h with
  | Some s => VStr s
  | None => VUndef
  end.

Definition text_of (v : value) : string :=
  match to_string v with
  | Some s => s
  | None => ""
  end.

Definition buildBaseUrl (req : request) : string :=
  let proto := or_else (or_else (header (x_forwarded_proto req)) (VStr (protocol req)))
                       (VStr "https") in
  let h := or_else (header (x_forwarded_host req)) (header (host req)) in
  text_of proto +++ "://" +++ text_of h.

(** [err.response?.data || err.message] and the page the callback renders
    from it. *)
Definition detail_of (e : exn) : value :=
  match e with
  | AxiosError data msg => or_else data (VStr msg)
  | JsError _ msg => VStr msg
  end.

Definition detail_text (d : value) : string :=
  match d with
  | VStr s => s
  | _ => match JSON.stringify d with
         | Some t => t
         | None => "undefined"
         end
  end.

Definition GRAPH : string := "https://graph.facebook.com/v17.0/".
Definition TOKEN_URL : string := "https://graph.facebook.com/v17.0/oauth/access_token".
Definition ME_ACCOUNTS_URL : string := "https://graph.facebook.com/v17.0/me/accounts".
Definition ME_URL : string := "https://graph.facebook.com/v17.0/me".

Definition ok_body : value := VObj [("status", VStr "ok")].

End Http.

Declare Scope js_scope.
Delimit Scope js_scope with js.
Notation "x <- m ;; k" := (Http.bind m (fun x => k))
  (at level 61, m at next level, right associativity) : js_scope.

(** ** The routes that only touch the two documents

    [POST /buckets], [GET /buckets], [GET /schedule] and [POST /schedule]
    are the same text in [src/server.js] and in every revision under
    [src/unnamed]; [GET /accounts] and [GET /debug/read-accounts] differ
    and are embedded per revision below. *)

Module Routes.
Import JS Fs Storage Http.

Section Config.
Variable DATA_DIR : string.

(** <<
app.get('/buckets', (req, res) => res.json(loadJSON(ACCOUNTS_FILE)));
>> *)
Definition get_buckets (fs : FS) : response * FS :=
  (Reply 200 (Json (loadJSON fs (ACCOUNTS_FILE DATA_DIR))), fs).

(** <<
app.post('/buckets', (req, res) => {
const { accountId, buckets } = req.body || {};
const accounts = loadJSON(ACCOUNTS_FILE);
if (!accounts[accountId]) return res.status(400).send('Account not found');
accounts[accountId].buckets = buckets || [];
saveJSON(ACCOUNTS_FILE, accounts);
res.json({ status: 'ok' });
});
>>
    The reply and the disk of a request, in a process whose built-in
    prototypes are as they were when it started.  An assignment that
    reaches a prototype changes the process and not the disk;
    [Process.post_buckets] is the same handler with what the process has
    gained threaded through. *)
Definition post_buckets (req : request) (fs : FS) : response * FS :=
  let b := or_else (body req) (VObj []) in
  let accountId := prop_opt b "accountId" in
  let buckets := prop_opt b "buckets" in
  let accounts := loadJSON fs (ACCOUNTS_FILE DATA_DIR) in
  match bind_result (ToString accountId) (fun key =>
        bind_result (get accounts key) (fun record => Ok (key, record))) with
  | Throw e => (Unhandled e, fs)
  | Ok (key, record) =>
      if negb (truthy record) then (Reply 400 (Text "Account not found"), fs)
      else
        match put record "buckets" (or_else buckets (VArr [])) with
        | Throw e => (Unhandled e, fs)
        | Ok record' =>
            let accounts' := store_back accounts key record' in
            (Reply 200 (Json ok_body), saveJSON fs (ACCOUNTS_FILE DATA_DIR) accounts')
        end
  end.

(** <<
app.get('/schedule', (req, res) => res.json(loadJSON(SCHEDULE_FILE).times || []));
>> *)
Definition get_schedule (fs : FS) : response * FS :=
  match get (loadJSON fs (SCHEDULE_FILE DATA_DIR)) "times" with
  | Throw e => (Unhandled e, fs)
  | Ok times => (Reply 200 (Json (or_else times (VArr []))), fs)
  end.

(** <<
app.post('/schedule', (req, res) => {
const times = (req.body && req.body.schedule) || [];
saveJSON(SCHEDULE_FILE, { times });
res.json({ status: 'ok' });
});
>> *)
Definition post_schedule (req : request) (fs : FS) : response * FS :=
  let times :=
    or_else (if truthy (body req) then prop_opt (body req) "schedule" else body req)
            (VArr []) in
  (Reply 200 (Json ok_body),
   saveJSON fs (SCHEDULE_FILE DATA_DIR) (VObj [("times", times)])).

(** <<
app.get('/accounts', (req, res) => {
const accounts = loadJSON(ACCOUNTS_FILE);
const list = Object.entries(accounts).map(([accountId, acc]) => ({
  accountId,
  username: acc.username
}));
res.json(list);
});
>>
    ([src/server.js] and the first revision under [src/unnamed]) *)
Fixpoint listing (es : props) : result (list value) :=
  match es with
  | [] => Ok []
  | (accountId, acc) :: es' =>
      bind_result (get acc "username") (fun username =>
      bind_result (listing es') (fun rest =>
      Ok (VObj [("accountId", VStr accountId); ("username", username)] :: rest)))
  end.

Definition get_accounts (fs : FS) : response * FS :=
  match bind_result (Object_entries (loadJSON fs (ACCOUNTS_FILE DATA_DIR))) listing with
  | Throw e => (Unhandled e, fs)
  | Ok list => (Reply 200 (Json (VArr list)), fs)
  end.

End Config.
End Routes.

(** ** Pieces the OAuth callbacks share *)

Module OAuth.
Import JS Fs Storage Http.
Local Open Scope js_scope.

Record config : Type := mkConfig {
  FB_APP_ID : string;
  FB_APP_SECRET : string;
  DATA_DIR : string
}.

Definition line (s : string) : string := s +++ JSON.nl.

(** The page [res.send] renders after a save in [src/server.js] and in
    the first revision under [src/unnamed]. *)
Definition connected_page : string :=
  line "" +++
  line "      <html>" +++
  line ("        <body style=" +++ String JSON.dquote
        ("font-family:sans-serif; text-align:center; margin-top:48px" +++
         String JSON.dquote ">")) +++
  line "          <h2>Account connected!</h2>" +++
  line "          <p>You can close this tab and return to the app.</p>" +++
  line "        </body>" +++
  line "      </html>" +++
  "    ".

(** <<
  } catch (err) {
    const detail = err.response?.data || err.message;
    console.error('[OAuth] error:', detail);
    res.status(500)
       .send(`<pre>OAuth error:\n${typeof detail === 'string' ? detail : JSON.stringify(detail, null, 2)}</pre>`);
  }
>> *)
Definition error_page (err : exn) : response :=
  Reply 500 (Text ("<pre>OAuth error:" +++ JSON.nl +++ detail_text (detail_of err) +++ "</pre>")).

Section Steps.
Variable P : Type.
Variable respond : P -> call -> answer * P.
Variable cfg : config.

Abbreviation M := (Http.M P).
Abbreviation axios_get := (Http.axios_get respond).

(** Steps 1 and 2 of every revision: the code is exchanged for a
    short-lived token, and that one for a long-lived token. *)
Definition exchange (code : value) (REDIRECT_URI : string) : M value :=
  _ <- lift (ToString code) ;;
  shortRes <- axios_get TOKEN_URL
                [("client_id", VStr (FB_APP_ID cfg));
                 ("client_secret", VStr (FB_APP_SECRET cfg));
                 ("redirect_uri", VStr REDIRECT_URI);
                 ("code", code)] ;;
  shortToken <- lift (get shortRes "access_token") ;;
  longRes <- axios_get TOKEN_URL
               [("grant_type", VStr "fb_exchange_token");
                ("client_id", VStr (FB_APP_ID cfg));
                ("client_secret", VStr (FB_APP_SECRET cfg));
                ("fb_exchange_token", shortToken)] ;;
  lift (get longRes "access_token").

(** <<
    for (const p of pages) {
      try {
        const igRes = await axios.get(`https://graph.facebook.com/v17.0/${p.id}`, {
          params: { fields: 'instagram_business_account', access_token: longToken }
        });
        const id = igRes.data?.instagram_business_account?.id;
        if (id) { igAccountId = id; break; }
      } catch (e) {}
    }
>>
    The result is [igAccountId] after the loop, [cur] being its value
    before. *)
Definition page_lookup (p : value) (token : value) : M value :=
  try_catch
    (pid <- lift (get p "id") ;;
     seg <- lift (ToString pid) ;;
     igRes <- axios_get (GRAPH +++ seg)
                [("fields", VStr "instagram_business_account");
                 ("access_token", token)] ;;
     ret (prop_opt (prop_opt igRes "instagram_business_account") "id"))
    (fun _ => ret VUndef).

Fixpoint scan_pages (longToken : value) (cur : value) (pages : list value) : M value :=
  match pages with
  | [] => ret cur
  | p :: pages' =>
      id <- page_lookup p longToken ;;
      if truthy id then ret id else scan_pages longToken cur pages'
  end.

End Steps.
End OAuth.

(** ** [src/server.js] *)

Module ServerJs.
Import JS Fs Storage Http OAuth.
Local Open Scope js_scope.

Section Server.
Variable P : Type.
Variable respond : P -> call -> answer * P.
Variable cfg : config.

Abbreviation M := (Http.M P).
Abbreviation axios_get := (Http.axios_get respond).

Definition NO_PAGES : string := "No Facebook Pages found for this user".
Definition NO_IG : string := "No Instagram Business account linked to any of the Pages".

(** Steps 3 and 4: the pages of the user, then the first page with a
    linked account. *)
Definition resolve (longToken : value) : M value :=
  pagesRes <- axios_get ME_ACCOUNTS_URL [("access_token", longToken)] ;;
  let pages := or_else (prop_opt pagesRes "data") (VArr []) in
  if negb (truthy (prop_opt pages "length")) then throw (Error NO_PAGES)
  else
    ps <- lift (for_of pages) ;;
    igAccountId <- scan_pages P respond longToken VNull ps ;;
    if negb (truthy igAccountId) then throw (Error NO_IG)
    else ret igAccountId.

(** <<
  const accounts = loadJSON(ACCOUNTS_FILE);
  accounts[igAccountId] = {
    accessToken: longToken,
    username: `Instagram-${igAccountId}`,
    buckets: []
  };
  saveJSON(ACCOUNTS_FILE, accounts);
>> *)
Definition new_record (longToken : value) (name : string) : value :=
  VObj [("accessToken", longToken);
        ("username", VStr ("Instagram-" +++ name));
        ("buckets", VArr [])].

Definition save_account (longToken igAccountId : value) : M unit :=
  accounts <- load (ACCOUNTS_FILE (DATA_DIR cfg)) ;;
  name <- lift (ToString igAccountId) ;;
  accounts' <- lift (put accounts name (new_record longToken name)) ;;
  save (ACCOUNTS_FILE (DATA_DIR cfg)) accounts'.

(** [app.get('/auth/instagram/callback', ...)] *)
Definition callback (req : request) : M response :=
  let code := prop_opt (query req) "code" in
  if negb (truthy code) then ret (Reply 400 (Text "No code returned"))
  else
    let REDIRECT_URI := buildBaseUrl req +++ "/auth/instagram/callback" in
    try_catch
      (longToken <- exchange P respond cfg code REDIRECT_URI ;;
       igAccountId <- resolve longToken ;;
       _ <- save_account longToken igAccountId ;;
       ret (Reply 200 (Text connected_page)))
      (fun err => ret (error_page err)).

Definition get_accounts := Routes.get_accounts (DATA_DIR cfg).
Definition get_buckets := Routes.get_buckets (DATA_DIR cfg).
Definition post_buckets := Routes.post_buckets (DATA_DIR cfg).
Definition get_schedule := Routes.get_schedule (DATA_DIR cfg).
Definition post_schedule := Routes.post_schedule (DATA_DIR cfg).

End Server.
End ServerJs.

(** ** [src/unnamed/part_000]: three lookup paths, debug routes *)

Module Part000.
Import JS Fs Storage Http OAuth.
Local Open Scope js_scope.

Definition NO_IG : string :=
  "No Instagram Business account found. On the consent screen, click " +++
  String JSON.dquote ("Choose what you allow" +++
  String JSON.dquote
  " and select your Page and Instagram account; also ensure IG is linked to the Page.").

Section Server.
Variable P : Type.
Variable respond : P -> call -> answer * P.
Variable cfg : config.

Abbreviation M := (Http.M P).
Abbreviation axios_get := (Http.axios_get respond).

(** Each path is the value of [igAccountId] after its block, [cur]
    being the value before it.

    <<
  // Path 1: /me/accounts (requires pages_show_list + user selected Page)
  try {
    const pagesRes = await axios.get('https://graph.facebook.com/v17.0/me/accounts', {
      params: { access_token: longToken }
    });
    const pages = pagesRes.data?.data || [];
    for (const p of pages) { ... }
  } catch (e) { console.log(...); }
>> *)
Definition path1 (longToken cur : value) : M value :=
  try_catch
    (pagesRes <- axios_get ME_ACCOUNTS_URL [("access_token", longToken)] ;;
     let pages := or_else (prop_opt pagesRes "data") (VArr []) in
     ps <- lift (for_of pages) ;;
     scan_pages P respond longToken cur ps)
    (fun _ => ret cur).

(** <<
    try {
      const meRes = await axios.get('https://graph.facebook.com/v17.0/me', {
        params: { fields: 'instagram_business_accounts{id,username}', access_token: longToken }
      });
      const igList = meRes.data?.instagram_business_accounts?.data || [];
      if (igList.length) igAccountId = igList[0].id;
    } catch (e) { console.log(...); }
>> *)
Definition path2 (longToken cur : value) : M value :=
  try_catch
    (meRes <- axios_get ME_URL
                [("fields", VStr "instagram_business_accounts{id,username}");
                 ("access_token", longToken)] ;;
     let igList :=
       or_else (prop_opt (prop_opt meRes "instagram_business_accounts") "data") (VArr []) in
     if truthy (prop_opt igList "length")
     then lift (get (prop_opt igList "0") "id")
     else ret cur)
    (fun _ => ret cur).

(** <<
    try {
      const meAccRes = await axios.get('https://graph.facebook.com/v17.0/me', {
        params: { fields: 'accounts{id,name,instagram_business_account}', access_token: longToken }
      });
      const accs = meAccRes.data?.accounts?.data || [];
      for (const a of accs) {
        const id = a?.instagram_business_account?.id;
        if (id) { igAccountId = id; break; }
      }
    } catch (e) { console.log(...); }
>> *)
Fixpoint first_linked (cur : value) (accs : list value) : value :=
  match accs with
  | [] => cur
  | a :: accs' =>
      let id := prop_opt (prop_opt a "instagram_business_account") "id" in
      if truthy id then id else first_linked cur accs'
  end.

Definition path3 (longToken cur : value) : M value :=
  try_catch
    (meAccRes <- axios_get ME_URL
                   [("fields", VStr "accounts{id,name,instagram_business_account}");
                    ("access_token", longToken)] ;;
     let accs := or_else (prop_opt (prop_opt meAccRes "accounts") "data") (VArr []) in
     l <- lift (for_of accs) ;;
     ret (first_linked cur l))
    (fun _ => ret cur).

(** Step 3: [let igAccountId = null], then the three paths, each of the
    last two behind [if (!igAccountId)]. *)
Definition resolve (longToken : value) : M value :=
  ig1 <- path1 longToken VNull ;;
  ig2 <- (if negb (truthy ig1) then path2 longToken ig1 else ret ig1) ;;
  ig3 <- (if negb (truthy ig2) then path3 longToken ig2 else ret ig2) ;;
  if negb (truthy ig3) then throw (Error NO_IG) else ret ig3.

(** Step 4, the save, reads as step 5 of [src/server.js]. *)
Definition save_account := ServerJs.save_account P cfg.

(** [app.get('/auth/instagram/callback', ...)] *)
Definition callback (req : request) : M response :=
  let code := prop_opt (query req) "code" in
  if negb (truthy code) then ret (Reply 400 (Text "No code returned"))
  else
    let REDIRECT_URI := buildBaseUrl req +++ "/auth/instagram/callback" in
    try_catch
      (longToken <- exchange P respond cfg code REDIRECT_URI ;;
       igAccountId <- resolve longToken ;;
       _ <- save_account longToken igAccountId ;;
       ret (Reply 200 (Text connected_page)))
      (fun err => ret (error_page err)).

End Server.

Section Debug.
Variable DATA_DIR : string.

(** <<
app.get('/debug/read-accounts', (req, res) => {
try {
  const acc = loadJSON(ACCOUNTS_FILE);
  // mask tokens
  for (const k of Object.keys(acc)) {
    if (acc[k].accessToken) acc[k].accessToken = `***len:${acc[k].accessToken.length}`;
  }
  res.json(acc);
} catch (e) {
  res.status(500).json({ error: String(e) });
}
});
>> *)
Definition mask_record (record : value) : result value :=
  bind_result (get record "accessToken") (fun token =>
  if truthy token then
    bind_result (get token "length") (fun len =>
    bind_result (ToString len) (fun n =>
    put record "accessToken" (VStr ("***len:" +++ n))))
  else Ok record).

Fixpoint mask_tokens (acc : value) (keys : list string) : result value :=
  match keys with
  | [] => Ok acc
  | k :: keys' =>
      bind_result (get acc k) (fun record =>
      bind_result (mask_record record) (fun record' =>
      mask_tokens (store_back acc k record') keys'))
  end.

Definition debug_read_accounts (fs : FS) : response * FS :=
  let acc := loadJSON fs (ACCOUNTS_FILE DATA_DIR) in
  match bind_result (Object_keys acc) (mask_tokens acc) with
  | Ok acc' => (Reply 200 (Json acc'), fs)
  | Throw e => (Reply 500 (Json (VObj [("error", VStr (String_of_exn e))])), fs)
  end.

Definition get_accounts := Routes.get_accounts DATA_DIR.
Definition post_buckets := Routes.post_buckets DATA_DIR.
Definition get_schedule := Routes.get_schedule DATA_DIR.
Definition post_schedule := Routes.post_schedule DATA_DIR.

End Debug.
End Part000.

(** ** [src/unnamed/part_001], second revision (from line 183): lookup
    with Page access tokens, display name, page fields *)

Module Part001.
Import JS Fs Storage Http OAuth.
Local Open Scope js_scope.

Definition NO_PAGES : string :=
  "No Facebook Pages found for this user (ensure you selected the Page on the consent screen).".

(** The arrow of the message, U+2192, in UTF-8. *)
Definition arrow : string :=
  String (ascii_of_nat 226) (String (ascii_of_nat 134) (String (ascii_of_nat 146) "")).

Definition NO_IG : string :=
  "No Instagram Business account linked to any of the selected Pages. Make sure your IG is BUSINESS and linked to the Page you checked during consent (Page Settings "
  +++ arrow +++ " Linked Accounts).".

Definition connected_page (igUsername pageName : string) : string :=
  line "" +++
  line "      <html>" +++
  line ("        <body style=" +++ String JSON.dquote
        ("font-family:sans-serif; text-align:center; margin-top:48px" +++
         String JSON.dquote ">")) +++
  line "          <h2>Account connected!</h2>" +++
  line ("          <p>Linked IG: <b>" +++ igUsername +++ "</b> via Page <b>" +++ pageName
        +++ "</b>.</p>") +++
  line "          <p>You can close this tab and return to the app.</p>" +++
  line "        </body>" +++
  line "      </html>" +++
  "    ".

Section Server.
Variable P : Type.
Variable respond : P -> call -> answer * P.
Variable cfg : config.

Abbreviation M := (Http.M P).
Abbreviation axios_get := (Http.axios_get respond).

(** <<
  let pages = [];
  try {
    const pagesRes = await axios.get('https://graph.facebook.com/v17.0/me/accounts', {
      params: { access_token: userToken, fields: 'id,name,access_token' }
    });
    pages = pagesRes.data?.data || [];
    console.log(...);
  } catch (e) { console.log(...); }
>>
    Whatever the logging line after the assignment throws ends in the
    same [catch], with [pages] assigned already. *)
Definition fetch_pages (userToken : value) : M value :=
  try_catch
    (pagesRes <- axios_get ME_ACCOUNTS_URL
                   [("access_token", userToken); ("fields", VStr "id,name,access_token")] ;;
     ret (or_else (prop_opt pagesRes "data") (VArr [])))
    (fun _ => ret (VArr [])).

(** <<
  let igAccountId = null;
  let foundOnPage = null;
  for (const p of pages) {
    if (!p.access_token) continue; // sometimes missing; skip
    try {
      const igRes = await axios.get(`https://graph.facebook.com/v17.0/${p.id}`, {
        params: { fields: 'instagram_business_account', access_token: p.access_token }
      });
      const id = igRes.data?.instagram_business_account?.id;
      if (id) { igAccountId = id; foundOnPage = p; break; }
    } catch (e) { }
  }
>>
    The result is the pair of [igAccountId] and [foundOnPage]. *)
Fixpoint scan_pages (pages : list value) : M (value * value) :=
  match pages with
  | [] => ret (VNull, VNull)
  | p :: pages' =>
      token <- lift (get p "access_token") ;;
      if negb (truthy token) then scan_pages pages'
      else
        id <- page_lookup P respond p token ;;
        if truthy id then ret (id, p) else scan_pages pages'
  end.

(** <<
  let igUsername = `Instagram-${igAccountId}`;
  try {
    const igInfo = await axios.get(`https://graph.facebook.com/v17.0/${igAccountId}`, {
      params: { fields: 'username', access_token: foundOnPage.access_token }
    });
    if (igInfo.data?.username) igUsername = igInfo.data.username;
  } catch {}
>> *)
Definition fetch_username (igAccountId foundOnPage : value) : M value :=
  name <- lift (ToString igAccountId) ;;
  let placeholder := VStr ("Instagram-" +++ name) in
  try_catch
    (token <- lift (get foundOnPage "access_token") ;;
     igInfo <- axios_get (GRAPH +++ name)
                 [("fields", VStr "username"); ("access_token", token)] ;;
     let username := prop_opt igInfo "username" in
     if truthy username then ret username else ret placeholder)
    (fun _ => ret placeholder).

(** <<
  const accounts = loadJSON(ACCOUNTS_FILE);
  accounts[igAccountId] = {
    accessToken: userToken,
    pageId: foundOnPage.id,
    pageName: foundOnPage.name,
    igUsername,
    buckets: []
  };
  saveJSON(ACCOUNTS_FILE, accounts);
>> *)
Definition new_record (userToken foundOnPage igUsername : value) : value :=
  VObj [("accessToken", userToken);
        ("pageId", prop_opt foundOnPage "id");
        ("pageName", prop_opt foundOnPage "name");
        ("igUsername", igUsername);
        ("buckets", VArr [])].

Definition save_account (userToken igAccountId foundOnPage igUsername : value) : M unit :=
  accounts <- load (ACCOUNTS_FILE (DATA_DIR cfg)) ;;
  key <- lift (ToString igAccountId) ;;
  _ <- lift (get foundOnPage "id") ;;
  accounts' <- lift (put accounts key (new_record userToken foundOnPage igUsername)) ;;
  save (ACCOUNTS_FILE (DATA_DIR cfg)) accounts'.

(** Steps 5 to 7, once an account is found on a page; the logging line
    in front of them spells the name and the id of the page. *)
Definition finish (userToken igAccountId foundOnPage : value) : M response :=
  _ <- lift (ToString (prop_opt foundOnPage "name")) ;;
  _ <- lift (ToString (prop_opt foundOnPage "id")) ;;
  igUsername <- fetch_username igAccountId foundOnPage ;;
  _ <- save_account userToken igAccountId foundOnPage igUsername ;;
  shown <- lift (ToString igUsername) ;;
  pageName <- lift (bind_result (get foundOnPage "name") ToString) ;;
  ret (Reply 200 (Text (connected_page shown pageName))).

(** Steps 3 and 4. *)
Definition resolve (userToken : value) : M (value * value) :=
  pages <- fetch_pages userToken ;;
  if negb (truthy (prop_opt pages "length")) then throw (Error NO_PAGES)
  else
    ps <- lift (for_of pages) ;;
    found <- scan_pages ps ;;
    if negb (truthy (fst found)) then throw (Error NO_IG)
    else ret found.

(** [app.get('/auth/instagram/callback', ...)] *)
Definition callback (req : request) : M response :=
  let code := prop_opt (query req) "code" in
  if negb (truthy code) then ret (Reply 400 (Text "No code returned"))
  else
    let REDIRECT_URI := buildBaseUrl req +++ "/auth/instagram/callback" in
    try_catch
      (userToken <- exchange P respond cfg code REDIRECT_URI ;;
       found <- resolve userToken ;;
       finish userToken (fst found) (snd found))
      (fun err => ret (error_page err)).

End Server.

Section Routes.
Variable DATA_DIR : string.

(** <<
app.get('/accounts', (req, res) => {
const accounts = loadJSON(ACCOUNTS_FILE);
const list = Object.entries(accounts).map(([accountId, acc]) => ({
  accountId,
  username: acc.igUsername || acc.username || `Instagram-${accountId}`,
  pageId: acc.pageId,
  pageName: acc.pageName
}));
res.json(list);
});
>> *)
Fixpoint listing (es : props) : result (list value) :=
  match es with
  | [] => Ok []
  | (accountId, acc) :: es' =>
      bind_result (get acc "igUsername") (fun igUsername =>
      bind_result (if truthy igUsername then Ok igUsername else get acc "username")
        (fun name =>
      bind_result (get acc "pageId") (fun pageId =>
      bind_result (get acc "pageName") (fun pageName =>
      bind_result (listing es') (fun rest =>
      Ok (VObj [("accountId", VStr accountId);
                ("username", or_else name (VStr ("Instagram-" +++ accountId)));
                ("pageId", pageId);
                ("pageName", pageName)] :: rest))))))
  end.

Definition get_accounts (fs : FS) : response * FS :=
  match bind_result (Object_entries (loadJSON fs (ACCOUNTS_FILE DATA_DIR))) listing with
  | Throw e => (Unhandled e, fs)
  | Ok list => (Reply 200 (Json (VArr list)), fs)
  end.

(** <<
  for (const k of Object.keys(acc)) {
    if (acc[k].accessToken) acc[k].accessToken = `***len:${String(acc[k].accessToken).length}`;
  }
>> *)
Definition mask_record (record : value) : result value :=
  bind_result (get record "accessToken") (fun token =>
  if truthy token then
    bind_result (ToString token) (fun s =>
    put record "accessToken" (VStr ("***len:" +++ nat_to_string (String.length s))))
  else Ok record).

Fixpoint mask_tokens (acc : value) (keys : list string) : result value :=
  match keys with
  | [] => Ok acc
  | k :: keys' =>
      bind_result (get acc k) (fun record =>
      bind_result (mask_record record) (fun record' =>
      mask_tokens (store_back acc k record') keys'))
  end.

Definition debug_read_accounts (fs : FS) : response * FS :=
  let acc := loadJSON fs (ACCOUNTS_FILE DATA_DIR) in
  match bind_result (Object_keys acc) (mask_tokens acc) with
  | Ok acc' => (Reply 200 (Json acc'), fs)
  | Throw e => (Reply 500 (Json (VObj [("error", VStr (String_of_exn e))])), fs)
  end.

Definition post_buckets := Routes.post_buckets DATA_DIR.
Definition get_buckets := Routes.get_buckets DATA_DIR.
Definition get_schedule := Routes.get_schedule DATA_DIR.
Definition post_schedule := Routes.post_schedule DATA_DIR.

End Routes.
End Part001.

(** ** Concrete worlds: provider mocks and disks used to run the model *)

Module Mock.
Import JS Fs Storage Http OAuth.

Definition cfg : config := mkConfig "app-id" "app-secret" "/tmp".

Definition empty_disk : FS := mkFS (fun _ => Absent) (fun _ => true).

(** The same files on a volume that takes no write any more. *)
Definition read_only (fs : FS) : FS := mkFS (nodes fs) (fun _ => false).

Definition with_file (fs : FS) (p txt : string) : FS := set_node fs p (File txt).

Definition field (c : call) (k : string) : value :=
  match own (params c) k with
  | Some v => v
  | None => VUndef
  end.

Definition rejected : answer :=
  Rejected (VObj [("error", VObj [("message", VStr "Unsupported get request")])])
           "Request failed with status code 400".

Definition page1 : value :=
  VObj [("id", VStr "1001"); ("name", VStr "Bakery"); ("access_token", VStr "page-token")].

Definition ig_id : string := "17841400000000001".

(** The provider keeps the list of the calls it has answered, latest
    first.  [tokens] answers both token exchanges. *)
Definition tokens (c : call) : option answer :=
  if (url c =? TOKEN_URL)%string
  then Some (Resolved (VObj [("access_token", VStr "long-lived-token")]))
  else None.

Definition logged (f : call -> answer) (seen : list call) (c : call) : answer * list call :=
  (f c, c :: seen).

Definition asks (c : call) (u fields : string) : bool :=
  (url c =? u)%string &&
  match field c "fields" with
  | VStr f => (f =? fields)%string
  | _ => false
  end.

Definition linked (id : string) : value := VObj [("id", VStr id)].

(** Rejects the first two lookups of [Part000] and answers the third. *)
Definition third_only (c : call) : answer :=
  match tokens c with
  | Some a => a
  | None =>
      if asks c ME_URL "accounts{id,name,instagram_business_account}" then
        Resolved (VObj [("accounts",
                   VObj [("data",
                     VArr [VObj [("id", VStr "1001"); ("name", VStr "Bakery");
                                 ("instagram_business_account", linked ig_id)]])]);
                        ("id", VStr "42")])
      else rejected
  end.

(** Rejects every lookup. *)
Definition no_account (c : call) : answer :=
  match tokens c with
  | Some a => a
  | None => rejected
  end.

(** Lists one page with its token and links an account to it; the name
    of the account is served when [named]. *)
Definition one_page (named : bool) (c : call) : answer :=
  match tokens c with
  | Some a => a
  | None =>
      if (url c =? ME_ACCOUNTS_URL)%string then Resolved (VObj [("data", VArr [page1])])
      else if asks c (GRAPH +++ "1001") "instagram_business_account" then
        Resolved (VObj [("instagram_business_account", linked ig_id); ("id", VStr "1001")])
      else if asks c (GRAPH +++ ig_id) "username" && named then
        Resolved (VObj [("username", VStr "bakery.official"); ("id", VStr ig_id)])
      else rejected
  end.

Definition request_with_code : request :=
  mkRequest (VObj [("code", VStr "AQD-code")]) VUndef (Some "https") "http"
            None (Some "api.example.com").

Definition json_request (b : value) : request :=
  mkRequest (VObj []) b None "http" None (Some "api.example.com").

Definition start (fs : FS) : world (list call) := mkWorld fs [].

Definition old_record : value :=
  VObj [("accessToken", VStr "old-token");
        ("username", VStr "Instagram-17841400000000001");
        ("buckets", VArr [VStr "recipes"; VStr "offers"])].

Definition stored_accounts : value := VObj [(ig_id, old_record)].

Definition disk_with (doc : value) : FS :=
  saveJSON empty_disk (ACCOUNTS_FILE (DATA_DIR cfg)) doc.

Definition long_token : value := VStr "long-lived-token".
Definition accounts_file : string := ACCOUNTS_FILE (DATA_DIR cfg).
Definition callback_uri : string :=
  buildBaseUrl request_with_code +++ "/auth/instagram/callback".

Definition post_times (l : list value) : request :=
  json_request (VObj [("schedule", VArr l)]).

Definition schedule_file : string := SCHEDULE_FILE (DATA_DIR cfg).

(** A volume that holds the schedule [07:00] and has become read-only. *)
Definition stale_schedule : FS :=
  read_only (saveJSON empty_disk schedule_file (VObj [("times", VArr [VStr "07:00"])])).

Definition inherited_key_request : request :=
  json_request (VObj [("accountId", VStr "constructor"); ("buckets", VArr [VStr "x"])]).

(** [stored_accounts] with another token. *)
Definition other_tokens : value :=
  VObj [(ig_id, VObj [("accessToken", VStr "another-token-of-another-length");
                      ("username", VStr "Instagram-17841400000000001");
                      ("buckets", VArr [VStr "recipes"; VStr "offers"])])].

End Mock.

(** ** Predicates the properties are stated with *)

Module Shape.
Import JS Http.

Fixpoint value_eqb (a b : value) : bool :=
  match a, b with
  | VUndef, VUndef | VNull, VNull | VHost, VHost => true
  | VBool x, VBool y => Bool.eqb x y
  | VNum x, VNum y => (x =? y)%Z
  | VStr x, VStr y => (x =? y)%string
  | VArr l1, VArr l2 =>
      (fix all (l1 l2 : list value) : bool :=
         match l1, l2 with
         | [], [] => true
         | x :: l1', y :: l2' => value_eqb x y && all l1' l2'
         | _, _ => false
         end) l1 l2
  | VObj m1, VObj m2 =>
      (fix all (m1 m2 : props) : bool :=
         match m1, m2 with
         | [], [] => true
         | (k1, x) :: m1', (k2, y) :: m2' =>
             (k1 =? k2)%string && value_eqb x y && all m1' m2'
         | _, _ => false
         end) m1 m2
  | _, _ => false
  end.

Fixpoint forall2b {A : Type} (g : A -> A -> bool) (l1 l2 : list A) : bool :=
  match l1, l2 with
  | [], [] => true
  | x :: l1', y :: l2' => g x y && forall2b g l1' l2'
  | _, _ => false
  end.

(** An account record as the data model has it: an object whose
    [accessToken], when there is one, is a string. *)
Definition record_ok (r : value) : bool :=
  match r with
  | VObj f =>
      match own f "accessToken" with
      | None | Some (VStr _) => true
      | Some _ => false
      end
  | _ => false
  end.

Definition accounts_ok (doc : value) : bool :=
  match doc with
  | VObj m => forallb (fun kv => record_ok (snd kv)) m
  | _ => false
  end.

(** Two account documents that differ at most in the values of the
    [accessToken] fields of their records. *)
Definition field_agrees (a b : string * value) : bool :=
  (fst a =? fst b)%string &&
  ((fst a =? "accessToken")%string || value_eqb (snd a) (snd b)).

Definition record_agrees (r1 r2 : value) : bool :=
  match r1, r2 with
  | VObj f1, VObj f2 => forall2b field_agrees f1 f2
  | _, _ => value_eqb r1 r2
  end.

Definition entry_agrees (a b : string * value) : bool :=
  (fst a =? fst b)%string && record_agrees (snd a) (snd b).

Definition same_but_tokens (d1 d2 : value) : bool :=
  match d1, d2 with
  | VObj m1, VObj m2 => forall2b entry_agrees m1 m2
  | _, _ => value_eqb d1 d2
  end.

(** The masked form of a token of [n] characters. *)
Definition masked (n : nat) : value := VStr ("***len:" +++ nat_to_string n).

(** What the masking loop leaves of a record of the data model. *)
Definition masked_record (r : value) : value :=
  match r with
  | VObj f =>
      match own f "accessToken" with
      | Some (VStr t) =>
          if (t =? "")%string then r
          else VObj (replace_own f "accessToken" (masked (String.length t)))
      | _ => r
      end
  | _ => r
  end.

Definition masked_entry (kv : string * value) : string * value :=
  (fst kv, masked_record (snd kv)).

(** The reply of [GET /accounts] as a function of the stored document. *)
Definition listing_reply (doc : value) : response :=
  match bind_result (Object_entries doc) Routes.listing with
  | Throw e => Unhandled e
  | Ok list => Reply 200 (Json (VArr list))
  end.

End Shape.

(** ** What the server does before it listens

    The configuration read from [process.env], [requireEnv] and the two
    lines that make sure the documents exist read the same in
    [src/server.js], in [src/unnamed/part_000] and in the second revision
    of [src/unnamed/part_001]. *)

Module Startup.
Import JS Fs Storage Http OAuth.

(** [process.env]: a variable holds a string or is not set. *)
Definition environment : Type := string -> option string.

Definition getenv (env : environment) (name : string) : value :=
  match env name with
  | Some s => VStr s
  | None => VUndef
  end.

Record settings : Type := mkSettings {
  PORT : value;
  CORS_ORIGIN : value;
  app : config
}.

(** The process has ended with an exit code, or the server listens. *)
Inductive outcome : Type :=
| Exited : Z -> outcome
| Listening : settings -> outcome.

(** <<
function requireEnv(name, val) {
  if (!val) {
    console.error(`[CONFIG] Missing ${name}. Set it as an environment variable.`);
    process.exit(1);
  }
}
>>
    [Some code] is the exit. *)
Definition requireEnv (name : string) (val : value) : option Z :=
  if negb (truthy val) then Some 1%Z else None.

(** <<
try { if (!fs.existsSync(ACCOUNTS_FILE)) saveJSON(ACCOUNTS_FILE, {}); } catch {}
try { if (!fs.existsSync(SCHEDULE_FILE)) saveJSON(SCHEDULE_FILE, { times: [] }); } catch {}
>> *)
Definition ensure_files (dir : string) (fs : FS) : FS :=
  let fs1 :=
    if negb (existsSync fs (ACCOUNTS_FILE dir))
    then saveJSON fs (ACCOUNTS_FILE dir) (VObj []) else fs in
  if negb (existsSync fs1 (SCHEDULE_FILE dir))
  then saveJSON fs1 (SCHEDULE_FILE dir) (VObj [("times", VArr [])]) else fs1.

(** <<
const PORT = process.env.PORT || 5000;
const FB_APP_ID = process.env.FB_APP_ID;                 // required
const FB_APP_SECRET = process.env.FB_APP_SECRET;         // required
const CORS_ORIGIN = process.env.CORS_ORIGIN || 'http://localhost:3000';
const DATA_DIR = process.env.DATA_DIR || '/tmp';
...
requireEnv('FB_APP_ID', FB_APP_ID);
requireEnv('FB_APP_SECRET', FB_APP_SECRET);
...
app.listen(PORT, ...)
>>
    The module runs from top to bottom: an exit in [requireEnv] ends it
    before the lines that touch the disk. *)
Definition startup (env : environment) (fs : FS) : outcome * FS :=
  let port := or_else (getenv env "PORT") (VNum 5000) in
  let app_id := getenv env "FB_APP_ID" in
  let app_secret := getenv env "FB_APP_SECRET" in
  let cors_origin := or_else (getenv env "CORS_ORIGIN") (VStr "http://localhost:3000") in
  let data_dir := or_else (getenv env "DATA_DIR") (VStr "/tmp") in
  match requireEnv "FB_APP_ID" app_id with
  | Some code => (Exited code, fs)
  | None =>
      match requireEnv "FB_APP_SECRET" app_secret with
      | Some code => (Exited code, fs)
      | None =>
          let dir := text_of data_dir in
          (Listening (mkSettings port cors_origin
                        (mkConfig (text_of app_id) (text_of app_secret) dir)),
           ensure_files dir fs)
      end
  end.

End Startup.

(** ** [GET /auth/instagram]: the redirect to the consent dialog *)

Module Start.
Import JS Http OAuth.

(** The characters [encodeURIComponent] leaves as they are: letters,
    digits and [- _ . ! ~ * ' ( )]. *)
Definition unreserved (c : ascii) : bool :=
  let n := N_of_ascii c in
  ((65 <=? n) && (n <=? 90) || (97 <=? n) && (n <=? 122) || (48 <=? n) && (n <=? 57)
   || (n =? 45) || (n =? 95) || (n =? 46) || (n =? 33) || (n =? 126) || (n =? 42)
   || (n =? 39) || (n =? 40) || (n =? 41))%N.

Definition HEX (n : N) : ascii :=
  if (n <? 10)%N then ascii_of_N (48 + n) else ascii_of_N (55 + n).

Definition percent (byte : N) : string :=
  String "%" (String (HEX (byte / 16)) (String (HEX (byte mod 16)) "")).

(** One code unit: kept, or the bytes of its UTF-8 form, each as [%XX].
    A code unit from 0x80 to 0xFF takes two bytes. *)
Definition encode_unit (c : ascii) : string :=
  let n := N_of_ascii c in
  if unreserved c then String c ""
  else if (n <? 128)%N then percent n
  else percent (192 + n / 64) +++ percent (128 + n mod 64).

Fixpoint encodeURIComponent (s : string) : string :=
  match s with
  | EmptyString => ""
  | String c s' => encode_unit c +++ encodeURIComponent s'
  end.

Definition DIALOG : string := "https://www.facebook.com/v17.0/dialog/oauth".

Section Config.
Variable cfg : config.

(** Each function is the URL the handler hands to [res.redirect].

    <<
app.get('/auth/instagram', (req, res) => {
  const REDIRECT_URI = `${buildBaseUrl(req)}/auth/instagram/callback`;
  const url =
    'https://www.facebook.com/v17.0/dialog/oauth' +
    `?client_id=${encodeURIComponent(FB_APP_ID)}` +
    `&redirect_uri=${encodeURIComponent(REDIRECT_URI)}` +
    '&scope=instagram_basic,instagram_content_publish' +
    '&response_type=code';
  return res.redirect(url);
});
>>
    ([src/server.js]) *)
Definition server_js (req : request) : string :=
  let REDIRECT_URI := buildBaseUrl req +++ "/auth/instagram/callback" in
  DIALOG +++
  ("?client_id=" +++ encodeURIComponent (FB_APP_ID cfg)) +++
  ("&redirect_uri=" +++ encodeURIComponent REDIRECT_URI) +++
  "&scope=instagram_basic,instagram_content_publish" +++
  "&response_type=code".

(** <<
  const scopes = [
    'instagram_basic',
    'instagram_content_publish',
    'pages_show_list'
  ].join(',');
  const url =
    'https://www.facebook.com/v17.0/dialog/oauth' +
    `?client_id=${encodeURIComponent(FB_APP_ID)}` +
    `&redirect_uri=${encodeURIComponent(REDIRECT_URI)}` +
    `&scope=${encodeURIComponent(scopes)}` +
    '&response_type=code';
>>
    ([src/unnamed/part_000]; the second revision of [src/unnamed/part_001]
    reads the same with a fourth scope) *)
Definition with_scopes (scope_list : list string) (req : request) : string :=
  let REDIRECT_URI := buildBaseUrl req +++ "/auth/instagram/callback" in
  let scopes := join "," scope_list in
  DIALOG +++
  ("?client_id=" +++ encodeURIComponent (FB_APP_ID cfg)) +++
  ("&redirect_uri=" +++ encodeURIComponent REDIRECT_URI) +++
  ("&scope=" +++ encodeURIComponent scopes) +++
  "&response_type=code".

Definition part_000 : request -> string :=
  with_scopes ["instagram_basic"; "instagram_content_publish"; "pages_show_list"].

Definition part_001 : request -> string :=
  with_scopes ["instagram_basic"; "instagram_content_publish"; "pages_show_list";
               "pages_read_engagement"].

End Config.
End Start.

(** ** [src/unnamed/part_001], first revision (lines 1 to 182): a base
    URL from the environment, the first page only *)

Module Part001First.
Import JS Fs Storage Http OAuth.
Local Open Scope js_scope.

(** [JSON.stringify(value)], without indentation. *)
Fixpoint render_compact (v : value) : string :=
  match v with
  | VUndef | VHost | VNull => "null"
  | VBool true => "true"
  | VBool false => "false"
  | VNum n => Z_to_string n
  | VStr s => JSON.quote s
  | VArr l =>
      "[" +++
      (fix items (l : list value) (first : bool) : string :=
         match l with
         | [] => ""
         | x :: l' => (if first then "" else ",") +++ render_compact x +++ items l' false
         end) l true
      +++ "]"
  | VObj m =>
      "{" +++
      (fix members (m : props) (first : bool) : string :=
         match m with
         | [] => ""
         | (k, x) :: m' =>
             if JSON.defined x
             then (if first then "" else ",") +++ JSON.quote k +++ ":" +++ render_compact x
                  +++ members m' false
             else members m' first
         end) m true
      +++ "}"
  end.

Definition stringify_compact (v : value) : option string :=
  if JSON.defined v then Some (render_compact v) else None.

(** [s.replace(/\/$/, '')]: one slash at the end of [s] is dropped. *)
Fixpoint strip_slash (s : string) : string :=
  match s with
  | EmptyString => ""
  | String c s' =>
      match s' with
      | EmptyString => if (c =? "/")%char then "" else s
      | String _ _ => String c (strip_slash s')
      end
  end.

Record config : Type := mkConfig {
  app : OAuth.config;
  BASE_URL : string
}.

(** <<
const REDIRECT_URI = `${BASE_URL.replace(/\/$/, '')}/auth/instagram/callback`;
>> *)
Definition REDIRECT_URI (cfg : config) : string :=
  strip_slash (BASE_URL cfg) +++ "/auth/instagram/callback".

(** The process has ended with an exit code, or the server listens on
    a port, with an origin allowed and a configuration. *)
Inductive outcome : Type :=
| Exited : Z -> outcome
| Listening : value -> value -> config -> outcome.

(** <<
const PORT = process.env.PORT || 5000;
const FB_APP_ID = process.env.FB_APP_ID;                 // required
const FB_APP_SECRET = process.env.FB_APP_SECRET;         // required
const BASE_URL = process.env.BASE_URL;                   // required
const CORS_ORIGIN = process.env.CORS_ORIGIN || 'http://localhost:3000';
const DATA_DIR = process.env.DATA_DIR || __dirname;
...
requireEnv('FB_APP_ID', FB_APP_ID);
requireEnv('FB_APP_SECRET', FB_APP_SECRET);
requireEnv('BASE_URL', BASE_URL);
>>
    This revision does not create the documents when it starts;
    [dirname] is the directory of the script. *)
Definition startup (dirname : string) (env : Startup.environment) : outcome :=
  let port := or_else (Startup.getenv env "PORT") (VNum 5000) in
  let app_id := Startup.getenv env "FB_APP_ID" in
  let app_secret := Startup.getenv env "FB_APP_SECRET" in
  let base_url := Startup.getenv env "BASE_URL" in
  let cors_origin := or_else (Startup.getenv env "CORS_ORIGIN") (VStr "http://localhost:3000") in
  let data_dir := or_else (Startup.getenv env "DATA_DIR") (VStr dirname) in
  match Startup.requireEnv "FB_APP_ID" app_id with
  | Some code => Exited code
  | None =>
      match Startup.requireEnv "FB_APP_SECRET" app_secret with
      | Some code => Exited code
      | None =>
          match Startup.requireEnv "BASE_URL" base_url with
          | Some code => Exited code
          | None =>
              Listening port cors_origin
                (mkConfig (OAuth.mkConfig (text_of app_id) (text_of app_secret)
                                          (text_of data_dir))
                          (text_of base_url))
          end
      end
  end.

Definition NO_PAGES : string := "No Facebook Pages found for this user".
Definition NO_IG : string := "No Instagram Business account linked to this Page".

(** <<
  } catch (err) {
    const detail = err.response?.data || err.message;
    console.error('[OAuth] error:', detail);
    res.status(500).send(`OAuth error: ${typeof detail === 'string' ? detail : JSON.stringify(detail)}`);
  }
>> *)
Definition detail_text (d : value) : string :=
  match d with
  | VStr s => s
  | _ => match stringify_compact d with
         | Some t => t
         | None => "undefined"
         end
  end.

Definition error_page (err : exn) : response :=
  Reply 500 (Text ("OAuth error: " +++ detail_text (detail_of err))).

Section Server.
Variable P : Type.
Variable respond : P -> call -> answer * P.
Variable cfg : config.

Abbreviation M := (Http.M P).
Abbreviation axios_get := (Http.axios_get respond).

(** <<
    // 3) Get FB Pages
    const pages = await axios.get('https://graph.facebook.com/v17.0/me/accounts', {
      params: { access_token: longToken }
    });
    const pageList = pages.data?.data || [];
    if (!pageList.length) throw new Error('No Facebook Pages found for this user');
    const pageId = pageList[0].id;

    // 4) From Page to Instagram Business account
    const ig = await axios.get(`https://graph.facebook.com/v17.0/${pageId}`, {
      params: { fields: 'instagram_business_account', access_token: longToken }
    });
    const igAccountId = ig.data?.instagram_business_account?.id;
    if (!igAccountId) throw new Error('No Instagram Business account linked to this Page');
>> *)
Definition resolve (longToken : value) : M value :=
  pages <- axios_get ME_ACCOUNTS_URL [("access_token", longToken)] ;;
  let pageList := or_else (prop_opt pages "data") (VArr []) in
  if negb (truthy (prop_opt pageList "length")) then throw (Error NO_PAGES)
  else
    pageId <- lift (get (prop_opt pageList "0") "id") ;;
    seg <- lift (ToString pageId) ;;
    ig <- axios_get (GRAPH +++ seg)
            [("fields", VStr "instagram_business_account");
             ("access_token", longToken)] ;;
    let igAccountId := prop_opt (prop_opt ig "instagram_business_account") "id" in
    if negb (truthy igAccountId) then throw (Error NO_IG)
    else ret igAccountId.

(** [app.get('/auth/instagram/callback', ...)]; the save and the
    confirmation page read as in [src/server.js]. *)
Definition callback (req : request) : M response :=
  let code := prop_opt (query req) "code" in
  if negb (truthy code) then ret (Reply 400 (Text "No code returned"))
  else
    try_catch
      (longToken <- exchange P respond (app cfg) code (REDIRECT_URI cfg) ;;
       igAccountId <- resolve longToken ;;
       _ <- ServerJs.save_account P (app cfg) longToken igAccountId ;;
       ret (Reply 200 (Text connected_page)))
      (fun err => ret (error_page err)).

End Server.

(** <<
app.get('/auth/instagram', (req, res) => {
  const url =
    'https://www.facebook.com/v17.0/dialog/oauth?' +
    `client_id=${encodeURIComponent(FB_APP_ID)}` +
    `&redirect_uri=${encodeURIComponent(REDIRECT_URI)}` +
    '&scope=instagram_basic,instagram_content_publish' +
    '&response_type=code';
  return res.redirect(url);
});
>> *)
Definition auth_instagram (cfg : config) : string :=
  "https://www.facebook.com/v17.0/dialog/oauth?" +++
  ("client_id=" +++ Start.encodeURIComponent (FB_APP_ID (app cfg))) +++
  ("&redirect_uri=" +++ Start.encodeURIComponent (REDIRECT_URI cfg)) +++
  "&scope=instagram_basic,instagram_content_publish" +++
  "&response_type=code".

End Part001First.

(** ** Further notions the properties are stated with *)

Module Notions.
Import JS Fs Storage Http OAuth.

(** A variable of the environment that holds a text. *)
Definition is_set (env : Startup.environment) (name : string) : bool :=
  match env name with
  | Some s => negb (s =? "")%string
  | None => false
  end.

(** What [POST /schedule] takes as the list of times:
    [(req.body && req.body.schedule) || []]. *)
Definition posted_times (req : request) : value :=
  or_else (if truthy (body req) then prop_opt (body req) "schedule" else body req)
          (VArr []).

(** What [POST /buckets] reads of the body: [const { accountId, buckets } = req.body || {}]. *)
Definition posted_account (req : request) : value :=
  prop_opt (or_else (body req) (VObj [])) "accountId".

Definition posted_buckets (req : request) : value :=
  prop_opt (or_else (body req) (VObj [])) "buckets".

Definition is_null (v : value) : bool :=
  match v with
  | VNull => true
  | _ => false
  end.

(** Every record of the accounts is something: no key holds [null]. *)
Definition no_null_record (m : props) : bool :=
  forallb (fun kv => negb (is_null (snd kv))) m.

(** The entry [GET /accounts] lists for an account, in [src/server.js]
    and in the second revision of [src/unnamed/part_001]. *)
Definition listed (kv : string * value) : value :=
  VObj [("accountId", VStr (fst kv)); ("username", prop_opt (snd kv) "username")].

Definition listed_with_page (kv : string * value) : value :=
  VObj [("accountId", VStr (fst kv));
        ("username",
         or_else (or_else (prop_opt (snd kv) "igUsername") (prop_opt (snd kv) "username"))
                 (VStr ("Instagram-" +++ fst kv)));
        ("pageId", prop_opt (snd kv) "pageId");
        ("pageName", prop_opt (snd kv) "pageName")].

(** A record that shows no token: its [accessToken] is missing, falsy,
    or of the form [***len:N]. *)
Definition token_hidden (r : value) : Prop :=
  forall t, prop r "accessToken" = Some t -> truthy t = true ->
            exists n, t = Shape.masked n.

(** The disk takes a write of a document to [file]. *)
Definition can_write (fs : FS) (file : string) : bool :=
  save_succeeds fs file (VObj []).

Fixpoint ends_with_slash (s : string) : bool :=
  match s with
  | EmptyString => false
  | String c EmptyString => (c =? "/")%char
  | String _ s' => ends_with_slash s'
  end.

(** The pieces of [s] between the occurrences of [c]. *)
Fixpoint split_on (c : ascii) (s : string) : list string :=
  match s with
  | EmptyString => [""]
  | String x s' =>
      if (x =? c)%char then "" :: split_on c s'
      else match split_on c s' with
           | [] => [String x ""]
           | piece :: pieces => String x piece :: pieces
           end
  end.

(** A directory spelled as [path.join] leaves it: names that are not
    empty and are neither [.] nor [..], with one [/] between two of them
    and, for an absolute path, one in front; no [/] at the end.  For such
    a directory [path.join(dir, name)] is [dir], a [/] and [name]. *)
Definition plain_name (s : string) : bool :=
  negb (s =? "")%string && negb (s =? ".")%string && negb (s =? "..")%string.

Definition plain_dir (dir : string) : bool :=
  match dir with
  | String "/" names => forallb plain_name (split_on "/" names)
  | _ => forallb plain_name (split_on "/" dir)
  end.

Fixpoint has_char (c : ascii) (s : string) : bool :=
  match s with
  | EmptyString => false
  | String x s' => (x =? c)%char || has_char c s'
  end.

(** The parameters of a URL: what follows its first [?], cut at each [&],
    each piece cut at its [=]. *)
Fixpoint after_mark (s : string) : string :=
  match s with
  | EmptyString => ""
  | String x s' => if (x =? "?")%char then s' else after_mark s'
  end.

Definition parameters (url : string) : list (list string) :=
  map (split_on "=") (split_on "&" (after_mark url)).

Section Runs.
Variable P : Type.

(** A computation that changes the disk at most at [file] and at the
    directory of [file]. *)
Definition writes_only {A : Type} (file : string) (m : M P A) : Prop :=
  forall w r w' q, m w = (r, w') -> q <> file -> q <> path_dirname file ->
                   nodes (disk w') q = nodes (disk w) q.

(** The page of an error, as [src/server.js], [src/unnamed/part_000] and
    the second revision of [src/unnamed/part_001] render it. *)
Definition oauth_error (text : string) : response :=
  Reply 500 (Text ("<pre>OAuth error:" +++ JSON.nl +++ text +++ "</pre>")).

(** The ways a run of the callback of [src/server.js] or of
    [src/unnamed/part_000] from the world [w] can end: without a code,
    status 400 and nothing done; with a code, either the page of an error
    and the disk as it was, or the confirmation page and the accounts
    saved with the new record under the identifier found. *)
Definition settled (cfg : config) (req : request) (w : world P)
                   (run : result response * world P) : Prop :=
  let code := prop_opt (query req) "code" in
  let file := ACCOUNTS_FILE (DATA_DIR cfg) in
  (truthy code = false /\ run = (Ok (Reply 400 (Text "No code returned")), w)) \/
  (truthy code = true /\
   exists text w', run = (Ok (oauth_error text), w') /\ disk w' = disk w) \/
  (truthy code = true /\
   exists token id name accounts' w',
     run = (Ok (Reply 200 (Text connected_page)), w') /\
     truthy id = true /\ to_string id = Some name /\
     put (loadJSON (disk w) file) name (ServerJs.new_record token name) = Ok accounts' /\
     disk w' = saveJSON (disk w) file accounts').

(** A run that ends in a reply whose status goes with the request:
    400 for a request without a code and for no other, 200 or 500
    otherwise; the disk is as it was, or the accounts were saved once. *)
Definition replied (cfg : config) (req : request) (w : world P)
                   (run : result response * world P) : Prop :=
  exists status text w',
    run = (Ok (Reply status (Text text)), w') /\
    (truthy (prop_opt (query req) "code") = false -> status = 400%Z /\ w' = w) /\
    (truthy (prop_opt (query req) "code") = true -> status = 200%Z \/ status = 500%Z) /\
    (disk w' = disk w \/
     exists accounts', disk w' = saveJSON (disk w) (ACCOUNTS_FILE (DATA_DIR cfg)) accounts').

End Runs.

Arguments writes_only P {A} _ _.
Arguments settled {P} _ _ _ _.
Arguments replied {P} _ _ _ _.

End Notions.

(** ** [GET /debug/files] ([src/unnamed/part_000] and the second revision
    of [src/unnamed/part_001]) *)

Module DebugFiles.
Import JS Fs Storage Http.

(** The bytes of a text in UTF-8: one for a code unit below 0x80, two
    for a code unit from 0x80 to 0xFF. *)
Fixpoint byteLength (s : string) : Z :=
  match s with
  | EmptyString => 0%Z
  | String c s' => ((if (N_of_ascii c <? 128)%N then 1 else 2) + byteLength s')%Z
  end.

Section Config.
Variable DATA_DIR : string.

(** What the file system reports as the size of a directory. *)
Variable dir_size : Z.

(** [fs.statSync(p).size] *)
Definition statSync_size (fs : FS) (p : string) : result Z :=
  match nodes fs p with
  | File txt => Ok (byteLength txt)
  | Dir => Ok dir_size
  | Absent => Throw (Error "ENOENT: no such file or directory, stat")
  end.

(** <<
app.get('/debug/files', (req, res) => {
  try {
    const aExists = fs.existsSync(ACCOUNTS_FILE);
    const sExists = fs.existsSync(SCHEDULE_FILE);
    res.json({
      accountsPath: ACCOUNTS_FILE,
      accountsExists: aExists,
      accountsBytes: aExists ? fs.statSync(ACCOUNTS_FILE).size : 0,
      schedulePath: SCHEDULE_FILE,
      scheduleExists: sExists,
      scheduleBytes: sExists ? fs.statSync(SCHEDULE_FILE).size : 0
    });
  } catch (e) {
    res.status(500).json({ error: String(e) });
  }
});
>> *)
Definition debug_files (fs : FS) : response * FS :=
  let aExists := existsSync fs (ACCOUNTS_FILE DATA_DIR) in
  let sExists := existsSync fs (SCHEDULE_FILE DATA_DIR) in
  match
    bind_result (if aExists then statSync_size fs (ACCOUNTS_FILE DATA_DIR) else Ok 0%Z)
      (fun accountsBytes =>
    bind_result (if sExists then statSync_size fs (SCHEDULE_FILE DATA_DIR) else Ok 0%Z)
      (fun scheduleBytes =>
    Ok (VObj [("accountsPath", VStr (ACCOUNTS_FILE DATA_DIR));
              ("accountsExists", VBool aExists);
              ("accountsBytes", VNum accountsBytes);
              ("schedulePath", VStr (SCHEDULE_FILE DATA_DIR));
              ("scheduleExists", VBool sExists);
              ("scheduleBytes", VNum scheduleBytes)])))
  with
  | Ok report => (Reply 200 (Json report), fs)
  | Throw e => (Reply 500 (Json (VObj [("error", VStr (String_of_exn e))])), fs)
  end.

End Config.
End DebugFiles.

(** ** Further worlds the properties are run on *)

Module Scenes.
Import JS Fs Storage Http OAuth Mock.

(** An environment that sets the two credentials and nothing else. *)
Definition credentials : Startup.environment :=
  fun name =>
    if (name =? "FB_APP_ID")%string then Some "app-id"
    else if (name =? "FB_APP_SECRET")%string then Some "app-secret"
    else None.

(** A provider that rejects every request, the exchange of the code
    included. *)
Definition rejects_all (c : call) : answer := rejected.

(** Lists two pages that come without a token of their own. *)
Definition bare_pages : list value :=
  [VObj [("id", VStr "1000"); ("name", VStr "Cafe")];
   VObj [("id", VStr "1001"); ("name", VStr "Bakery"); ("access_token", VStr "")]].

Definition tokenless (c : call) : answer :=
  match tokens c with
  | Some a => a
  | None =>
      if (url c =? ME_ACCOUNTS_URL)%string then Resolved (VObj [("data", VArr bare_pages)])
      else rejected
  end.

(** As [one_page], with a name that is an object. *)
Definition odd_name : value := VObj [("toString", VStr "bakery")].

Definition names_oddly (c : call) : answer :=
  match tokens c with
  | Some a => a
  | None =>
      if (url c =? ME_ACCOUNTS_URL)%string then Resolved (VObj [("data", VArr [page1])])
      else if asks c (GRAPH +++ "1001") "instagram_business_account" then
        Resolved (VObj [("instagram_business_account", linked ig_id); ("id", VStr "1001")])
      else if asks c (GRAPH +++ ig_id) "username" then
        Resolved (VObj [("username", odd_name); ("id", VStr ig_id)])
      else rejected
  end.

(** Lists two pages; the account is linked to the second. *)
Definition page0 : value :=
  VObj [("id", VStr "1000"); ("name", VStr "Cafe"); ("access_token", VStr "cafe-token")].

Definition second_page_linked (c : call) : answer :=
  match tokens c with
  | Some a => a
  | None =>
      if (url c =? ME_ACCOUNTS_URL)%string
      then Resolved (VObj [("data", VArr [page0; page1])])
      else if asks c (GRAPH +++ "1000") "instagram_business_account" then
        Resolved (VObj [("id", VStr "1000")])
      else if asks c (GRAPH +++ "1001") "instagram_business_account" then
        Resolved (VObj [("instagram_business_account", linked ig_id); ("id", VStr "1001")])
      else rejected
  end.

(** Answers the first exchange with a short-lived token and the second
    with a long-lived one; the lookups are those of [one_page]. *)
Definition exchanges (c : call) : option answer :=
  if (url c =? TOKEN_URL)%string then
    match field c "grant_type" with
    | VStr _ => Some (Resolved (VObj [("access_token", VStr "long-lived-token")]))
    | _ => Some (Resolved (VObj [("access_token", VStr "short-lived-token");
                                 ("expires_in", VNum 3600)]))
    end
  else None.

Definition linked_page (c : call) : answer :=
  match exchanges c with
  | Some a => a
  | None => one_page true c
  end.

Definition first_config : Part001First.config :=
  Part001First.mkConfig cfg "https://api.example.com/".

(** A record as the second revision of [src/unnamed/part_001] writes it,
    beside one as the other revisions write it, one whose token is a
    number, and one that is no record. *)
Definition mixed_records : props :=
  [("17841400000000001",
    VObj [("accessToken", VStr "old-token");
          ("username", VStr "Instagram-17841400000000001");
          ("buckets", VArr [VStr "recipes"; VStr "offers"])]);
   ("17841400000000002",
    VObj [("accessToken", VNum 12345);
          ("pageId", VStr "1001");
          ("pageName", VStr "Bakery");
          ("igUsername", VStr "bakery.official");
          ("buckets", VArr [])]);
   ("17841400000000003", VStr "")].

Definition mixed_accounts : value := VObj mixed_records.

Definition broken_accounts : value :=
  VObj [("17841400000000001", old_record); ("17841400000000002", VNull)].

Definition post_to (id : string) (buckets : value) : request :=
  json_request (VObj [("accountId", VStr id); ("buckets", buckets)]).

End Scenes.

(** ** What [POST /buckets] leaves in the process

    <<
  accounts[accountId].buckets = buckets || [];
>>
    writes to whatever [accounts[accountId]] has reached.  Under the key
    [__proto__], when the stored document has no key of that spelling,
    this is the prototype of the document: [Object.prototype] for an
    object, [Array.prototype] for an array, and so on.  The prototype
    belongs to the process and not to the request: the property [buckets]
    stays on it until the process ends, and every value that inherits
    from it and has no [buckets] of its own reads it, the body of a later
    request in [const { accountId, buckets } = req.body || {}] and the
    stored document in [accounts[accountId]] included.  [buckets] is the
    only name the server assigns through a lookup of this kind. *)

Module Process.
Import JS Fs Storage Http.

(** The prototype a value inherits from first. *)
Inductive base : Type := OfObject | OfArray | OfString | OfNumber | OfBoolean.

Definition base_eqb (a b : base) : bool :=
  match a, b with
  | OfObject, OfObject | OfArray, OfArray | OfString, OfString
  | OfNumber, OfNumber | OfBoolean, OfBoolean => true
  | _, _ => false
  end.

Definition base_of (v : value) : option base :=
  match v with
  | VObj _ => Some OfObject
  | VArr _ => Some OfArray
  | VStr _ => Some OfString
  | VNum _ => Some OfNumber
  | VBool _ => Some OfBoolean
  | VUndef | VNull | VHost => None
  end.

(** The property [buckets] each prototype has gained since the process
    started. *)
Definition realm : Type := base -> option value.

Definition pristine : realm := fun _ => None.

Definition gain (R : realm) (b : base) (v : value) : realm :=
  fun b' => if base_eqb b' b then Some v else R b'.

(** Where a lookup finds its value. *)
Inductive place : Type :=
| Own                    (* a property or an element of the value itself *)
| Prototype (b : base)   (* the prototype of the value, under [__proto__] *)
| Gained                 (* what a prototype has gained under [buckets] *)
| Builtin                (* a method of a prototype *)
| Nowhere.               (* [undefined] *)

Definition has_own_property (v : value) (k : string) : bool :=
  match v with
  | VObj m => has_own m k
  | VArr l =>
      (k =? "length")%string ||
      match array_index k with
      | Some i => (N.to_nat i <? List.length l)%nat
      | None => false
      end
  | VStr s =>
      (k =? "length")%string ||
      match array_index k with
      | Some i => (N.to_nat i <? String.length s)%nat
      | None => false
      end
  | _ => false
  end.

(** [buckets] along the prototype chain of [v]: its own prototype, then
    [Object.prototype]. *)
Definition gained (R : realm) (v : value) : option value :=
  match base_of v with
  | Some b => match R b with
              | Some p => Some p
              | None => R OfObject
              end
  | None => None
  end.

(** [v[k]] in the process, with the place of what it finds; it throws on
    [null] and [undefined] as [get] does. *)
Definition lookup (R : realm) (v : value) (k : string) : result (value * place) :=
  bind_result (get v k) (fun x =>
    if has_own_property v k then Ok (x, Own)
    else if (k =? "__proto__")%string then
      Ok (x, match base_of v with Some b => Prototype b | None => Builtin end)
    else if (k =? "buckets")%string then
      match gained R v with
      | Some p => Ok (p, Gained)
      | None => Ok (x, Nowhere)
      end
    else Ok (x, if truthy x then Builtin else Nowhere)).

(** A property read off a value that is neither [null] nor [undefined],
    as the destructuring of the body does. *)
Definition read (R : realm) (v : value) (k : string) : value :=
  match lookup R v k with
  | Ok (x, _) => x
  | Throw _ => VUndef
  end.

Section Config.
Variable DATA_DIR : string.

(** <<
app.post('/buckets', (req, res) => {
const { accountId, buckets } = req.body || {};
const accounts = loadJSON(ACCOUNTS_FILE);
if (!accounts[accountId]) return res.status(400).send('Account not found');
accounts[accountId].buckets = buckets || [];
saveJSON(ACCOUNTS_FILE, accounts);
res.json({ status: 'ok' });
});
>>
    The reply, the disk and the process after the request.  The
    assignment shows in [accounts] when the record is its own; it shows
    in the process when the record is a prototype; put on a method, or on
    a gained value that is an array or a primitive, it shows nowhere the
    server looks.  A gained value that is an object is shared by the
    process and by whatever it was assigned to: the assignment into it
    is not followed, and the outcome is [None]. *)
Definition post_buckets (R : realm) (req : request) (fs : FS)
  : option (response * FS * realm) :=
  let b := or_else (body req) (VObj []) in
  let accountId := read R b "accountId" in
  let buckets := read R b "buckets" in
  let accounts := loadJSON fs (ACCOUNTS_FILE DATA_DIR) in
  match bind_result (ToString accountId) (fun key =>
        bind_result (lookup R accounts key) (fun record => Ok (key, record))) with
  | Throw e => Some (Unhandled e, fs, R)
  | Ok (key, (record, found)) =>
      if negb (truthy record) then Some (Reply 400 (Text "Account not found"), fs, R)
      else
        let v := or_else buckets (VArr []) in
        match found with
        | Own =>
            match put record "buckets" v with
            | Throw e => Some (Unhandled e, fs, R)
            | Ok record' =>
                let accounts' := store_back accounts key record' in
                Some (Reply 200 (Json ok_body),
                      saveJSON fs (ACCOUNTS_FILE DATA_DIR) accounts', R)
            end
        | Prototype p =>
            Some (Reply 200 (Json ok_body),
                  saveJSON fs (ACCOUNTS_FILE DATA_DIR) accounts, gain R p v)
        | Gained =>
            match record with
            | VObj _ => None
            | _ => Some (Reply 200 (Json ok_body),
                         saveJSON fs (ACCOUNTS_FILE DATA_DIR) accounts, R)
            end
        | Builtin | Nowhere =>
            Some (Reply 200 (Json ok_body),
                  saveJSON fs (ACCOUNTS_FILE DATA_DIR) accounts, R)
        end
  end.

End Config.

(** The parts of an outcome. *)
Definition reply_of (r : option (response * FS * realm)) : option response :=
  option_map (fun x => fst (fst x)) r.

Definition disk_after (fs : FS) (r : option (response * FS * realm)) : FS :=
  match r with
  | Some (_, fs', _) => fs'
  | None => fs
  end.

Definition realm_after (R : realm) (r : option (response * FS * realm)) : realm :=
  match r with
  | Some (_, _, R') => R'
  | None => R
  end.

End Process.

(** * Properties *)

(** ** Strings *)

Module StringFacts.

Lemma append_assoc (a b c : string) : (a +++ b) +++ c = a +++ (b +++ c).
Proof.
  induction a as [|x a IH]; simpl; [reflexivity|].
  now rewrite IH.
Qed.

Lemma append_nil_r (a : string) : a +++ "" = a.
Proof.
  induction a as [|x a IH]; simpl; [reflexivity|].
  now rewrite IH.
Qed.

Lemma length_append (a b : string) :
  String.length (a +++ b) = String.length a + String.length b.
Proof.
  induction a as [|x a IH]; simpl; [reflexivity|].
  now rewrite IH.
Qed.

End StringFacts.

(** ** Own properties and their order *)

Module JSFacts.
Import JS.

Lemma has_own_true (m : props) (k : string) :
  has_own m k = true <-> exists v, own m k = Some v.
Proof.
  unfold has_own. destruct (own m k) as [v|]; split.
  - intros _. now exists v.
  - reflexivity.
  - discriminate.
  - intros [v H]. discriminate.
Qed.

Lemma has_own_false (m : props) (k : string) :
  has_own m k = false <-> own m k = None.
Proof.
  unfold has_own. destruct (own m k); split; congruence.
Qed.

Lemma own_replace_same (m : props) (k : string) (v : value) :
  has_own m k = true -> own (replace_own m k v) k = Some v.
Proof.
  unfold has_own.
  induction m as [|[k' v'] m IH]; simpl; [discriminate|].
  destruct (String.eqb_spec k' k) as [->|Hne]; simpl.
  - now rewrite String.eqb_refl.
  - intros H. destruct (String.eqb_spec k' k); [contradiction|]. now apply IH.
Qed.

Lemma own_replace_other (m : props) (k k' : string) (v : value) :
  k' <> k -> own (replace_own m k v) k' = own m k'.
Proof.
  intros Hne.
  induction m as [|[k0 v0] m IH]; simpl; [reflexivity|].
  destruct (String.eqb_spec k0 k) as [->|Hk]; simpl.
  - destruct (String.eqb_spec k k'); [congruence|reflexivity].
  - now rewrite IH.
Qed.

Lemma keys_replace (m : props) (k : string) (v : value) :
  map fst (replace_own m k v) = map fst m.
Proof.
  induction m as [|[k0 v0] m IH]; simpl; [reflexivity|].
  destruct (k0 =? k)%string; simpl; [reflexivity|].
  now rewrite IH.
Qed.

Lemma replace_own_same_value (m : props) (k : string) (v : value) :
  own m k = Some v -> replace_own m k v = m.
Proof.
  induction m as [|[k0 v0] m IH]; simpl; [reflexivity|].
  destruct (k0 =? k)%string; intros H.
  - now inversion H.
  - now rewrite IH.
Qed.

Lemma own_insert_same (m : props) (k : string) (v : value) :
  own m k = None -> own (insert_own m k v) k = Some v.
Proof.
  induction m as [|[k0 v0] m IH]; simpl.
  - now rewrite String.eqb_refl.
  - destruct (String.eqb_spec k0 k) as [->|Hk]; [discriminate|].
    intros H. destruct (key_before k0 k); simpl.
    + destruct (String.eqb_spec k0 k); [contradiction|]. now apply IH.
    + now rewrite String.eqb_refl.
Qed.

Lemma own_insert_other (m : props) (k k' : string) (v : value) :
  k' <> k -> own (insert_own m k v) k' = own m k'.
Proof.
  intros Hne.
  induction m as [|[k0 v0] m IH]; simpl.
  - destruct (String.eqb_spec k k'); [congruence|reflexivity].
  - destruct (key_before k0 k); simpl.
    + now rewrite IH.
    + destruct (String.eqb_spec k k'); [congruence|reflexivity].
Qed.

Lemma own_define_same (m : props) (k : string) (v : value) :
  own (define_own m k v) k = Some v.
Proof.
  unfold define_own. destruct (has_own m k) eqn:H.
  - now apply own_replace_same.
  - apply own_insert_same. now apply has_own_false.
Qed.

Lemma own_define_other (m : props) (k k' : string) (v : value) :
  k' <> k -> own (define_own m k v) k' = own m k'.
Proof.
  intros Hne. unfold define_own. destruct (has_own m k).
  - now apply own_replace_other.
  - now apply own_insert_other.
Qed.

(** An array index has one spelling. *)
Lemma array_index_spelling (k : string) (n : N) :
  array_index k = Some n -> k = NilZero.string_of_uint (N.to_uint n).
Proof.
  unfold array_index.
  destruct (NilEmpty.uint_of_string k) as [u|]; [|discriminate].
  destruct (String.eqb_spec (NilZero.string_of_uint (N.to_uint (N.of_uint u))) k) as [E|];
    simpl; [|discriminate].
  destruct (N.of_uint u <? 4294967295)%N; [|discriminate].
  intros H. inversion H; subst. now symmetry.
Qed.

Lemma array_index_inj (k1 k2 : string) (n : N) :
  array_index k1 = Some n -> array_index k2 = Some n -> k1 = k2.
Proof.
  intros H1 H2.
  apply array_index_spelling in H1. apply array_index_spelling in H2. congruence.
Qed.

Lemma key_before_irrefl (k : string) : key_before k k = false.
Proof.
  unfold key_before. destruct (array_index k).
  - apply N.ltb_irrefl.
  - now rewrite String.eqb_refl.
Qed.

Lemma key_before_total (k k' : string) :
  k <> k' -> key_before k' k = false -> key_before k k' = true.
Proof.
  unfold key_before. intros Hne.
  destruct (array_index k) as [a|] eqn:Ea, (array_index k') as [b|] eqn:Eb; try congruence.
  - intros H. apply N.ltb_ge in H. apply N.ltb_lt.
    destruct (N.eq_dec a b) as [->|]; [|lia].
    exfalso. apply Hne. eapply array_index_inj; eauto.
  - intros H. apply negb_false_iff, String.eqb_eq in H. congruence.
Qed.

Lemma key_before_index_trans (k k' k'' : string) (a : N) :
  array_index k = Some a ->
  key_before k k' = true -> key_before k' k'' = true -> key_before k k'' = true.
Proof.
  unfold key_before. intros ->.
  destruct (array_index k') as [b|], (array_index k'') as [c|]; try congruence.
  intros H1 H2. apply N.ltb_lt in H1, H2. apply N.ltb_lt. lia.
Qed.

(** A key that is not an index goes behind every other key. *)
Lemma key_before_plain (k k' : string) :
  array_index k = None -> k' <> k -> key_before k' k = true.
Proof.
  unfold key_before. intros -> Hne.
  destruct (array_index k'); [reflexivity|].
  apply negb_true_iff. now apply String.eqb_neq.
Qed.

Lemma own_none_keys (m : props) (k : string) :
  own m k = None <-> ~ In k (map fst m).
Proof.
  induction m as [|[k0 v0] m IH]; simpl.
  - tauto.
  - destruct (String.eqb_spec k0 k) as [->|Hk].
    + split; [discriminate|]. intros H. exfalso. apply H. now left.
    + rewrite IH. split.
      * intros H [E|I]; [congruence|contradiction].
      * intros H I. apply H. now right.
Qed.

Lemma keys_insert_ok (m : props) (k : string) (v : value) :
  own m k = None ->
  JSON.keys_ok (map fst m) = true ->
  JSON.keys_ok (map fst (insert_own m k v)) = true.
Proof.
  induction m as [|[k0 v0] m IH]; simpl; [reflexivity|].
  destruct (String.eqb_spec k0 k) as [->|Hk]; [discriminate|].
  intros Hown Hok. apply andb_true_iff in Hok as [Hall Hok].
  destruct (key_before k0 k) eqn:Hb; simpl.
  - rewrite (IH Hown Hok), andb_true_r.
    apply forallb_forall. intros x Hx.
    rewrite forallb_forall in Hall.
    assert (Hin : In x (map fst m) \/ x = k).
    { clear - Hx. induction m as [|[k1 v1] m IH]; simpl in *.
      - destruct Hx as [<-|[]]. now right.
      - destruct (key_before k1 k); simpl in Hx.
        + destruct Hx as [<-|Hx]; [left; now left|].
          destruct (IH Hx) as [I| ->]; [left; now right|now right].
        + destruct Hx as [<-|[<-|Hx]]; [now right|left; now left|left; now right]. }
    destruct Hin as [I| ->]; [now apply Hall|exact Hb].
  - assert (Hk0 : key_before k k0 = true) by (apply key_before_total; congruence).
    rewrite Hk0, Hall, Hok. simpl. rewrite andb_true_r.
    destruct (array_index k) as [a|] eqn:Ea.
    + apply forallb_forall. intros x Hx. rewrite forallb_forall in Hall.
      eapply key_before_index_trans; eauto.
    + rewrite key_before_plain in Hb by congruence. discriminate.
Qed.

Lemma keys_define_ok (m : props) (k : string) (v : value) :
  JSON.keys_ok (map fst m) = true ->
  JSON.keys_ok (map fst (define_own m k v)) = true.
Proof.
  intros H. unfold define_own. destruct (has_own m k) eqn:E.
  - now rewrite keys_replace.
  - apply keys_insert_ok; [now apply has_own_false|exact H].
Qed.

Lemma keys_ok_app_l (l1 l2 : list string) :
  JSON.keys_ok (l1 ++ l2) = true -> JSON.keys_ok l1 = true.
Proof.
  induction l1 as [|k l1 IH]; simpl; [reflexivity|].
  intros H. apply andb_true_iff in H as [Hall Hok].
  rewrite forallb_app in Hall. apply andb_true_iff in Hall as [Hall _].
  now rewrite Hall, IH.
Qed.

(** Defining, in their order, the properties of an object whose keys are
    in order gives the same object back. *)
Lemma define_own_last (acc : props) (k : string) (v : value) :
  JSON.keys_ok (map fst (acc ++ [(k, v)])) = true ->
  define_own acc k v = acc ++ [(k, v)].
Proof.
  intros H.
  assert (Hall : forall k', In k' (map fst acc) -> key_before k' k = true).
  { clear - H. induction acc as [|[k0 v0] acc IH]; simpl in *; [tauto|].
    apply andb_true_iff in H as [Hall Hok].
    intros k' [<-|I]; [|now apply IH].
    rewrite map_app, forallb_app in Hall. simpl in Hall.
    apply andb_true_iff in Hall as [_ Hall]. now rewrite andb_true_r in Hall. }
  assert (Hnone : own acc k = None).
  { apply own_none_keys. intros I. apply Hall in I. rewrite key_before_irrefl in I.
    discriminate. }
  unfold define_own. rewrite (proj2 (has_own_false acc k) Hnone).
  clear H Hnone. induction acc as [|[k0 v0] acc IH]; simpl; [reflexivity|].
  rewrite Hall by (now left). rewrite IH; [reflexivity|].
  intros k' I. apply Hall. now right.
Qed.

End JSFacts.

(** ** Writing a document and reading it back *)

Module JSONFacts.
Import JS JSON StringFacts JSFacts.

Lemma render_arr (ind : nat) (x : value) (l : list value) :
  render ind (VArr (x :: l)) =
  "[" +++ render_items ind (x :: l) true +++ nl +++ spaces ind +++ "]".
Proof. reflexivity. Qed.

Lemma render_obj (ind : nat) (m : props) :
  forallb (fun kv => negb (defined (snd kv))) m = false ->
  render ind (VObj m) =
  "{" +++ render_members ind m true +++ nl +++ spaces ind +++ "}".
Proof. intros H. simpl. rewrite H. reflexivity. Qed.

Lemma serializable_arr (l : list value) :
  serializable (VArr l) = forallb serializable l.
Proof. induction l as [|x l IH]; simpl in *; [reflexivity|]. now rewrite IH. Qed.

Lemma serializable_obj (m : props) :
  serializable (VObj m) =
  keys_ok (map fst m) && forallb (fun kv => serializable (snd kv)) m.
Proof.
  simpl. f_equal.
  induction m as [|[k x] m IH]; simpl in *; [reflexivity|]. now rewrite IH.
Qed.

Lemma serializable_defined (v : value) : serializable v = true -> defined v = true.
Proof. destruct v; simpl; congruence. Qed.

(** *** Characters *)

Lemma parse_chars_escape_char (c : ascii) (t : string) :
  parse_chars (escape_char c +++ t) = prepend c (parse_chars t).
Proof.
  destruct c as [[] [] [] [] [] [] [] []]; reflexivity.
Qed.

Lemma parse_chars_escape (s rest : string) :
  parse_chars (escape s +++ String dquote rest) = Some (s, rest).
Proof.
  induction s as [|c s IH]; simpl; [reflexivity|].
  rewrite append_assoc, parse_chars_escape_char, IH. reflexivity.
Qed.

Lemma parse_chars_quote (s rest : string) :
  exists t, quote s +++ rest = String dquote t /\ parse_chars t = Some (s, rest).
Proof.
  exists (escape s +++ String dquote rest). split.
  - unfold quote. simpl. now rewrite append_assoc.
  - apply parse_chars_escape.
Qed.

(** *** Numbers *)

Lemma to_uint_nonnil (n : N) : N.to_uint n <> Nil.
Proof.
  destruct n as [|p]; simpl.
  - discriminate.
  - apply DecimalPos.Unsigned.to_uint_nonnil.
Qed.

Lemma digits_of_nilempty (n : N) :
  digits_of n = NilEmpty.string_of_uint (N.to_uint n).
Proof.
  unfold digits_of, NilZero.string_of_uint.
  pose proof (to_uint_nonnil n) as H.
  destruct (N.to_uint n); [contradiction| reflexivity ..].
Qed.

Lemma span_digits_uint (u : uint) (rest : string) :
  stops rest = true ->
  span_digits (NilEmpty.string_of_uint u +++ rest) = (NilEmpty.string_of_uint u, rest).
Proof.
  intros Hs.
  induction u as [|u IH|u IH|u IH|u IH|u IH|u IH|u IH|u IH|u IH|u IH];
    try (simpl; rewrite IH; reflexivity).
  simpl. destruct rest as [|c r]; [reflexivity|].
  simpl in *. apply andb_true_iff in Hs as [Hd _].
  apply negb_true_iff in Hd. now rewrite Hd.
Qed.

Lemma digits_of_head (n : N) :
  exists c t, digits_of n = String c t /\ is_digit c = true.
Proof.
  rewrite digits_of_nilempty. pose proof (to_uint_nonnil n) as H.
  destruct (N.to_uint n); [contradiction| simpl; eauto ..].
Qed.

Lemma parse_digits_print (n : N) (rest : string) :
  stops rest = true ->
  parse_digits (digits_of n +++ rest) = Some (n, rest).
Proof.
  intros Hs. unfold parse_digits.
  rewrite digits_of_nilempty, (span_digits_uint _ _ Hs), NilEmpty.usu.
  rewrite DecimalN.Unsigned.of_to.
  fold (digits_of n). rewrite digits_of_nilempty, String.eqb_refl.
  destruct rest as [|c r]; [reflexivity|].
  simpl in Hs. apply andb_true_iff in Hs as [_ Hs].
  apply negb_true_iff in Hs. now rewrite Hs.
Qed.

Lemma Z_to_string_cases (n : Z) :
  (n < 0 /\ Z_to_string n = String "-" (digits_of (Z.abs_N n)) /\ n = - Z.of_N (Z.abs_N n))%Z
  \/ (0 <= n /\ Z_to_string n = digits_of (Z.abs_N n) /\ n = Z.of_N (Z.abs_N n))%Z.
Proof.
  unfold Z_to_string. destruct (Z.ltb_spec n 0); [left|right]; repeat split; try lia.
Qed.

Lemma is_digit_dispatch (c : ascii) :
  is_digit c = true ->
  is_ws c = false /\
  (N_of_ascii c =? 123)%N = false /\ (N_of_ascii c =? 91)%N = false /\
  (N_of_ascii c =? 34)%N = false /\ (N_of_ascii c =? 110)%N = false /\
  (N_of_ascii c =? 116)%N = false /\ (N_of_ascii c =? 102)%N = false /\
  (N_of_ascii c =? 45)%N = false /\ (N_of_ascii c =? 93)%N = false.
Proof.
  unfold is_digit, is_ws. intros H. apply andb_true_iff in H as [H1 H2].
  apply N.leb_le in H1, H2.
  repeat split; repeat (apply orb_false_iff; split); apply N.eqb_neq; lia.
Qed.

Lemma parse_number_print (n : Z) (rest : string) :
  safe_integer n = true -> stops rest = true ->
  parse_number (Z_to_string n +++ rest) = Some (VNum n, rest).
Proof.
  intros Hsafe Hs.
  destruct (Z_to_string_cases n) as [(Hn & -> & E)|(Hn & -> & E)].
  - simpl. rewrite (parse_digits_print _ _ Hs), <- E, Hsafe. reflexivity.
  - destruct (digits_of_head (Z.abs_N n)) as (c & t & Ec & Hc).
    pose proof (parse_digits_print (Z.abs_N n) rest Hs) as Hp.
    rewrite Ec in *. simpl.
    destruct (is_digit_dispatch c Hc) as (_ & _ & _ & _ & _ & _ & _ & H45 & _).
    rewrite H45. simpl in Hp. rewrite Hp, <- E, Hsafe. reflexivity.
Qed.

(** *** Documents *)

Lemma size_arr (l : list value) : size (VArr l) = S (size_items l).
Proof. reflexivity. Qed.

Lemma size_obj (m : props) : size (VObj m) = S (size_members m).
Proof. reflexivity. Qed.

Lemma skip_ws_spaces (n : nat) (s : string) : skip_ws (spaces n +++ s) = skip_ws s.
Proof. induction n as [|n IH]; simpl; [reflexivity|exact IH]. Qed.

Lemma skip_ws_break (n : nat) (s : string) :
  skip_ws (nl +++ spaces n +++ s) = skip_ws s.
Proof. simpl. apply skip_ws_spaces. Qed.

Lemma token_start_skip (s : string) : token_start s = true -> skip_ws s = s.
Proof.
  destruct s as [|c r]; simpl; [discriminate|].
  intros H. apply andb_true_iff in H as [H _]. apply negb_true_iff in H. now rewrite H.
Qed.

Lemma render_start (v : value) (ind : nat) (rest : string) :
  token_start (render ind v +++ rest) = true.
Proof.
  destruct v as [| |[]|n|s|[|x l]|m|]; try reflexivity.
  - destruct (Z_to_string_cases n) as [(_ & E & _)|(_ & E & _)]; simpl; rewrite E.
    + reflexivity.
    + destruct (digits_of_head (Z.abs_N n)) as (c & t & Ec & Hc). rewrite Ec. simpl.
      destruct (is_digit_dispatch c Hc) as (Hw & _ & _ & _ & _ & _ & _ & _ & H93).
      now rewrite Hw, H93.
  - simpl. destruct (forallb _ m); reflexivity.
Qed.

Lemma parse_value_S (f : nat) (s : string) :
  parse_value (S f) s =
  match skip_ws s with
  | EmptyString => None
  | String c r =>
      let n := N_of_ascii c in
      if (n =? 123)%N then
        match skip_ws r with
        | String c' r' =>
            if (N_of_ascii c' =? 125)%N then Some (VObj [], r')
            else parse_members f r []
        | EmptyString => None
        end
      else if (n =? 91)%N then
        match skip_ws r with
        | String c' r' =>
            if (N_of_ascii c' =? 93)%N then Some (VArr [], r')
            else match parse_elements f r with
                 | Some (l, r'') => Some (VArr l, r'')
                 | None => None
                 end
        | EmptyString => None
        end
      else if (n =? 34)%N then
        match parse_chars r with
        | Some (str, r') => Some (VStr str, r')
        | None => None
        end
      else if (n =? 110)%N then literal "null" VNull (String c r)
      else if (n =? 116)%N then literal "true" (VBool true) (String c r)
      else if (n =? 102)%N then literal "false" (VBool false) (String c r)
      else parse_number (String c r)
  end.
Proof. reflexivity. Qed.

Lemma parse_elements_S (f : nat) (s : string) :
  parse_elements (S f) s =
  match parse_value f s with
  | Some (v, r) =>
      match skip_ws r with
      | String c r' =>
          if (N_of_ascii c =? 44)%N then
            match parse_elements f r' with
            | Some (vs, r'') => Some (v :: vs, r'')
            | None => None
            end
          else if (N_of_ascii c =? 93)%N then Some ([v], r')
          else None
      | EmptyString => None
      end
  | None => None
  end.
Proof. reflexivity. Qed.

Lemma parse_members_S (f : nat) (s : string) (acc : props) :
  parse_members (S f) s acc =
  match skip_ws s with
  | String c r =>
      if (N_of_ascii c =? 34)%N then
        match parse_chars r with
        | Some (k, r1) =>
            match skip_ws r1 with
            | String c2 r2 =>
                if (N_of_ascii c2 =? 58)%N then
                  match parse_value f r2 with
                  | Some (v, r3) =>
                      let acc' := define_own acc k v in
                      match skip_ws r3 with
                      | String c3 r4 =>
                          if (N_of_ascii c3 =? 44)%N then parse_members f r4 acc'
                          else if (N_of_ascii c3 =? 125)%N then Some (VObj acc', r4)
                          else None
                      | EmptyString => None
                      end
                  | None => None
                  end
                else None
            | EmptyString => None
            end
        | None => None
        end
      else None
  | EmptyString => None
  end.
Proof. reflexivity. Qed.

(** Blanks in front of a value do not count. *)
Lemma parse_value_skip (f : nat) (s s' : string) :
  skip_ws s = skip_ws s' -> parse_value f s = parse_value f s'.
Proof.
  intros H. destruct f as [|f]; [reflexivity|].
  rewrite !parse_value_S, H. reflexivity.
Qed.

Lemma parse_members_skip (f : nat) (s s' : string) (acc : props) :
  skip_ws s = skip_ws s' -> parse_members f s acc = parse_members f s' acc.
Proof.
  intros H. destruct f as [|f]; [reflexivity|].
  rewrite !parse_members_S, H. reflexivity.
Qed.

Lemma render_items_next (ind : nat) (x : value) (l : list value) :
  render_items ind (x :: l) false = "," +++ render_items ind (x :: l) true.
Proof. reflexivity. Qed.

Lemma items_read_back (l : list value) :
  Forall reads_back l -> forallb serializable l = true -> l <> [] ->
  forall (ind : nat) (rest : string) (fuel : nat),
    size_items l <= fuel ->
    parse_elements fuel (render_items ind l true +++ nl +++ spaces ind +++ "]" +++ rest)
    = Some (l, rest).
Proof.
  induction 1 as [|x l Hx Hl IH]; [congruence|].
  intros Hser _ ind rest fuel Hfuel.
  simpl in Hser. apply andb_true_iff in Hser as [Hsx Hsl].
  destruct fuel as [|f]; [simpl in Hfuel; lia|].
  assert (Hfx : size x <= f) by (simpl in Hfuel; lia).
  assert (Hfl : size_items l <= f) by (simpl in Hfuel; lia).
  rewrite parse_elements_S.
  change (render_items ind (x :: l) true)
    with (nl +++ spaces (ind + 2) +++ render (ind + 2) x +++ render_items ind l false).
  rewrite !append_assoc.
  rewrite (parse_value_skip f _ _ (skip_ws_break _ _)).
  destruct l as [|y l'].
  - rewrite (Hx Hsx); [|exact Hfx|reflexivity].
    change (render_items ind [] false) with "".
    cbn [String.append]. rewrite skip_ws_break. reflexivity.
  - rewrite (Hx Hsx); [|exact Hfx|reflexivity].
    rewrite render_items_next. cbn [String.append].
    rewrite (token_start_skip (String "," _)) by reflexivity.
    change (N_of_ascii "," =? 44)%N with true. cbv iota.
    specialize (IH Hsl ltac:(discriminate) ind rest f Hfl).
    cbn [String.append] in IH. rewrite IH. reflexivity.
Qed.

Lemma render_members_next (ind : nat) (k : string) (x : value) (m : props) :
  defined x = true ->
  render_members ind ((k, x) :: m) false = "," +++ render_members ind ((k, x) :: m) true.
Proof. intros H. simpl. rewrite H. reflexivity. Qed.

Lemma render_members_cons (ind : nat) (k : string) (x : value) (m : props) :
  defined x = true ->
  render_members ind ((k, x) :: m) true =
  nl +++ spaces (ind + 2) +++ quote k +++ ": " +++ render (ind + 2) x
  +++ render_members ind m false.
Proof. intros H. simpl. rewrite H. reflexivity. Qed.

Lemma members_read_back (m : props) :
  Forall (fun kv => reads_back (snd kv)) m ->
  forallb (fun kv => serializable (snd kv)) m = true -> m <> [] ->
  forall (acc : props) (ind : nat) (rest : string) (fuel : nat),
    keys_ok (map fst (acc ++ m)) = true ->
    size_members m <= fuel ->
    parse_members fuel
      (render_members ind m true +++ nl +++ spaces ind +++ "}" +++ rest) acc
    = Some (VObj (acc ++ m), rest).
Proof.
  induction 1 as [|[k x] m Hx Hm IH]; [congruence|].
  intros Hser _ acc ind rest fuel Hkeys Hfuel.
  simpl in Hser, Hx. apply andb_true_iff in Hser as [Hsx Hsm].
  destruct fuel as [|f]; [simpl in Hfuel; lia|].
  assert (Hfx : size x <= f) by (simpl in Hfuel; lia).
  assert (Hfm : size_members m <= f) by (simpl in Hfuel; lia).
  assert (Hdef : define_own acc k x = acc ++ [(k, x)]).
  { apply define_own_last.
    replace (acc ++ (k, x) :: m) with ((acc ++ [(k, x)]) ++ m) in Hkeys
      by (now rewrite <- app_assoc).
    rewrite map_app in Hkeys. now apply keys_ok_app_l in Hkeys. }
  rewrite parse_members_S.
  rewrite (render_members_cons _ _ _ _ (serializable_defined _ Hsx)).
  rewrite !append_assoc, skip_ws_break.
  destruct (parse_chars_quote k (": " +++ render (ind + 2) x +++
              render_members ind m false +++ nl +++ spaces ind +++ "}" +++ rest))
    as (t & Et & Ht).
  rewrite Et. rewrite (token_start_skip (String dquote _)) by reflexivity.
  change (N_of_ascii dquote =? 34)%N with true. cbv iota.
  rewrite Ht. cbn [String.append].
  rewrite (token_start_skip (String ":" _)) by reflexivity.
  change (N_of_ascii ":" =? 58)%N with true. cbv iota.
  rewrite (parse_value_skip f (String " " _) (render (ind + 2) x +++
              render_members ind m false +++ nl +++ spaces ind +++ String "}" rest))
    by reflexivity.
  destruct m as [|[k2 y] m'].
  - rewrite (Hx Hsx); [|exact Hfx|reflexivity].
    change (render_members ind [] false) with "".
    cbn [String.append]. rewrite skip_ws_break.
    rewrite Hdef. reflexivity.
  - assert (Hdy : defined y = true).
    { apply serializable_defined. simpl in Hsm. now apply andb_true_iff in Hsm as [? _]. }
    rewrite (render_members_next _ _ _ _ Hdy).
    rewrite (Hx Hsx); [|exact Hfx|reflexivity].
    cbn [String.append].
    rewrite (token_start_skip (String "," _)) by reflexivity.
    change (N_of_ascii "," =? 44)%N with true. cbv iota.
    rewrite Hdef.
    specialize (IH Hsm ltac:(discriminate) (acc ++ [(k, x)]) ind rest f).
    rewrite <- app_assoc in IH. cbn [String.append app] in IH.
    rewrite IH; [reflexivity|exact Hkeys|exact Hfm].
Qed.

Lemma forallb_undefined_cons (k : string) (x : value) (m : props) :
  defined x = true ->
  forallb (fun kv => negb (defined (snd kv))) ((k, x) :: m) = false.
Proof. intros H. simpl. now rewrite H. Qed.

(** Every serializable value reads back as itself. *)
Lemma parse_render (v : value) : reads_back v.
Proof.
  induction v as [| |b|n|s|l IH|m IH|] using value_induction;
    intros Hser ind rest fuel Hfuel Hstop; try discriminate;
    (destruct fuel as [|f]; [simpl in Hfuel; lia|]).
  - reflexivity.
  - destruct b; reflexivity.
  - rewrite parse_value_S.
    pose proof (render_start (VNum n) ind rest) as Hst.
    rewrite (token_start_skip _ Hst).
    pose proof (parse_number_print n rest Hser Hstop) as Hp.
    change (render ind (VNum n)) with (Z_to_string n) in *.
    destruct (Z_to_string_cases n) as [(_ & E & _)|(_ & E & _)]; rewrite E in *.
    + cbn [String.append] in *. exact Hp.
    + destruct (digits_of_head (Z.abs_N n)) as (c & t & Ec & Hc). rewrite Ec in *.
      cbn [String.append] in *.
      destruct (is_digit_dispatch c Hc) as (_ & H1 & H2 & H3 & H4 & H5 & H6 & _ & _).
      cbv zeta. rewrite H1, H2, H3, H4, H5, H6. exact Hp.
  - rewrite parse_value_S.
    destruct (parse_chars_quote s rest) as (t & Et & Ht).
    change (render ind (VStr s)) with (quote s). rewrite Et.
    rewrite (token_start_skip (String dquote _)) by reflexivity.
    change (N_of_ascii dquote) with 34%N. cbv zeta. cbn [N.eqb Pos.eqb].
    rewrite Ht. reflexivity.
  - destruct l as [|x l]; [reflexivity|].
    rewrite serializable_arr in Hser. rewrite size_arr in Hfuel.
    rewrite parse_value_S, render_arr. cbn [String.append].
    rewrite (token_start_skip (String "[" _)) by reflexivity.
    change (N_of_ascii "[") with 91%N. cbv zeta. cbn [N.eqb Pos.eqb].
    change (render_items ind (x :: l) true)
      with (nl +++ spaces (ind + 2) +++ render (ind + 2) x +++ render_items ind l false)
      at 1.
    rewrite !append_assoc, skip_ws_break.
    pose proof (render_start x (ind + 2)
                  (render_items ind l false +++ nl +++ spaces ind +++ "]" +++ rest))
      as Hst.
    rewrite (token_start_skip _ Hst).
    destruct (render (ind + 2) x +++ _) as [|c r] eqn:E in Hst |- *; [discriminate|].
    cbn [token_start] in Hst. apply andb_true_iff in Hst as [_ H93].
    apply negb_true_iff in H93. rewrite H93.
    pose proof (items_read_back (x :: l) IH Hser ltac:(discriminate) ind rest f
                  ltac:(lia)) as Hl.
    rewrite Hl. reflexivity.
  - destruct m as [|[k x] m]; [reflexivity|].
    rewrite serializable_obj in Hser. apply andb_true_iff in Hser as [Hkeys Hser].
    rewrite size_obj in Hfuel.
    assert (Hdx : defined x = true).
    { apply serializable_defined. simpl in Hser. now apply andb_true_iff in Hser as [? _]. }
    rewrite parse_value_S, (render_obj _ _ (forallb_undefined_cons k x m Hdx)).
    cbn [String.append].
    rewrite (token_start_skip (String "{" _)) by reflexivity.
    change (N_of_ascii "{") with 123%N. cbv zeta. cbn [N.eqb Pos.eqb].
    rewrite (render_members_cons _ _ _ _ Hdx) at 1.
    rewrite !append_assoc, skip_ws_break.
    unfold quote at 1. cbn [String.append].
    rewrite (token_start_skip (String dquote _)) by reflexivity.
    change (N_of_ascii dquote) with 34%N. cbn [N.eqb Pos.eqb].
    pose proof (members_read_back ((k, x) :: m) IH Hser ltac:(discriminate) [] ind rest f
                  Hkeys ltac:(lia)) as Hm.
    cbn [String.append app] in Hm. rewrite Hm. reflexivity.
Qed.

Lemma render_nonempty (v : value) (ind : nat) : 1 <= String.length (render ind v).
Proof.
  pose proof (render_start v ind "") as H. rewrite append_nil_r in H.
  destruct (render ind v); [discriminate|simpl; lia].
Qed.

Lemma length_sep (first : bool) (n : nat) : 1 <= String.length (sep first n).
Proof. unfold sep. rewrite !length_append. simpl. lia. Qed.

Lemma size_le_length (v : value) :
  serializable v = true -> forall ind, size v <= String.length (render ind v).
Proof.
  induction v as [| |b|n|s|l IH|m IH|] using value_induction; intros Hser ind;
    try apply render_nonempty.
  - destruct l as [|x l]; [simpl; lia|].
    rewrite serializable_arr in Hser.
    rewrite render_arr, size_arr. cbn [String.append String.length].
    apply le_n_S. rewrite length_append.
    enough (forall first, size_items (x :: l) <= String.length (render_items ind (x :: l) first))
      as H by (specialize (H true); lia).
    revert IH Hser. generalize (x :: l). clear x l. intros l IH.
    induction IH as [|y l' Hy Hl IHl]; intros Hser first; [simpl; lia|].
    simpl in Hser. apply andb_true_iff in Hser as [Hsy Hsl].
    change (render_items ind (y :: l') first)
      with (sep first (ind + 2) +++ render (ind + 2) y +++ render_items ind l' false).
    rewrite !length_append. specialize (Hy Hsy (ind + 2)). specialize (IHl Hsl false).
    pose proof (length_sep first (ind + 2)).
    change (size_items (y :: l')) with (S (size y + size_items l')). lia.
  - destruct m as [|[k x] m]; [simpl; lia|].
    rewrite serializable_obj in Hser. apply andb_true_iff in Hser as [_ Hser].
    assert (Hdx : defined x = true).
    { apply serializable_defined. simpl in Hser. now apply andb_true_iff in Hser as [? _]. }
    rewrite (render_obj _ _ (forallb_undefined_cons k x m Hdx)), size_obj.
    cbn [String.append String.length].
    apply le_n_S. rewrite length_append.
    enough (forall first,
              size_members ((k, x) :: m) <= String.length (render_members ind ((k, x) :: m) first))
      as H by (specialize (H true); lia).
    clear Hdx. revert IH Hser. generalize ((k, x) :: m). clear k x m. intros m IH.
    induction IH as [|[k y] m' Hy Hm IHm]; intros Hser first; [simpl; lia|].
    simpl in Hser, Hy. apply andb_true_iff in Hser as [Hsy Hsm].
    assert (E : render_members ind ((k, y) :: m') first =
                sep first (ind + 2) +++ quote k +++ ": " +++ render (ind + 2) y
                +++ render_members ind m' false).
    { simpl. now rewrite (serializable_defined _ Hsy). }
    rewrite E, !length_append. specialize (Hy Hsy (ind + 2)). specialize (IHm Hsm false).
    pose proof (length_sep first (ind + 2)).
    change (size_members ((k, y) :: m')) with (S (size y + size_members m')). lia.
Qed.

(** [JSON.parse(JSON.stringify(v, null, 2))] is [v] for a serializable
    [v]. *)
Lemma parse_stringify (v : value) (text : string) :
  serializable v = true -> stringify v = Some text -> parse text = Some v.
Proof.
  intros Hser Ht. unfold stringify in Ht.
  rewrite (serializable_defined _ Hser) in Ht. inversion Ht; subst text; clear Ht.
  unfold parse.
  pose proof (parse_render v Hser 0 "" (S (String.length (render 0 v)))) as H.
  rewrite append_nil_r in H. rewrite H; [reflexivity| |reflexivity].
  pose proof (size_le_length v Hser 0). lia.
Qed.

Lemma stringify_serializable (v : value) :
  serializable v = true -> stringify v = Some (render 0 v).
Proof. intros H. unfold stringify. now rewrite (serializable_defined _ H). Qed.

Lemma render_not_empty (v : value) (ind : nat) : render ind v <> "".
Proof.
  pose proof (render_nonempty v ind) as H. intros E. rewrite E in H. simpl in H. lia.
Qed.

(** *** What the reader builds is serializable *)

Lemma forallb_replace (g : value -> bool) (m : props) (k : string) (v : value) :
  forallb (fun kv => g (snd kv)) m = true -> g v = true ->
  forallb (fun kv => g (snd kv)) (replace_own m k v) = true.
Proof.
  intros Hm Hv. induction m as [|[k0 v0] m IH]; simpl in *; [reflexivity|].
  apply andb_true_iff in Hm as [H0 Hm].
  destruct (k0 =? k)%string; simpl.
  - now rewrite Hv, Hm.
  - now rewrite H0, IH.
Qed.

Lemma forallb_insert (g : value -> bool) (m : props) (k : string) (v : value) :
  forallb (fun kv => g (snd kv)) m = true -> g v = true ->
  forallb (fun kv => g (snd kv)) (insert_own m k v) = true.
Proof.
  intros Hm Hv. induction m as [|[k0 v0] m IH]; simpl in *; [now rewrite Hv|].
  apply andb_true_iff in Hm as [H0 Hm].
  destruct (key_before k0 k); simpl.
  - now rewrite H0, IH.
  - now rewrite Hv, H0, Hm.
Qed.

Lemma serializable_define (m : props) (k : string) (v : value) :
  serializable (VObj m) = true -> serializable v = true ->
  serializable (VObj (define_own m k v)) = true.
Proof.
  rewrite !serializable_obj. intros Hm Hv.
  apply andb_true_iff in Hm as [Hk Hm].
  rewrite (keys_define_ok _ _ _ Hk). simpl.
  unfold define_own. destruct (has_own m k).
  - now apply forallb_replace.
  - now apply forallb_insert.
Qed.

Lemma serializable_replace (m : props) (k : string) (v : value) :
  serializable (VObj m) = true -> serializable v = true ->
  serializable (VObj (replace_own m k v)) = true.
Proof.
  rewrite !serializable_obj. intros Hm Hv.
  apply andb_true_iff in Hm as [Hk Hm].
  rewrite keys_replace, Hk. simpl. now apply forallb_replace.
Qed.

Lemma literal_value (w : string) (v0 v : value) (s r : string) :
  literal w v0 s = Some (v, r) -> v = v0.
Proof. unfold literal. destruct (expect w s); congruence. Qed.

Lemma parse_number_safe (s r : string) (v : value) :
  parse_number s = Some (v, r) -> serializable v = true.
Proof.
  unfold parse_number. destruct s as [|c s']; [discriminate|].
  destruct (N_of_ascii c =? 45)%N.
  - destruct (parse_digits s') as [[n r']|]; [|discriminate].
    destruct (safe_integer (- Z.of_N n)) eqn:E; [|discriminate].
    intros H. inversion H; subst. exact E.
  - destruct (parse_digits (String c s')) as [[n r']|]; [|discriminate].
    destruct (safe_integer (Z.of_N n)) eqn:E; [|discriminate].
    intros H. inversion H; subst. exact E.
Qed.

Lemma parse_value_serializable (fuel : nat) :
  (forall s v r, parse_value fuel s = Some (v, r) -> serializable v = true) /\
  (forall s l r, parse_elements fuel s = Some (l, r) -> forallb serializable l = true) /\
  (forall s acc v r, parse_members fuel s acc = Some (v, r) ->
                     serializable (VObj acc) = true -> serializable v = true).
Proof.
  induction fuel as [|f (IHv & IHe & IHm)]; [repeat split; discriminate|].
  repeat split.
  - intros s v r. rewrite parse_value_S.
    destruct (skip_ws s) as [|c t]; [discriminate|]. cbv zeta.
    destruct (N_of_ascii c =? 123)%N.
    { destruct (skip_ws t) as [|c' t']; [discriminate|].
      destruct (N_of_ascii c' =? 125)%N.
      - intros H. inversion H. reflexivity.
      - intros H. now apply IHm in H. }
    destruct (N_of_ascii c =? 91)%N.
    { destruct (skip_ws t) as [|c' t']; [discriminate|].
      destruct (N_of_ascii c' =? 93)%N.
      - intros H. inversion H. reflexivity.
      - destruct (parse_elements f t) as [[l r'']|] eqn:E; [|discriminate].
        intros H. inversion H; subst. rewrite serializable_arr. now apply IHe in E. }
    destruct (N_of_ascii c =? 34)%N.
    { destruct (parse_chars t) as [[str r']|]; [|discriminate].
      intros H. inversion H. reflexivity. }
    destruct (N_of_ascii c =? 110)%N.
    { intros H. apply literal_value in H. now subst. }
    destruct (N_of_ascii c =? 116)%N.
    { intros H. apply literal_value in H. now subst. }
    destruct (N_of_ascii c =? 102)%N.
    { intros H. apply literal_value in H. now subst. }
    apply parse_number_safe.
  - intros s l r. rewrite parse_elements_S.
    destruct (parse_value f s) as [[v r0]|] eqn:Ev; [|discriminate].
    apply IHv in Ev.
    destruct (skip_ws r0) as [|c t]; [discriminate|].
    destruct (N_of_ascii c =? 44)%N.
    + destruct (parse_elements f t) as [[vs r'']|] eqn:Ee; [|discriminate].
      apply IHe in Ee. intros H. inversion H; subst. simpl. now rewrite Ev, Ee.
    + destruct (N_of_ascii c =? 93)%N; [|discriminate].
      intros H. inversion H; subst. simpl. now rewrite Ev.
  - intros s acc v r. rewrite parse_members_S.
    destruct (skip_ws s) as [|c t]; [discriminate|].
    destruct (N_of_ascii c =? 34)%N; [|discriminate].
    destruct (parse_chars t) as [[k r1]|]; [|discriminate].
    destruct (skip_ws r1) as [|c2 r2]; [discriminate|].
    destruct (N_of_ascii c2 =? 58)%N; [|discriminate].
    destruct (parse_value f r2) as [[x r3]|] eqn:Ev; [|discriminate].
    apply IHv in Ev. cbv zeta.
    destruct (skip_ws r3) as [|c3 r4]; [discriminate|].
    intros H Hacc.
    pose proof (serializable_define acc k x Hacc Ev) as Hacc'.
    destruct (N_of_ascii c3 =? 44)%N.
    + now apply IHm in H.
    + destruct (N_of_ascii c3 =? 125)%N; [|discriminate].
      inversion H; subst. exact Hacc'.
Qed.

Lemma parse_serializable (text : string) (v : value) :
  parse text = Some v -> serializable v = true.
Proof.
  unfold parse.
  destruct (parse_value (S (String.length text)) text) as [[v0 r]|] eqn:E; [|discriminate].
  destruct (skip_ws r =? "")%string; [|discriminate].
  intros H. inversion H; subst.
  now apply (proj1 (parse_value_serializable _)) in E.
Qed.

(** *** The fuel of the reader never runs out *)

Lemma skip_ws_length (s : string) : String.length (skip_ws s) <= String.length s.
Proof.
  induction s as [|c s IH]; simpl; [lia|].
  destruct (is_ws c); simpl; lia.
Qed.

Lemma prepend_length (c : ascii) (o : option (string * string)) (x r : string) (n : nat) :
  (forall x' r', o = Some (x', r') -> String.length r' < n) ->
  prepend c o = Some (x, r) -> String.length r < n.
Proof.
  intros H. unfold prepend. destruct o as [[x' r']|]; [|discriminate].
  intros E. inversion E; subst. now apply (H x').
Qed.

Lemma parse_chars_length (s x r : string) :
  parse_chars s = Some (x, r) -> String.length r < String.length s.
Proof.
  revert x r. induction s as [s IH] using (well_founded_induction
    (Wf_nat.well_founded_ltof _ String.length)). unfold Wf_nat.ltof in IH.
  intros x r. destruct s as [|c s1]; simpl; [discriminate|].
  destruct (N_of_ascii c =? 34)%N.
  { intros E. inversion E; subst. lia. }
  destruct (N_of_ascii c =? 92)%N.
  { destruct s1 as [|e s2]; [discriminate|].
    destruct (simple_escape e).
    - apply prepend_length. intros x' r' E. apply IH in E; simpl in *; lia.
    - destruct (N_of_ascii e =? 117)%N; [|discriminate].
      destruct s2 as [|a [|b [|c' [|d s3]]]]; try discriminate.
      destruct (hex4 a b c' d); [|discriminate].
      apply prepend_length. intros x' r' E. apply IH in E; simpl in *; lia. }
  destruct (N_of_ascii c <? 32)%N; [discriminate|].
  apply prepend_length. intros x' r' E. apply IH in E; simpl in *; lia.
Qed.

Lemma expect_length (w s r : string) :
  expect w s = Some r -> String.length s = String.length w + String.length r.
Proof.
  revert s. induction w as [|c w IH]; intros s; simpl.
  - intros E. now inversion E.
  - destruct s as [|c' s']; [discriminate|].
    destruct (c =? c')%char; [|discriminate].
    intros E. apply IH in E. simpl. lia.
Qed.

Lemma literal_length (w : string) (v0 v : value) (s r : string) :
  w <> "" -> literal w v0 s = Some (v, r) -> String.length r < String.length s.
Proof.
  intros Hw. unfold literal. destruct (expect w s) as [r'|] eqn:E; [|discriminate].
  intros H. inversion H; subst. apply expect_length in E.
  destruct w; [contradiction|simpl in E; lia].
Qed.

Lemma span_digits_length (s d r : string) :
  span_digits s = (d, r) -> String.length s = String.length d + String.length r.
Proof.
  revert d r. induction s as [|c s IH]; intros d r; simpl.
  - intros E. now inversion E.
  - destruct (is_digit c).
    + destruct (span_digits s) as [d' r'] eqn:E'. intros E. inversion E; subst.
      specialize (IH _ _ eq_refl). simpl. lia.
    + intros E. inversion E; subst. reflexivity.
Qed.

Lemma parse_digits_length (s r : string) (n : N) :
  parse_digits s = Some (n, r) -> String.length r < String.length s.
Proof.
  unfold parse_digits. destruct (span_digits s) as [d r'] eqn:E.
  apply span_digits_length in E.
  destruct (NilEmpty.uint_of_string d) as [u|]; [|discriminate].
  destruct (String.eqb_spec (NilZero.string_of_uint (N.to_uint (N.of_uint u))) d) as [Ed|];
    [|discriminate].
  assert (Hd : 1 <= String.length d).
  { rewrite <- Ed. fold (digits_of (N.of_uint u)).
    destruct (digits_of_head (N.of_uint u)) as (c & t & -> & _). simpl. lia. }
  destruct r' as [|c t].
  - intros H. inversion H; subst. simpl in *. lia.
  - destruct ((N_of_ascii c =? 46) || (N_of_ascii c =? 101) || (N_of_ascii c =? 69))%N;
      [discriminate|].
    intros H. inversion H; subst. lia.
Qed.

Lemma parse_number_length (s r : string) (v : value) :
  parse_number s = Some (v, r) -> String.length r < String.length s.
Proof.
  unfold parse_number. destruct s as [|c s']; [discriminate|].
  destruct (N_of_ascii c =? 45)%N.
  - destruct (parse_digits s') as [[n r']|] eqn:E; [|discriminate].
    apply parse_digits_length in E.
    destruct (safe_integer (- Z.of_N n)); [|discriminate].
    intros H. inversion H; subst. simpl. lia.
  - destruct (parse_digits (String c s')) as [[n r']|] eqn:E; [|discriminate].
    apply parse_digits_length in E.
    destruct (safe_integer (Z.of_N n)); [|discriminate].
    intros H. inversion H; subst. exact E.
Qed.

(** A value that is read with some fuel is read with any fuel that is at
    least the number of characters it takes. *)
Lemma parse_fuel (n : nat) :
  (forall s v r, parse_value n s = Some (v, r) ->
     String.length r < String.length s /\
     forall m, String.length s - String.length r <= m -> parse_value m s = Some (v, r)) /\
  (forall s l r, parse_elements n s = Some (l, r) ->
     String.length r < String.length s /\
     forall m, String.length s - String.length r <= m -> parse_elements m s = Some (l, r)) /\
  (forall s acc v r, parse_members n s acc = Some (v, r) ->
     String.length r < String.length s /\
     forall m, String.length s - String.length r <= m ->
               parse_members m s acc = Some (v, r)).
Proof.
  induction n as [|f (IHv & IHe & IHm)]; [repeat split; discriminate|].
  split; [|split].
  - intros s v r. rewrite parse_value_S.
    pose proof (skip_ws_length s) as Hs.
    destruct (skip_ws s) as [|c t] eqn:Es; [discriminate|]. cbv zeta. simpl in Hs.
    assert (Hstep : forall m, String.length s - String.length r <= m ->
                              String.length r < String.length s ->
                              exists m', m = S m').
    { intros m Hm Hr. destruct m as [|m']; [lia|eauto]. }
    destruct (N_of_ascii c =? 123)%N eqn:C1.
    { pose proof (skip_ws_length t) as Ht.
      destruct (skip_ws t) as [|c' t'] eqn:Et; [discriminate|]. simpl in Ht.
      destruct (N_of_ascii c' =? 125)%N eqn:C2.
      - intros H. inversion H; subst. split; [lia|].
        intros m Hm. destruct (Hstep m Hm ltac:(lia)) as [m' ->].
        rewrite parse_value_S, Es. cbv zeta. now rewrite C1, Et, C2.
      - intros H. destruct (IHm _ _ _ _ H) as [Hr Hfuel]. split; [lia|].
        intros m Hm. destruct (Hstep m Hm ltac:(lia)) as [m' ->].
        rewrite parse_value_S, Es. cbv zeta. rewrite C1, Et, C2.
        apply Hfuel. lia. }
    destruct (N_of_ascii c =? 91)%N eqn:C2.
    { pose proof (skip_ws_length t) as Ht.
      destruct (skip_ws t) as [|c' t'] eqn:Et; [discriminate|]. simpl in Ht.
      destruct (N_of_ascii c' =? 93)%N eqn:C3.
      - intros H. inversion H; subst. split; [lia|].
        intros m Hm. destruct (Hstep m Hm ltac:(lia)) as [m' ->].
        rewrite parse_value_S, Es. cbv zeta. now rewrite C1, C2, Et, C3.
      - destruct (parse_elements f t) as [[l r'']|] eqn:Ee; [|discriminate].
        intros H. inversion H; subst. destruct (IHe _ _ _ Ee) as [Hr Hfuel]. split; [lia|].
        intros m Hm. destruct (Hstep m Hm ltac:(lia)) as [m' ->].
        rewrite parse_value_S, Es. cbv zeta. rewrite C1, C2, Et, C3.
        rewrite Hfuel; [reflexivity|lia]. }
    destruct (N_of_ascii c =? 34)%N eqn:C3.
    { destruct (parse_chars t) as [[str r']|] eqn:Ec; [|discriminate].
      intros H. inversion H; subst. apply parse_chars_length in Ec as Hr. split; [lia|].
      intros m Hm. destruct (Hstep m Hm ltac:(lia)) as [m' ->].
      rewrite parse_value_S, Es. cbv zeta. now rewrite C1, C2, C3, Ec. }
    assert (Hrest : forall (rest : option (value * string)),
              rest = Some (v, r) ->
              (String.length r < String.length (String c t)) ->
              String.length r < String.length s /\
              forall m, String.length s - String.length r <= m ->
                match m with
                | O => None
                | S _ => rest
                end = Some (v, r)).
    { intros rest E Hr. split; [simpl in Hr; lia|].
      intros m Hm. destruct m; [simpl in Hr; lia|exact E]. }
    destruct (N_of_ascii c =? 110)%N eqn:C4.
    { intros H. apply literal_length in H as Hr; [|discriminate].
      destruct (Hrest _ H Hr) as [Hlt Hfuel]. split; [exact Hlt|].
      intros m Hm. specialize (Hfuel m Hm). destruct m; [discriminate|].
      rewrite parse_value_S, Es. cbv zeta. now rewrite C1, C2, C3, C4. }
    destruct (N_of_ascii c =? 116)%N eqn:C5.
    { intros H. apply literal_length in H as Hr; [|discriminate].
      destruct (Hrest _ H Hr) as [Hlt Hfuel]. split; [exact Hlt|].
      intros m Hm. specialize (Hfuel m Hm). destruct m; [discriminate|].
      rewrite parse_value_S, Es. cbv zeta. now rewrite C1, C2, C3, C4, C5. }
    destruct (N_of_ascii c =? 102)%N eqn:C6.
    { intros H. apply literal_length in H as Hr; [|discriminate].
      destruct (Hrest _ H Hr) as [Hlt Hfuel]. split; [exact Hlt|].
      intros m Hm. specialize (Hfuel m Hm). destruct m; [discriminate|].
      rewrite parse_value_S, Es. cbv zeta. now rewrite C1, C2, C3, C4, C5, C6. }
    intros H. apply parse_number_length in H as Hr.
    destruct (Hrest _ H Hr) as [Hlt Hfuel]. split; [exact Hlt|].
    intros m Hm. specialize (Hfuel m Hm). destruct m; [discriminate|].
    rewrite parse_value_S, Es. cbv zeta. now rewrite C1, C2, C3, C4, C5, C6.
  - intros s l r. rewrite parse_elements_S.
    destruct (parse_value f s) as [[v r0]|] eqn:Ev; [|discriminate].
    destruct (IHv _ _ _ Ev) as [Hr0 Hfv].
    pose proof (skip_ws_length r0) as Hs.
    destruct (skip_ws r0) as [|c r1] eqn:Es; [discriminate|]. simpl in Hs.
    destruct (N_of_ascii c =? 44)%N eqn:C1.
    + destruct (parse_elements f r1) as [[vs r'']|] eqn:Ee; [|discriminate].
      destruct (IHe _ _ _ Ee) as [Hr Hfe].
      intros H. inversion H; subst. split; [lia|].
      intros m Hm. destruct m as [|m']; [lia|].
      rewrite parse_elements_S, Hfv by lia. rewrite Es, C1, Hfe by lia. reflexivity.
    + destruct (N_of_ascii c =? 93)%N eqn:C2; [|discriminate].
      intros H. inversion H; subst. split; [lia|].
      intros m Hm. destruct m as [|m']; [lia|].
      rewrite parse_elements_S, Hfv by lia. now rewrite Es, C1, C2.
  - intros s acc v r. rewrite parse_members_S.
    pose proof (skip_ws_length s) as Hs.
    destruct (skip_ws s) as [|c t] eqn:Es; [discriminate|]. simpl in Hs.
    destruct (N_of_ascii c =? 34)%N eqn:C1; [|discriminate].
    destruct (parse_chars t) as [[k r1]|] eqn:Ec; [|discriminate].
    apply parse_chars_length in Ec as Hr1.
    pose proof (skip_ws_length r1) as Hs1.
    destruct (skip_ws r1) as [|c2 r2] eqn:Es1; [discriminate|]. simpl in Hs1.
    destruct (N_of_ascii c2 =? 58)%N eqn:C2; [|discriminate].
    destruct (parse_value f r2) as [[x r3]|] eqn:Ev; [|discriminate].
    destruct (IHv _ _ _ Ev) as [Hr3 Hfv]. cbv zeta.
    pose proof (skip_ws_length r3) as Hs3.
    destruct (skip_ws r3) as [|c3 r4] eqn:Es3; [discriminate|]. simpl in Hs3.
    destruct (N_of_ascii c3 =? 44)%N eqn:C3.
    + intros H. destruct (IHm _ _ _ _ H) as [Hr Hfm]. split; [lia|].
      intros m Hm. destruct m as [|m']; [lia|].
      rewrite parse_members_S, Es, C1, Ec, Es1, C2, Hfv by lia. cbv zeta.
      rewrite Es3, C3. apply Hfm. lia.
    + destruct (N_of_ascii c3 =? 125)%N eqn:C4; [|discriminate].
      intros H. inversion H; subst. split; [lia|].
      intros m Hm. destruct m as [|m']; [lia|].
      rewrite parse_members_S, Es, C1, Ec, Es1, C2, Hfv by lia. cbv zeta.
      now rewrite Es3, C3, C4.
Qed.

(** [parse] loses no text to its fuel: a text that the reader accepts
    with some fuel is accepted by [parse]. *)
Lemma parse_any_fuel (n : nat) (text : string) (v : value) (r : string) :
  parse_value n text = Some (v, r) -> skip_ws r = "" -> parse text = Some v.
Proof.
  intros H Hr. destruct (proj1 (parse_fuel n) _ _ _ H) as [_ Hfuel].
  unfold parse. rewrite (Hfuel (S (String.length text))) by lia.
  now rewrite Hr.
Qed.

End JSONFacts.

(** ** The JSON store *)

Module StorageFacts.
Import JS JSON Fs Storage StringFacts JSFacts JSONFacts.

Lemma nodes_set_same (fs : FS) (p : string) (n : node) : nodes (set_node fs p n) p = n.
Proof. simpl. now rewrite String.eqb_refl. Qed.

Lemma nodes_set_other (fs : FS) (p q : string) (n : node) :
  q <> p -> nodes (set_node fs p n) q = nodes fs q.
Proof. intros H. simpl. destruct (String.eqb_spec q p); [contradiction|reflexivity]. Qed.

(** What [loadJSON] answers on each state of the file. *)
Lemma loadJSON_absent (fs : FS) (file : string) :
  nodes fs file = Absent -> loadJSON fs file = VObj [].
Proof. intros H. unfold loadJSON, loadJSON_try, existsSync. now rewrite H. Qed.

Lemma loadJSON_dir (fs : FS) (file : string) :
  nodes fs file = Dir -> loadJSON fs file = VObj [].
Proof.
  intros H. unfold loadJSON, loadJSON_try, existsSync, readFileSync. now rewrite H.
Qed.

Lemma loadJSON_file (fs : FS) (file txt : string) :
  nodes fs file = File txt ->
  loadJSON fs file =
  if (txt =? "")%string then VObj []
  else match JSON.parse txt with
       | Some v => v
       | None => VObj []
       end.
Proof.
  intros H. unfold loadJSON, loadJSON_try, existsSync, readFileSync. rewrite H. simpl.
  destruct (txt =? "")%string; simpl; [reflexivity|].
  destruct (JSON.parse txt); reflexivity.
Qed.

Lemma loadJSON_serializable (fs : FS) (file : string) :
  JSON.serializable (loadJSON fs file) = true.
Proof.
  destruct (nodes fs file) as [| |txt] eqn:E.
  - now rewrite loadJSON_absent.
  - now rewrite loadJSON_dir.
  - rewrite (loadJSON_file _ _ _ E).
    destruct (txt =? "")%string; [reflexivity|].
    destruct (JSON.parse txt) as [v|] eqn:P; [|reflexivity].
    now apply parse_serializable in P.
Qed.

Lemma save_succeeds_file (fs : FS) (file : string) (data : value) :
  save_succeeds fs file data = true ->
  exists txt, JSON.stringify data = Some txt /\
              nodes (saveJSON fs file data) file = File txt.
Proof.
  unfold save_succeeds, saveJSON, saveJSON_try.
  destruct (mkdirSync fs (path_dirname file)) as [fs1|e]; [|discriminate].
  destruct (JSON.stringify data) as [txt|]; [|discriminate].
  unfold writeFileSync.
  destruct (nodes fs1 file); try discriminate;
    (destruct (writable fs1 file); [|discriminate]); intros _;
    exists txt; (split; [reflexivity|apply nodes_set_same]).
Qed.

(** C4.  [loadJSON] never throws: what its [try] block throws ends in
    the empty object.  A file that is absent, that cannot be read, that is
    empty or that [JSON.parse] rejects loads as the empty object, and a
    file with a text that parses loads as the parsed document. *)
Theorem loadJSON_default_or_parsed (fs : FS) (file : string) :
  (forall e, loadJSON_try fs file = Throw e -> loadJSON fs file = VObj []) /\
  (existsSync fs file = false -> loadJSON fs file = VObj []) /\
  (nodes fs file = Dir -> loadJSON fs file = VObj []) /\
  (nodes fs file = File "" -> loadJSON fs file = VObj []) /\
  (forall txt, nodes fs file = File txt -> JSON.parse txt = None ->
               loadJSON fs file = VObj []) /\
  (forall txt v, nodes fs file = File txt -> JSON.parse txt = Some v ->
                 loadJSON fs file = v).
Proof.
  repeat split.
  - intros e H. unfold loadJSON. now rewrite H.
  - unfold existsSync. intros H. apply loadJSON_absent.
    destruct (nodes fs file); [reflexivity|discriminate..].
  - apply loadJSON_dir.
  - intros H. now rewrite (loadJSON_file _ _ _ H).
  - intros txt H P. rewrite (loadJSON_file _ _ _ H), P.
    now destruct (txt =? "")%string.
  - intros txt v H P. rewrite (loadJSON_file _ _ _ H), P.
    destruct (String.eqb_spec txt ""); [|reflexivity].
    subst txt. discriminate P.
Qed.

(** What [saveJSON] has written, [loadJSON] reads back. *)
Lemma saved_document_loads (fs : FS) (file : string) (d : value) :
  JSON.serializable d = true ->
  save_succeeds fs file d = true ->
  loadJSON (saveJSON fs file d) file = d.
Proof.
  intros Hser Hok.
  destruct (save_succeeds_file _ _ _ Hok) as (txt & Ht & Hn).
  rewrite (loadJSON_file _ _ _ Hn).
  rewrite (parse_stringify _ _ Hser Ht).
  rewrite (stringify_serializable _ Hser) in Ht. inversion Ht.
  destruct (String.eqb_spec (render 0 d) "") as [E|]; [|reflexivity].
  now apply render_not_empty in E.
Qed.

(** C5.  For every serializable document and every path, when the write
    of [saveJSON] succeeds, [loadJSON] of the same path afterwards gives
    the document back. *)
Theorem saveJSON_loadJSON_roundtrip (fs : FS) (file : string) (d : value) :
  JSON.serializable d = true ->
  save_succeeds fs file d = true ->
  loadJSON (saveJSON fs file d) file = d.
Proof. exact (saved_document_loads fs file d). Qed.

End StorageFacts.

(** ** The JSON routes *)

Module RoutesFacts.
Import JS JSON Fs Storage Http Routes Shape StringFacts JSFacts JSONFacts StorageFacts.

Lemma value_eqb_eq (a : value) : forall b, value_eqb a b = true -> a = b.
Proof.
  induction a as [| |x|x|x|l IH|m IH|] using value_induction;
    intros [| |y|y|y|l2|m2|]; simpl; try discriminate; try reflexivity.
  - intros H. apply Bool.eqb_prop in H. now subst.
  - intros H. apply Z.eqb_eq in H. now subst.
  - intros H. apply String.eqb_eq in H. now subst.
  - intros H. f_equal. revert l2 H.
    induction IH as [|x l Hx Hl IHl]; intros [|y l2]; try discriminate; [reflexivity|].
    intros H. apply andb_true_iff in H as [H1 H2].
    f_equal; [now apply Hx|now apply IHl].
  - intros H. f_equal. revert m2 H.
    induction IH as [|[k x] m Hx Hm IHm]; intros [|[k2 y] m2]; try discriminate;
      [reflexivity|].
    intros H. apply andb_true_iff in H as [H1 H3]. apply andb_true_iff in H1 as [H1 H2].
    apply String.eqb_eq in H1. simpl in Hx. apply Hx in H2. subst.
    f_equal. now apply IHm.
Qed.

(** *** GET /accounts *)

Lemma own_agrees (f1 f2 : props) (g : string) :
  forall2b field_agrees f1 f2 = true -> g <> "accessToken" -> own f1 g = own f2 g.
Proof.
  revert f2. induction f1 as [|[k1 x] f1 IH]; intros [|[k2 y] f2]; simpl;
    try discriminate; [reflexivity|].
  intros H Hg. apply andb_true_iff in H as [H Hrest].
  unfold field_agrees in H. simpl in H. apply andb_true_iff in H as [Hk Hv].
  apply String.eqb_eq in Hk. subst k2.
  destruct (String.eqb_spec k1 g) as [->|Hne].
  - apply orb_true_iff in Hv as [Hv|Hv].
    + apply String.eqb_eq in Hv. contradiction.
    + apply value_eqb_eq in Hv. now subst.
  - now apply IH.
Qed.

Lemma get_agrees (r1 r2 : value) (g : string) :
  record_agrees r1 r2 = true -> g <> "accessToken" -> get r1 g = get r2 g.
Proof.
  intros H Hg.
  assert (E : (exists f1 f2, r1 = VObj f1 /\ r2 = VObj f2 /\
                             forall2b field_agrees f1 f2 = true) \/ r1 = r2).
  { destruct r1, r2; simpl in H; try (right; now apply value_eqb_eq);
      try discriminate. left. eauto. }
  destruct E as [(f1 & f2 & -> & -> & Hf)| ->]; [|reflexivity].
  unfold get, prop. now rewrite (own_agrees _ _ _ Hf Hg).
Qed.

Lemma listing_agrees (m1 m2 : props) :
  forall2b entry_agrees m1 m2 = true -> listing m1 = listing m2.
Proof.
  revert m2. induction m1 as [|[k1 r1] m1 IH]; intros [|[k2 r2] m2]; simpl;
    try discriminate; [reflexivity|].
  intros H. apply andb_true_iff in H as [H Hrest].
  unfold entry_agrees in H. simpl in H. apply andb_true_iff in H as [Hk Hr].
  apply String.eqb_eq in Hk. subst k2.
  rewrite (get_agrees _ _ "username" Hr) by discriminate.
  now rewrite (IH _ Hrest).
Qed.

Lemma get_accounts_reply (dir : string) (fs : FS) :
  get_accounts dir fs = (listing_reply (loadJSON fs (ACCOUNTS_FILE dir)), fs).
Proof.
  unfold get_accounts, listing_reply.
  destruct (bind_result _ listing); reflexivity.
Qed.

Lemma listing_reply_agrees (d1 d2 : value) :
  same_but_tokens d1 d2 = true -> listing_reply d1 = listing_reply d2.
Proof.
  intros H.
  assert (E : (exists m1 m2, d1 = VObj m1 /\ d2 = VObj m2 /\
                             forall2b entry_agrees m1 m2 = true) \/ d1 = d2).
  { destruct d1, d2; simpl in H; try (right; now apply value_eqb_eq);
      try discriminate. left. eauto. }
  destruct E as [(m1 & m2 & -> & -> & Hm)| ->]; [|reflexivity].
  unfold listing_reply. simpl. now rewrite (listing_agrees _ _ Hm).
Qed.

(** *** GET /debug/read-accounts *)

Lemma keys_ok_NoDup (ks : list string) : keys_ok ks = true -> NoDup ks.
Proof.
  induction ks as [|k ks IH]; simpl; [constructor|].
  intros H. apply andb_true_iff in H as [Hall Hok].
  constructor; [|now apply IH].
  intros I. rewrite forallb_forall in Hall. apply Hall in I.
  rewrite key_before_irrefl in I. discriminate.
Qed.

Lemma own_app_skip (done rest : props) (k : string) :
  ~ In k (map fst done) -> own (done ++ rest) k = own rest k.
Proof.
  induction done as [|[k0 v0] done IH]; simpl; [reflexivity|].
  intros H. destruct (String.eqb_spec k0 k) as [->|Hne].
  - exfalso. apply H. now left.
  - apply IH. intros I. apply H. now right.
Qed.

Lemma replace_app_skip (done rest : props) (k : string) (v : value) :
  ~ In k (map fst done) ->
  replace_own (done ++ rest) k v = done ++ replace_own rest k v.
Proof.
  induction done as [|[k0 v0] done IH]; simpl; [reflexivity|].
  intros H. destruct (String.eqb_spec k0 k) as [->|Hne].
  - exfalso. apply H. now left.
  - rewrite IH; [reflexivity|]. intros I. apply H. now right.
Qed.

Lemma mask_record_ok (r : value) :
  record_ok r = true -> Part000.mask_record r = Ok (masked_record r).
Proof.
  destruct r as [| | | | | |f|]; simpl; try discriminate.
  unfold Part000.mask_record, get, prop.
  destruct (own f "accessToken") as [[| | | |t| | |]|] eqn:E; try discriminate; intros _.
  - simpl. destruct (t =? "")%string eqn:Et; simpl; [reflexivity|].
    unfold put, assign, has_own. rewrite E. reflexivity.
  - reflexivity.
Qed.

Lemma mask_tokens_all (todo : props) :
  forall done,
    (forall k, In k (map fst todo) -> ~ In k (map fst done)) ->
    NoDup (map fst todo) ->
    forallb (fun kv => record_ok (snd kv)) todo = true ->
    Part000.mask_tokens (VObj (done ++ todo)) (map fst todo)
    = Ok (VObj (done ++ map masked_entry todo)).
Proof.
  induction todo as [|[k r] todo IH]; intros done Hdis Hnd Hok; simpl.
  - reflexivity.
  - simpl in Hok. apply andb_true_iff in Hok as [Hr Hok].
    inversion Hnd as [|? ? Hk Hnd']; subst.
    assert (Hkd : ~ In k (map fst done)) by (apply Hdis; now left).
    unfold get, prop. rewrite (own_app_skip _ _ _ Hkd). simpl.
    rewrite String.eqb_refl. simpl.
    rewrite (mask_record_ok _ Hr). simpl.
    unfold has_own. rewrite (own_app_skip _ _ _ Hkd). simpl.
    rewrite String.eqb_refl.
    rewrite (replace_app_skip _ _ _ _ Hkd). simpl. rewrite String.eqb_refl.
    specialize (IH (done ++ [(k, masked_record r)])).
    rewrite <- !app_assoc in IH. simpl in IH. apply IH; [|exact Hnd'|exact Hok].
    intros k' I. rewrite map_app, in_app_iff. simpl.
    intros [J|[<-|[]]]; [|contradiction].
    revert J. apply Hdis. now right.
Qed.

Lemma own_map_masked (m : props) (k : string) :
  own (map masked_entry m) k = option_map masked_record (own m k).
Proof.
  induction m as [|[k0 v0] m IH]; simpl; [reflexivity|].
  destruct (k0 =? k)%string; [reflexivity|exact IH].
Qed.

Lemma debug_read_accounts_masks (dir : string) (fs : FS) (m : props) :
  loadJSON fs (ACCOUNTS_FILE dir) = VObj m ->
  accounts_ok (VObj m) = true ->
  Part000.debug_read_accounts dir fs = (Reply 200 (Json (VObj (map masked_entry m))), fs).
Proof.
  intros Hload Hok. unfold Part000.debug_read_accounts. rewrite Hload. simpl.
  pose proof (loadJSON_serializable fs (ACCOUNTS_FILE dir)) as Hser.
  rewrite Hload, serializable_obj in Hser. apply andb_true_iff in Hser as [Hkeys _].
  pose proof (mask_tokens_all m [] (fun k _ (I : In k []) => I)
                (keys_ok_NoDup _ Hkeys) Hok) as Hm.
  simpl in Hm. unfold Object_keys, entries. simpl. rewrite Hm. reflexivity.
Qed.

(** C8.  [GET /accounts] answers the same on two stores that differ only
    in the values of the access tokens, so nothing of a token reaches its
    output; [GET /debug/read-accounts] answers the stored document with
    the token of every record replaced by [***len:N], [N] being the
    length of the token, and every other field as stored.  (A record
    holds a token when its [accessToken] is a string that is not empty;
    the route writes nothing to disk.) *)
Theorem tokens_not_exposed (dir : string) :
  (forall fs1 fs2 : FS,
     same_but_tokens (loadJSON fs1 (ACCOUNTS_FILE dir))
                     (loadJSON fs2 (ACCOUNTS_FILE dir)) = true ->
     fst (Routes.get_accounts dir fs1) = fst (Routes.get_accounts dir fs2)) /\
  (forall (fs : FS) (m : props),
     loadJSON fs (ACCOUNTS_FILE dir) = VObj m ->
     accounts_ok (VObj m) = true ->
     exists m',
       Part000.debug_read_accounts dir fs = (Reply 200 (Json (VObj m')), fs) /\
       map fst m' = map fst m /\
       forall (k : string) (f : props),
         own m k = Some (VObj f) ->
         exists f',
           own m' k = Some (VObj f') /\
           (forall g, g <> "accessToken" -> own f' g = own f g) /\
           (forall t, own f "accessToken" = Some (VStr t) -> t <> "" ->
                      own f' "accessToken" = Some (masked (String.length t)))).
Proof.
  split.
  - intros fs1 fs2 H. rewrite !get_accounts_reply. simpl.
    now apply listing_reply_agrees.
  - intros fs m Hload Hok. exists (map masked_entry m). split; [|split].
    + now apply debug_read_accounts_masks.
    + rewrite map_map. reflexivity.
    + intros k f Hk. rewrite own_map_masked, Hk. simpl.
      destruct (own f "accessToken") as [[| | | |t| | |]|] eqn:E;
        try (exists f; split; [reflexivity|split; [reflexivity|discriminate]]).
      destruct (String.eqb_spec t "") as [->|Hne].
      * exists f. split; [reflexivity|split; [reflexivity|]].
        intros t' Ht' Hn. inversion Ht'; subst. contradiction.
      * exists (replace_own f "accessToken" (masked (String.length t))).
        split; [reflexivity|split].
        -- intros g Hg. now apply own_replace_other.
        -- intros t' Ht' _. inversion Ht'; subst.
           apply own_replace_same. unfold has_own. now rewrite E.
Qed.

(** *** POST /buckets *)

Lemma serializable_own (m : props) (k : string) (v : value) :
  serializable (VObj m) = true -> own m k = Some v -> serializable v = true.
Proof.
  rewrite serializable_obj. intros H. apply andb_true_iff in H as [_ H].
  induction m as [|[k0 v0] m IH]; simpl in *; [discriminate|].
  apply andb_true_iff in H as [H0 H].
  destruct (k0 =? k)%string; [|now apply IH].
  intros E. now inversion E; subst.
Qed.

Lemma put_object (f : props) (k : string) (v : value) :
  k <> "__proto__" -> put (VObj f) k v = Ok (VObj (define_own f k v)).
Proof.
  intros Hk. unfold put, assign, define_own.
  destruct (has_own f k); [reflexivity|].
  destruct (String.eqb_spec k "__proto__"); [contradiction|reflexivity].
Qed.

(** **** The handler and the process *)

Lemma read_other (R : Process.realm) (v : value) (k : string) :
  k <> "buckets" -> Process.read R v k = prop_opt v k.
Proof.
  intros Hk. unfold Process.read, Process.lookup, get, prop_opt.
  destruct (prop v k) as [x|]; simpl; [|reflexivity].
  destruct (Process.has_own_property v k); [reflexivity|].
  destruct (k =? "__proto__")%string; [reflexivity|].
  destruct (String.eqb_spec k "buckets"); [contradiction|reflexivity].
Qed.

Lemma gained_pristine (v : value) : Process.gained Process.pristine v = None.
Proof. unfold Process.gained, Process.pristine. now destruct (Process.base_of v). Qed.

Lemma read_pristine (v : value) (k : string) :
  Process.read Process.pristine v k = prop_opt v k.
Proof.
  unfold Process.read, Process.lookup, get, prop_opt.
  destruct (prop v k) as [x|]; simpl; [|reflexivity].
  destruct (Process.has_own_property v k); [reflexivity|].
  destruct (k =? "__proto__")%string; [reflexivity|].
  destruct (k =? "buckets")%string; [|reflexivity].
  now rewrite gained_pristine.
Qed.

Lemma read_own (R : Process.realm) (m : props) (k : string) (x : value) :
  own m k = Some x -> Process.read R (VObj m) k = x.
Proof.
  intros H. unfold Process.read, Process.lookup, get, prop. simpl.
  unfold has_own. now rewrite H.
Qed.

Lemma inherited_cases (k : string) : inherited k = VHost \/ inherited k = VUndef.
Proof. unfold inherited. destruct (existsb _ _); auto. Qed.

Lemma String_get_overflow (s : string) :
  forall n, (String.length s <= n)%nat -> String.get n s = None.
Proof.
  induction s as [|c s IH]; intros n H; [reflexivity|].
  destruct n as [|n]; simpl in *; [lia|]. apply IH. lia.
Qed.

(** What a lookup finds outside the value itself is a built-in or
    [undefined], and [store_back] leaves the value as it is. *)
Lemma not_own_property (v : value) (k : string) (x r : value) :
  Process.has_own_property v k = false -> prop v k = Some x ->
  (x = VHost \/ x = VUndef) /\ store_back v k r = v.
Proof.
  destruct v as [| |b|n|s|l|m|]; simpl; try discriminate;
    try (intros _ E; inversion E; split; [apply inherited_cases|reflexivity]).
  - intros Hn E. inversion E; subst x; clear E.
    destruct (k =? "length")%string; [discriminate|]. simpl in Hn.
    destruct (array_index k) as [i|]; [|split; [apply inherited_cases|reflexivity]].
    apply Nat.ltb_ge in Hn. unfold char_at. rewrite (String_get_overflow _ _ Hn). auto.
  - intros Hn E. inversion E; subst x; clear E.
    destruct (k =? "length")%string; [discriminate|]. simpl in Hn.
    destruct (array_index k) as [i|]; [|split; [apply inherited_cases|reflexivity]].
    rewrite Hn. apply Nat.ltb_ge in Hn. rewrite nth_overflow by exact Hn. auto.
  - intros Hn E. inversion E; subst x; clear E. rewrite Hn.
    unfold has_own in Hn. destruct (own m k); [discriminate|].
    split; [apply inherited_cases|reflexivity].
Qed.

(** In a process whose prototypes have gained nothing, the first request
    it takes included, the reply and the disk are those of
    [Routes.post_buckets]. *)
Lemma post_buckets_first_request (dir : string) (req : request) (fs : FS) :
  exists R', Process.post_buckets dir Process.pristine req fs
             = Some (post_buckets dir req fs, R').
Proof.
  unfold Process.post_buckets, post_buckets. rewrite !read_pristine.
  destruct (ToString _) as [key|e]; simpl; [|eexists; reflexivity].
  unfold Process.lookup.
  destruct (get (loadJSON fs _) key) as [x|e] eqn:G; simpl; [|eexists; reflexivity].
  destruct (Process.has_own_property _ key) eqn:Ho; simpl.
  - destruct (truthy x); simpl; [|eexists; reflexivity].
    destruct (put x "buckets" _); eexists; reflexivity.
  - assert (Hp : prop (loadJSON fs (ACCOUNTS_FILE dir)) key = Some x).
    { unfold get in G. destruct (prop _ key); inversion G. reflexivity. }
    assert (Hx : forall r, store_back (loadJSON fs (ACCOUNTS_FILE dir)) key r
                           = loadJSON fs (ACCOUNTS_FILE dir))
      by (intros r; exact (proj2 (not_own_property _ _ _ r Ho Hp))).
    destruct (proj1 (not_own_property _ _ _ VUndef Ho Hp)) as [-> | ->].
    + simpl. rewrite Hx.
      destruct (key =? "__proto__")%string;
        [destruct (Process.base_of _); eexists; reflexivity|].
      destruct (key =? "buckets")%string; [|eexists; reflexivity].
      rewrite gained_pristine. eexists; reflexivity.
    + destruct (key =? "__proto__")%string;
        [destruct (Process.base_of _); eexists; reflexivity|].
      destruct (key =? "buckets")%string; [|eexists; reflexivity].
      rewrite gained_pristine. eexists; reflexivity.
Qed.

(** In every process, a request that names a stored record and reads no
    truthy [buckets], own or inherited, is answered [{ status: 'ok' }];
    the document the handler saves is the stored one with the [buckets]
    of that record set to the empty list, every other field of the
    record, every other record and the order of the accounts as they
    were; when the write goes through, that document is what the store
    holds afterwards; and the process is as it was. *)
Lemma post_buckets_clears_where_none_read
    (dir : string) (R : Process.realm) (req : request) (fs : FS)
    (m f : props) (key : string) :
  to_string (prop_opt (or_else (body req) (VObj [])) "accountId") = Some key ->
  truthy (Process.read R (or_else (body req) (VObj [])) "buckets") = false ->
  loadJSON fs (ACCOUNTS_FILE dir) = VObj m ->
  own m key = Some (VObj f) ->
  let f' := define_own f "buckets" (VArr []) in
  let m' := replace_own m key (VObj f') in
  Process.post_buckets dir R req fs
  = Some (Reply 200 (Json ok_body), saveJSON fs (ACCOUNTS_FILE dir) (VObj m'), R) /\
  own m' key = Some (VObj f') /\
  own f' "buckets" = Some (VArr []) /\
  (forall g, g <> "buckets" -> own f' g = own f g) /\
  (forall k, k <> key -> own m' k = own m k) /\
  map fst m' = map fst m /\
  (save_succeeds fs (ACCOUNTS_FILE dir) (VObj m') = true ->
   loadJSON (saveJSON fs (ACCOUNTS_FILE dir) (VObj m')) (ACCOUNTS_FILE dir) = VObj m').
Proof.
  intros Hkey Hb Hload Hown f' m'.
  assert (Hhas : has_own m key = true) by (unfold has_own; now rewrite Hown).
  repeat split.
  - unfold Process.post_buckets, ToString.
    rewrite read_other by discriminate. rewrite Hkey, Hload. simpl.
    unfold Process.lookup, get, prop. rewrite Hown. simpl. rewrite Hhas. simpl.
    unfold or_else at 1. rewrite Hb.
    rewrite put_object by discriminate. simpl. now rewrite Hhas.
  - now apply own_replace_same.
  - apply own_define_same.
  - intros g Hg. now apply own_define_other.
  - intros k Hk. now apply own_replace_other.
  - apply keys_replace.
  - intros Hok. apply saved_document_loads; [|exact Hok].
    pose proof (loadJSON_serializable fs (ACCOUNTS_FILE dir)) as Hser.
    rewrite Hload in Hser.
    apply serializable_replace; [exact Hser|].
    apply serializable_define; [|reflexivity].
    eapply serializable_own; eauto.
Qed.

(** A body without a field [buckets] reads none where [Object.prototype]
    has gained none. *)
Lemma absent_field_reads_none (R : Process.realm) (b : props) :
  own b "buckets" = None -> R Process.OfObject = None ->
  Process.read R (VObj b) "buckets" = VUndef.
Proof.
  intros Hb HR. unfold Process.read, Process.lookup, get, prop. simpl.
  unfold has_own. rewrite Hb. simpl. unfold Process.gained. simpl. now rewrite HR.
Qed.

(** C10 on a run where the code does otherwise.  The store holds one
    account with two buckets.  A first request names [__proto__], which
    is no key of the store, with the list [x]: it is answered
    [{ status: 'ok' }], the store is as it was, and [Object.prototype]
    has gained [buckets].  A
    second request names the stored account and has no field [buckets]:
    it is answered [{ status: 'ok' }], and the account is stored with the
    list [x], not with the empty list.  The same second request as the
    first of a process stores the empty list. *)
Theorem post_buckets_absent_field_takes_gained_list :
  let file := ACCOUNTS_FILE "/tmp" in
  let fs0 := Mock.disk_with Mock.stored_accounts in
  let buckets_in fs := prop_opt (prop_opt (loadJSON fs file) Mock.ig_id) "buckets" in
  let first := Mock.json_request (VObj [("accountId", VStr "__proto__");
                                        ("buckets", VArr [VStr "x"])]) in
  let second := Mock.json_request (VObj [("accountId", VStr Mock.ig_id)]) in
  let r1 := Process.post_buckets "/tmp" Process.pristine first fs0 in
  let fs1 := Process.disk_after fs0 r1 in
  let R1 := Process.realm_after Process.pristine r1 in
  let r2 := Process.post_buckets "/tmp" R1 second fs1 in
  let fs2 := Process.disk_after fs1 r2 in
  let alone := Process.post_buckets "/tmp" Process.pristine second fs0 in
  (Process.reply_of r1 = Some (Reply 200 (Json ok_body)) /\
   loadJSON fs1 file = Mock.stored_accounts /\
   R1 Process.OfObject = Some (VArr [VStr "x"])) /\
  (own [(Mock.ig_id, Mock.old_record)] Mock.ig_id = Some Mock.old_record /\
   own [("accountId", VStr Mock.ig_id)] "buckets" = None /\
   Process.reply_of r2 = Some (Reply 200 (Json ok_body)) /\
   buckets_in fs2 = VArr [VStr "x"] /\
   buckets_in fs2 <> VArr []) /\
  (Process.reply_of alone = Some (Reply 200 (Json ok_body)) /\
   buckets_in (Process.disk_after fs0 alone) = VArr []).
Proof. cbv zeta. repeat split; try (vm_compute; reflexivity). vm_compute. discriminate. Qed.

(** X1.  In a process in which [Object.prototype] has gained no property
    of that name, a [POST /buckets] whose [accountId] is neither a key of
    the stored document nor the name of a property every object inherits
    is answered 400 with [Account not found]; nothing is written, and
    the process is as it was. *)
Theorem post_buckets_unknown_rejected
    (dir : string) (R : Process.realm) (req : request) (fs : FS)
    (m : props) (key : string) :
  to_string (prop_opt (or_else (body req) (VObj [])) "accountId") = Some key ->
  loadJSON fs (ACCOUNTS_FILE dir) = VObj m ->
  own m key = None ->
  existsb (String.eqb key) Object_prototype = false ->
  (key = "buckets" -> R Process.OfObject = None) ->
  Process.post_buckets dir R req fs = Some (Reply 400 (Text "Account not found"), fs, R).
Proof.
  intros Hkey Hload Hown Hproto HR.
  unfold Process.post_buckets, ToString.
  rewrite read_other by discriminate. rewrite Hkey, Hload. simpl.
  unfold Process.lookup, get, prop, inherited. rewrite Hown, Hproto. simpl.
  unfold has_own. rewrite Hown.
  assert (Hp : (key =? "__proto__")%string = false).
  { destruct (String.eqb_spec key "__proto__") as [->|]; [discriminate Hproto|reflexivity]. }
  rewrite Hp.
  destruct (String.eqb_spec key "buckets") as [E|_]; [|reflexivity].
  unfold Process.gained. simpl. now rewrite (HR E).
Qed.

(** C6 at a request the handler lets through: [constructor] is no key of
    the stored document, yet the request is answered [{ status: 'ok' }],
    on a store that holds an account as on an empty one, and the accounts
    file is written (on the empty store it comes into being). *)
Theorem post_buckets_inherited_key_accepted :
  let req := Mock.inherited_key_request in
  let file := ACCOUNTS_FILE "/tmp" in
  let stored := Mock.disk_with Mock.stored_accounts in
  (loadJSON stored file = Mock.stored_accounts /\
   own [(Mock.ig_id, Mock.old_record)] "constructor" = None /\
   fst (post_buckets "/tmp" req stored) = Reply 200 (Json ok_body)) /\
  (loadJSON Mock.empty_disk file = VObj [] /\
   own [] "constructor" = None /\
   fst (post_buckets "/tmp" req Mock.empty_disk) = Reply 200 (Json ok_body) /\
   nodes Mock.empty_disk file = Absent /\
   nodes (snd (post_buckets "/tmp" req Mock.empty_disk)) file = File "{}").
Proof. cbv zeta. repeat split; vm_compute; reflexivity. Qed.

(** *** GET and POST /schedule *)

Lemma post_schedule_list (dir : string) (req : request) (fs : FS) (l : list value) :
  truthy (body req) = true ->
  prop_opt (body req) "schedule" = VArr l ->
  post_schedule dir req fs
  = (Reply 200 (Json ok_body),
     saveJSON fs (SCHEDULE_FILE dir) (VObj [("times", VArr l)])).
Proof.
  intros Hb Hs. unfold post_schedule. rewrite Hb, Hs. reflexivity.
Qed.

(** C7, as the code has it.  A request that posts the list [l2] hands
    [saveJSON] a document that holds [l2] and nothing of what was posted
    before; once its write has gone through, [GET /schedule] answers
    exactly [l2]. *)
Theorem schedule_update_replaces
    (dir : string) (req1 req2 : request) (fs : FS) (l2 : list value) :
  truthy (body req2) = true ->
  prop_opt (body req2) "schedule" = VArr l2 ->
  serializable (VArr l2) = true ->
  let fs1 := snd (post_schedule dir req1 fs) in
  save_succeeds fs1 (SCHEDULE_FILE dir) (VObj [("times", VArr l2)]) = true ->
  let fs2 := snd (post_schedule dir req2 fs1) in
  post_schedule dir req2 fs1
  = (Reply 200 (Json ok_body),
     saveJSON fs1 (SCHEDULE_FILE dir) (VObj [("times", VArr l2)])) /\
  get_schedule dir fs2 = (Reply 200 (Json (VArr l2)), fs2).
Proof.
  intros Hb Hs Hser fs1 Hok fs2.
  unfold fs2. rewrite (post_schedule_list _ _ _ _ Hb Hs). simpl.
  split; [reflexivity|].
  unfold get_schedule.
  rewrite saved_document_loads; [reflexivity| |exact Hok].
  rewrite serializable_obj. simpl. simpl in Hser. now rewrite Hser.
Qed.

(** C7 as stated fails where the writes do not go through: on a volume
    that holds the schedule [07:00] and takes no write, both requests are
    answered [{ status: 'ok' }], and [GET /schedule] still answers
    [07:00]. *)
Lemma schedule_update_lost_on_failed_write :
  let l1 := [VStr "08:00"] in
  let l2 := [VStr "09:00"; VStr "18:00"] in
  let fs0 := Mock.stale_schedule in
  let fs1 := snd (post_schedule "/tmp" (Mock.post_times l1) fs0) in
  let fs2 := snd (post_schedule "/tmp" (Mock.post_times l2) fs1) in
  fst (post_schedule "/tmp" (Mock.post_times l1) fs0) = Reply 200 (Json ok_body) /\
  fst (post_schedule "/tmp" (Mock.post_times l2) fs1) = Reply 200 (Json ok_body) /\
  fst (get_schedule "/tmp" fs2) = Reply 200 (Json (VArr [VStr "07:00"])) /\
  fst (get_schedule "/tmp" fs2) <> Reply 200 (Json (VArr l2)).
Proof. cbv zeta. repeat split; try (vm_compute; reflexivity). vm_compute. discriminate. Qed.

End RoutesFacts.

(** ** The OAuth callback *)

Module OAuthFacts.
Import JS JSON Fs Storage Http OAuth Shape.
Import StringFacts JSFacts JSONFacts StorageFacts RoutesFacts.
Local Open Scope js_scope.

Section Provider.
Variable P : Type.
Variable respond : P -> call -> answer * P.
Variable cfg : config.

Lemma keeps_ret {A : Type} (a : A) : keeps_disk P (ret a).
Proof. intros w r w' H. inversion H. reflexivity. Qed.

Lemma keeps_throw {A : Type} (e : exn) : keeps_disk P (@throw P A e).
Proof. intros w r w' H. inversion H. reflexivity. Qed.

Lemma keeps_lift {A : Type} (x : result A) : keeps_disk P (@lift P A x).
Proof. intros w r w' H. inversion H. reflexivity. Qed.

Lemma keeps_axios (u : string) (ps : list (string * value)) :
  keeps_disk P (axios_get respond u ps).
Proof.
  intros w r w' H. unfold axios_get in H.
  destruct (respond (net w) (mkCall u ps)) as [[d|d msg] p']; inversion H; reflexivity.
Qed.

Lemma keeps_bind {A B : Type} (m : M P A) (k : A -> M P B) :
  keeps_disk P m -> (forall a, keeps_disk P (k a)) -> keeps_disk P (bind m k).
Proof.
  intros Hm Hk w r w' H. unfold bind in H.
  destruct (m w) as [[a|e] w1] eqn:E.
  - apply Hk in H. apply Hm in E. congruence.
  - inversion H; subst. now apply Hm in E.
Qed.

Lemma keeps_try {A : Type} (m : M P A) (h : exn -> M P A) :
  keeps_disk P m -> (forall e, keeps_disk P (h e)) -> keeps_disk P (try_catch m h).
Proof.
  intros Hm Hh w r w' H. unfold try_catch in H.
  destruct (m w) as [[a|e] w1] eqn:E.
  - inversion H; subst. now apply Hm in E.
  - apply Hh in H. apply Hm in E. congruence.
Qed.

Lemma keeps_if {A : Type} (b : bool) (m1 m2 : M P A) :
  keeps_disk P m1 -> keeps_disk P m2 -> keeps_disk P (if b then m1 else m2).
Proof. now destruct b. Qed.

Ltac keeps :=
  repeat first
    [ apply keeps_ret | apply keeps_throw | apply keeps_lift | apply keeps_axios
    | apply keeps_if
    | apply keeps_bind; [|intros ?]
    | apply keeps_try; [|intros ?] ].

Lemma keeps_exchange (code : value) (uri : string) :
  keeps_disk P (exchange P respond cfg code uri).
Proof. unfold exchange. keeps. Qed.

Lemma keeps_page_lookup (p token : value) :
  keeps_disk P (page_lookup P respond p token).
Proof. unfold page_lookup. keeps. Qed.

Lemma keeps_scan_pages (token cur : value) (ps : list value) :
  keeps_disk P (OAuth.scan_pages P respond token cur ps).
Proof.
  induction ps as [|p ps IH]; simpl; [apply keeps_ret|].
  apply keeps_bind; [apply keeps_page_lookup|]. intros id.
  apply keeps_if; [apply keeps_ret|exact IH].
Qed.

(** *** [src/unnamed/part_000]: the three paths *)

Lemma keeps_path1 (token cur : value) : keeps_disk P (Part000.path1 P respond token cur).
Proof.
  unfold Part000.path1. apply keeps_try; [|intros; apply keeps_ret].
  apply keeps_bind; [apply keeps_axios|]. intros d.
  apply keeps_bind; [apply keeps_lift|]. intros ps. apply keeps_scan_pages.
Qed.

Lemma keeps_path2 (token cur : value) : keeps_disk P (Part000.path2 P respond token cur).
Proof. unfold Part000.path2. keeps. Qed.

Lemma keeps_path3 (token cur : value) : keeps_disk P (Part000.path3 P respond token cur).
Proof. unfold Part000.path3. keeps. Qed.

(** A path swallows what it throws. *)
Lemma try_catch_total {A : Type} (m : M P A) (a : A) (w : world P) :
  exists v w', try_catch m (fun _ => ret a) w = (Ok v, w').
Proof.
  unfold try_catch. destruct (m w) as [[v|e] w']; eauto. unfold ret. eauto.
Qed.

Lemma path1_total (token cur : value) (w : world P) :
  exists v w', Part000.path1 P respond token cur w = (Ok v, w').
Proof. apply try_catch_total. Qed.

Lemma path2_total (token cur : value) (w : world P) :
  exists v w', Part000.path2 P respond token cur w = (Ok v, w').
Proof. apply try_catch_total. Qed.

Lemma path3_total (token cur : value) (w : world P) :
  exists v w', Part000.path3 P respond token cur w = (Ok v, w').
Proof. apply try_catch_total. Qed.

(** C1.  The three lookups run in their order, each from the world the
    one before left, and the first that yields an identifier decides:
    when the first two yield none and the third yields one, that one
    is the identifier resolved, and a lookup that succeeds ends the
    resolution in the world it left (nothing more is asked of the
    provider). *)
Theorem resolve_first_success
    (token : value) (w w1 w2 w3 : world P) (ig1 ig2 ig3 : value) :
  Part000.path1 P respond token VNull w = (Ok ig1, w1) ->
  Part000.path2 P respond token ig1 w1 = (Ok ig2, w2) ->
  Part000.path3 P respond token ig2 w2 = (Ok ig3, w3) ->
  (truthy ig1 = true -> Part000.resolve P respond token w = (Ok ig1, w1)) /\
  (truthy ig1 = false -> truthy ig2 = true ->
   Part000.resolve P respond token w = (Ok ig2, w2)) /\
  (truthy ig1 = false -> truthy ig2 = false -> truthy ig3 = true ->
   Part000.resolve P respond token w = (Ok ig3, w3)).
Proof.
  intros H1 H2 H3. unfold Part000.resolve, bind.
  rewrite H1. repeat split.
  - intros T1. rewrite T1. simpl. unfold ret. rewrite T1. simpl. now rewrite T1.
  - intros T1 T2. rewrite T1. simpl. rewrite H2, T2. simpl. unfold ret. now rewrite T2.
  - intros T1 T2 T3. rewrite T1. simpl. rewrite H2, T2. simpl. rewrite H3. now rewrite T3.
Qed.

Lemma resolve_none (token : value) (w w1 w2 w3 : world P) (ig1 ig2 ig3 : value) :
  Part000.path1 P respond token VNull w = (Ok ig1, w1) -> truthy ig1 = false ->
  Part000.path2 P respond token ig1 w1 = (Ok ig2, w2) -> truthy ig2 = false ->
  Part000.path3 P respond token ig2 w2 = (Ok ig3, w3) -> truthy ig3 = false ->
  Part000.resolve P respond token w = (Throw (Error Part000.NO_IG), w3).
Proof.
  intros H1 T1 H2 T2 H3 T3. unfold Part000.resolve, bind.
  rewrite H1, T1. simpl. rewrite H2, T2. simpl. rewrite H3, T3. reflexivity.
Qed.

(** C2.  When the code has been exchanged and none of the three lookups
    yields an identifier, the callback answers status 500 with the
    page of the one error [NO_IG], and the disk is the disk of before:
    the accounts document is as it was. *)
Theorem callback_without_account_writes_nothing
    (req : request) (token : value) (w w0 w1 w2 w3 : world P) (ig1 ig2 ig3 : value) :
  truthy (prop_opt (query req) "code") = true ->
  exchange P respond cfg (prop_opt (query req) "code")
           (buildBaseUrl req +++ "/auth/instagram/callback") w = (Ok token, w0) ->
  Part000.path1 P respond token VNull w0 = (Ok ig1, w1) -> truthy ig1 = false ->
  Part000.path2 P respond token ig1 w1 = (Ok ig2, w2) -> truthy ig2 = false ->
  Part000.path3 P respond token ig2 w2 = (Ok ig3, w3) -> truthy ig3 = false ->
  Part000.callback P respond cfg req w
  = (Ok (Reply 500 (Text ("<pre>OAuth error:" +++ nl +++ Part000.NO_IG +++ "</pre>"))), w3)
  /\ disk w3 = disk w
  /\ loadJSON (disk w3) (ACCOUNTS_FILE (DATA_DIR cfg))
     = loadJSON (disk w) (ACCOUNTS_FILE (DATA_DIR cfg)).
Proof.
  intros Hcode Hex H1 T1 H2 T2 H3 T3.
  assert (Hdisk : disk w3 = disk w).
  { apply keeps_exchange in Hex. apply keeps_path1 in H1.
    apply keeps_path2 in H2. apply keeps_path3 in H3. congruence. }
  split; [|split; [exact Hdisk|now rewrite Hdisk]].
  unfold Part000.callback. rewrite Hcode. simpl.
  unfold try_catch, bind. rewrite Hex.
  rewrite (resolve_none _ _ _ _ _ _ _ _ H1 T1 H2 T2 H3 T3). reflexivity.
Qed.

Lemma keeps_resolve (token : value) : keeps_disk P (Part000.resolve P respond token).
Proof.
  unfold Part000.resolve.
  apply keeps_bind; [apply keeps_path1|]. intros ig1.
  apply keeps_bind; [apply keeps_if; [apply keeps_path2|apply keeps_ret]|]. intros ig2.
  apply keeps_bind; [apply keeps_if; [apply keeps_path3|apply keeps_ret]|]. intros ig3.
  apply keeps_if; [apply keeps_throw|apply keeps_ret].
Qed.

(** X27.  The resolution of [src/unnamed/part_000] throws nothing but the
    one error: whatever the provider answers or rejects along the three
    lookups, a resolution that fails fails with [NO_IG]. *)
Lemma resolve_throws_no_account (token : value) (w w' : world P) (e : exn) :
  Part000.resolve P respond token w = (Throw e, w') -> e = Error Part000.NO_IG.
Proof.
  unfold Part000.resolve, bind.
  destruct (path1_total token VNull w) as (ig1 & w1 & ->).
  assert (H2 : exists ig2 w2,
             (if negb (truthy ig1) then Part000.path2 P respond token ig1 else ret ig1) w1
             = (Ok ig2, w2)).
  { destruct (negb (truthy ig1)); [apply path2_total|unfold ret; eauto]. }
  destruct H2 as (ig2 & w2 & ->).
  assert (H3 : exists ig3 w3,
             (if negb (truthy ig2) then Part000.path3 P respond token ig2 else ret ig2) w2
             = (Ok ig3, w3)).
  { destruct (negb (truthy ig2)); [apply path3_total|unfold ret; eauto]. }
  destruct H3 as (ig3 & w3 & ->).
  destruct (negb (truthy ig3)); unfold throw, ret; intros H; inversion H; reflexivity.
Qed.

(** No partial save: a callback that does not answer the confirmation
    page has left the disk as it was. *)
Lemma callback_error_keeps_disk (req : request) (w w' : world P) (r : result response) :
  Part000.callback P respond cfg req w = (r, w') ->
  r = Ok (Reply 200 (Text connected_page)) \/ disk w' = disk w.
Proof.
  unfold Part000.callback.
  destruct (negb (truthy (prop_opt (query req) "code"))).
  { intros H. inversion H. now right. }
  unfold try_catch, bind.
  destruct (exchange P respond cfg _ _ w) as [[token|e] w0] eqn:Ex;
    apply keeps_exchange in Ex.
  2:{ intros H. inversion H; subst. now right. }
  destruct (Part000.resolve P respond token w0) as [[id|e] w1] eqn:Er;
    apply keeps_resolve in Er.
  2:{ intros H. inversion H; subst. right. congruence. }
  unfold Part000.save_account, ServerJs.save_account, bind, load, lift, save.
  destruct (ToString id) as [name|e]; simpl.
  2:{ intros H. inversion H; subst. right. congruence. }
  destruct (put _ name _) as [acc'|e]; simpl.
  - intros H. inversion H. now left.
  - intros H. inversion H; subst. right. congruence.
Qed.

(** *** The upsert *)

Lemma put_stored (m : props) (key : string) (r : value) :
  has_own m key = true -> put (VObj m) key r = Ok (VObj (replace_own m key r)).
Proof. intros H. unfold put, assign. now rewrite H. Qed.

Lemma ToString_ok (v : value) (s : string) : to_string v = Some s -> ToString v = Ok s.
Proof. intros H. unfold ToString. now rewrite H. Qed.

Lemma get_ok (v x : value) (k : string) : prop v k = Some x -> get v k = Ok x.
Proof. intros H. unfold get. now rewrite H. Qed.

(** C3, as the code has it.  When the identifier resolved has a stored
    record already, the upsert of [src/server.js] and the upsert of the
    second revision of [src/unnamed/part_001] save the stored document
    with that record replaced as a whole by the new one: the new token,
    the display name, the page fields where the revision has them, and
    an empty bucket list, whatever the stored list was.  The other
    records are as they were. *)
Theorem upsert_replaces_record
    (token id page igUsername old : value) (w : world P) (m : props) (key : string) :
  loadJSON (disk w) (ACCOUNTS_FILE (DATA_DIR cfg)) = VObj m ->
  own m key = Some old ->
  to_string id = Some key ->
  page <> VNull -> page <> VUndef ->
  let file := ACCOUNTS_FILE (DATA_DIR cfg) in
  let r1 := VObj [("accessToken", token);
                  ("username", VStr ("Instagram-" +++ key));
                  ("buckets", VArr [])] in
  let r2 := VObj [("accessToken", token);
                  ("pageId", prop_opt page "id");
                  ("pageName", prop_opt page "name");
                  ("igUsername", igUsername);
                  ("buckets", VArr [])] in
  ServerJs.save_account P cfg token id w
  = (Ok tt, mkWorld (saveJSON (disk w) file (VObj (replace_own m key r1))) (net w)) /\
  Part001.save_account P cfg token id page igUsername w
  = (Ok tt, mkWorld (saveJSON (disk w) file (VObj (replace_own m key r2))) (net w)) /\
  (forall r, own (replace_own m key r) key = Some r) /\
  (forall r k, k <> key -> own (replace_own m key r) k = own m k) /\
  prop_opt r1 "buckets" = VArr [] /\ prop_opt r2 "buckets" = VArr [] /\
  (forall r, serializable r = true ->
             save_succeeds (disk w) file (VObj (replace_own m key r)) = true ->
             loadJSON (saveJSON (disk w) file (VObj (replace_own m key r))) file
             = VObj (replace_own m key r)).
Proof.
  intros Hload Hold Hkey Hn Hu file r1 r2.
  assert (Hhas : has_own m key = true) by (unfold has_own; now rewrite Hold).
  split; [|split; [|split; [|split; [|split; [|split]]]]]; try reflexivity.
  - unfold ServerJs.save_account, bind, load, lift, save. rewrite Hload.
    rewrite (ToString_ok _ _ Hkey).
    unfold ServerJs.new_record. fold r1. now rewrite (put_stored _ _ _ Hhas).
  - unfold Part001.save_account, bind, load, lift, save. rewrite Hload.
    rewrite (ToString_ok _ _ Hkey).
    assert (Hid : exists x, get page "id" = Ok x).
    { unfold get. destruct page; try contradiction; simpl; eauto. }
    destruct Hid as [x ->].
    unfold Part001.new_record. fold r2. now rewrite (put_stored _ _ _ Hhas).
  - intros r. now apply own_replace_same.
  - intros r k Hk. now apply own_replace_other.
  - intros r Hr Hok. apply saved_document_loads; [|exact Hok].
    pose proof (loadJSON_serializable (disk w) (ACCOUNTS_FILE (DATA_DIR cfg))) as Hser.
    rewrite Hload in Hser. now apply serializable_replace.
Qed.

(** *** [src/unnamed/part_001]: what a page that was found carries *)

Lemma page_lookup_found (p token id : value) (w w' : world P) :
  page_lookup P respond p token w = (Ok id, w') -> truthy id = true ->
  exists pid seg, prop p "id" = Some pid /\ to_string pid = Some seg.
Proof.
  unfold page_lookup, try_catch, bind, lift, get, ToString.
  destruct (prop p "id") as [pid|]; simpl.
  - destruct (to_string pid) as [seg|] eqn:Es; simpl.
    + intros _ _. eauto.
    + intros H T. inversion H; subst. discriminate.
  - intros H T. inversion H; subst. discriminate.
Qed.

Lemma scan_pages_found (ps : list value) :
  forall (w w' : world P) (id page : value),
    Part001.scan_pages P respond ps w = (Ok (id, page), w') -> truthy id = true ->
    exists tok pid seg,
      prop page "access_token" = Some tok /\ truthy tok = true /\
      prop page "id" = Some pid /\ to_string pid = Some seg.
Proof.
  induction ps as [|p ps IH]; intros w w' id page; simpl.
  - intros H T. inversion H; subst. discriminate.
  - unfold bind, lift, get.
    destruct (prop p "access_token") as [tok|] eqn:Et; [|discriminate].
    destruct (truthy tok) eqn:Tt; simpl.
    + destruct (page_lookup P respond p tok w) as [[x|e] w1] eqn:El; [|discriminate].
      destruct (truthy x) eqn:Tx.
      * intros H T. inversion H; subst.
        destruct (page_lookup_found _ _ _ _ _ El Tx) as (pid & seg & Hp & Hs).
        exists tok, pid, seg. auto.
      * apply IH.
    + apply IH.
Qed.

Lemma keeps_scan_pages_tokens (ps : list value) :
  keeps_disk P (Part001.scan_pages P respond ps).
Proof.
  induction ps as [|p ps IH]; simpl; [apply keeps_ret|].
  apply keeps_bind; [apply keeps_lift|]. intros tok.
  apply keeps_if; [exact IH|].
  apply keeps_bind; [apply keeps_page_lookup|]. intros id.
  apply keeps_if; [apply keeps_ret|exact IH].
Qed.

Lemma keeps_resolve_tokens (token : value) :
  keeps_disk P (Part001.resolve P respond token).
Proof.
  unfold Part001.resolve, Part001.fetch_pages.
  apply keeps_bind; [keeps|]. intros pages.
  apply keeps_if; [apply keeps_throw|].
  apply keeps_bind; [apply keeps_lift|]. intros ps.
  apply keeps_bind; [apply keeps_scan_pages_tokens|]. intros found.
  apply keeps_if; [apply keeps_throw|apply keeps_ret].
Qed.

Lemma resolve_found (token id page : value) (w w' : world P) :
  Part001.resolve P respond token w = (Ok (id, page), w') ->
  truthy id = true /\
  exists tok pid seg,
    prop page "access_token" = Some tok /\ truthy tok = true /\
    prop page "id" = Some pid /\ to_string pid = Some seg.
Proof.
  unfold Part001.resolve, bind.
  destruct (Part001.fetch_pages P respond token w) as [[pages|e] w1]; [|discriminate].
  destruct (negb (truthy (prop_opt pages "length"))); [discriminate|].
  unfold lift. destruct (for_of pages) as [ps|e]; [|discriminate].
  destruct (Part001.scan_pages P respond ps w1) as [[[x pg]|e] w2] eqn:Es; [|discriminate].
  simpl. destruct (truthy x) eqn:Tx; simpl; [|discriminate].
  intros H. inversion H; subst. split; [exact Tx|].
  eapply scan_pages_found; eauto.
Qed.

(** C9.  Once the code is exchanged and an account is found on a page,
    a display-name request that the provider rejects does not stop the
    flow: the callback answers the confirmation page and saves the
    stored document with, under the identifier, the record whose
    [igUsername] is the placeholder [Instagram-<id>]. *)
Theorem callback_username_fallback
    (req : request) (token id page d : value) (msg key pageName : string)
    (m : props) (w w1 w2 : world P) (p3 : P) :
  truthy (prop_opt (query req) "code") = true ->
  exchange P respond cfg (prop_opt (query req) "code")
           (buildBaseUrl req +++ "/auth/instagram/callback") w = (Ok token, w1) ->
  Part001.resolve P respond token w1 = (Ok (id, page), w2) ->
  to_string id = Some key ->
  key <> "__proto__" ->
  to_string (prop_opt page "name") = Some pageName ->
  loadJSON (disk w) (ACCOUNTS_FILE (DATA_DIR cfg)) = VObj m ->
  respond (net w2)
          (mkCall (GRAPH +++ key)
                  [("fields", VStr "username");
                   ("access_token", prop_opt page "access_token")])
  = (Rejected d msg, p3) ->
  let placeholder := VStr ("Instagram-" +++ key) in
  let record := VObj [("accessToken", token);
                      ("pageId", prop_opt page "id");
                      ("pageName", prop_opt page "name");
                      ("igUsername", placeholder);
                      ("buckets", VArr [])] in
  let saved := VObj (define_own m key record) in
  Part001.callback P respond cfg req w
  = (Ok (Reply 200 (Text (Part001.connected_page ("Instagram-" +++ key) pageName))),
     mkWorld (saveJSON (disk w) (ACCOUNTS_FILE (DATA_DIR cfg)) saved) p3) /\
  own (define_own m key record) key = Some record /\
  prop_opt record "igUsername" = placeholder /\
  (forall k, k <> key -> own (define_own m key record) k = own m k) /\
  (serializable record = true ->
   save_succeeds (disk w) (ACCOUNTS_FILE (DATA_DIR cfg)) saved = true ->
   loadJSON (saveJSON (disk w) (ACCOUNTS_FILE (DATA_DIR cfg)) saved)
            (ACCOUNTS_FILE (DATA_DIR cfg)) = saved).
Proof.
  intros Hcode Hex Hres Hkey Hproto Hname Hload Hrej placeholder record saved.
  destruct (resolve_found _ _ _ _ _ Hres) as (Tid & tok & pid & seg & Htok & Ttok & Hpid & Hseg).
  assert (Hd1 : disk w1 = disk w) by (now apply keeps_exchange in Hex).
  assert (Hd2 : disk w2 = disk w1) by (now apply keeps_resolve_tokens in Hres).
  repeat split.
  - unfold Part001.callback. rewrite Hcode. simpl.
    unfold try_catch at 1. unfold bind at 1. rewrite Hex.
    unfold bind at 1. rewrite Hres. simpl.
    unfold Part001.finish, bind at 1, lift at 1.
    rewrite (ToString_ok _ _ Hname).
    unfold bind at 1, lift at 1.
    assert (Epid : prop_opt page "id" = pid) by (unfold prop_opt; now rewrite Hpid).
    assert (Etok : prop_opt page "access_token" = tok) by (unfold prop_opt; now rewrite Htok).
    rewrite Epid, (ToString_ok _ _ Hseg).
    unfold bind at 1.
    assert (Efetch : Part001.fetch_username P respond id page w2
                     = (Ok placeholder, mkWorld (disk w2) p3)).
    { unfold Part001.fetch_username, bind at 1, lift at 1.
      rewrite (ToString_ok _ _ Hkey).
      unfold try_catch, bind at 1, lift at 1. rewrite (get_ok _ _ _ Htok).
      unfold bind, axios_get. rewrite <- Etok, Hrej. reflexivity. }
    rewrite Efetch.
    unfold bind at 1.
    assert (Esave : Part001.save_account P cfg token id page placeholder
                      (mkWorld (disk w2) p3)
                    = (Ok tt, mkWorld (saveJSON (disk w) (ACCOUNTS_FILE (DATA_DIR cfg)) saved) p3)).
    { unfold Part001.save_account, bind, load, lift, save. simpl.
      rewrite Hd2, Hd1, Hload, (ToString_ok _ _ Hkey), (get_ok _ _ _ Hpid).
      unfold Part001.new_record. fold record.
      now rewrite (put_object _ _ _ Hproto). }
    rewrite Esave.
    unfold bind, lift. simpl.
    assert (Epn : exists x, prop page "name" = Some x /\ to_string x = Some pageName).
    { unfold prop_opt in Hname. destruct (prop page "name") as [x|] eqn:E.
      - eauto.
      - destruct page; simpl in E, Htok; discriminate. }
    destruct Epn as (x & Hx & Hsx).
    rewrite (get_ok _ _ _ Hx). simpl. rewrite (ToString_ok _ _ Hsx). reflexivity.
  - apply own_define_same.
  - intros k Hk. now apply own_define_other.
  - intros Hr Hok. apply saved_document_loads; [|exact Hok].
    pose proof (loadJSON_serializable (disk w) (ACCOUNTS_FILE (DATA_DIR cfg))) as Hser.
    rewrite Hload in Hser. now apply serializable_define.
Qed.

End Provider.
End OAuthFacts.

(** ** The properties on concrete runs *)

Module Runs.
Import JS JSON Fs Storage Http OAuth Shape Mock.
Import StorageFacts RoutesFacts OAuthFacts.


(** The provider rejects the first two lookups and answers the third. *)
Lemma resolve_first_success_witness :
  let respond := logged third_only in
  let w := start empty_disk in
  let r1 := Part000.path1 _ respond long_token VNull w in
  let r2 := Part000.path2 _ respond long_token VNull (snd r1) in
  let r3 := Part000.path3 _ respond long_token VNull (snd r2) in
  (fst r1 = Ok VNull /\ fst r2 = Ok VNull /\ fst r3 = Ok (VStr ig_id)) /\
  Part000.resolve _ respond long_token w = (Ok (VStr ig_id), snd r3).
Proof.
  cbv zeta. split; [repeat split|].
  refine (proj2 (proj2 (resolve_first_success _ (logged third_only) long_token
                          (start empty_disk) _ _ _ VNull VNull (VStr ig_id) _ _ _)) _ _ _);
    vm_compute; reflexivity.
Defined.

Lemma callback_without_account_witness :
  let respond := logged no_account in
  let w := start (disk_with stored_accounts) in
  let r := Part000.callback _ respond cfg request_with_code w in
  fst r = Ok (Reply 500 (Text ("<pre>OAuth error:" +++ nl +++ Part000.NO_IG +++ "</pre>"))) /\
  disk (snd r) = disk w /\
  loadJSON (disk (snd r)) accounts_file = stored_accounts.
Proof.
  cbv zeta.
  pose (respond := logged no_account).
  pose (w := start (disk_with stored_accounts)).
  pose (r0 := exchange _ respond cfg (prop_opt (query request_with_code) "code") callback_uri w).
  pose (r1 := Part000.path1 _ respond long_token VNull (snd r0)).
  pose (r2 := Part000.path2 _ respond long_token VNull (snd r1)).
  pose (r3 := Part000.path3 _ respond long_token VNull (snd r2)).
  destruct (callback_without_account_writes_nothing _ respond cfg request_with_code
              long_token w (snd r0) (snd r1) (snd r2) (snd r3) VNull VNull VNull)
    as (Hr & Hd & Hl); try (vm_compute; reflexivity).
  fold w respond. rewrite Hr. cbn [fst snd]. split; [reflexivity|]. split; [exact Hd|].
  rewrite Hd. vm_compute. reflexivity.
Defined.

(** C3 as stated fails: the account is stored with two buckets, the
    callback of either revision succeeds for the same identifier, and the
    record it leaves has no bucket. *)
Lemma upsert_resets_buckets :
  let w := start (disk_with stored_accounts) in
  let buckets_in fs := prop_opt (prop_opt (loadJSON fs accounts_file) ig_id) "buckets" in
  let r1 := ServerJs.callback _ (logged (one_page true)) cfg request_with_code w in
  let r2 := Part001.callback _ (logged (one_page true)) cfg request_with_code w in
  buckets_in (disk w) = VArr [VStr "recipes"; VStr "offers"] /\
  fst r1 = Ok (Reply 200 (Text connected_page)) /\
  buckets_in (disk (snd r1)) = VArr [] /\
  fst r2 = Ok (Reply 200 (Text (Part001.connected_page "bakery.official" "Bakery"))) /\
  buckets_in (disk (snd r2)) = VArr [] /\
  buckets_in (disk (snd r1)) <> buckets_in (disk w) /\
  buckets_in (disk (snd r2)) <> buckets_in (disk w).
Proof.
  cbv zeta. repeat split; try (vm_compute; reflexivity); vm_compute; discriminate.
Qed.

Lemma upsert_replaces_record_witness :
  let w := start (disk_with stored_accounts) in
  let r1 := VObj [("accessToken", long_token);
                  ("username", VStr ("Instagram-" +++ ig_id));
                  ("buckets", VArr [])] in
  let r2 := VObj [("accessToken", long_token);
                  ("pageId", VStr "1001");
                  ("pageName", VStr "Bakery");
                  ("igUsername", VStr "bakery.official");
                  ("buckets", VArr [])] in
  (loadJSON (disk w) accounts_file = stored_accounts /\
   own [(ig_id, old_record)] ig_id = Some old_record) /\
  ServerJs.save_account _ cfg long_token (VStr ig_id) w
  = (Ok tt, mkWorld (saveJSON (disk w) accounts_file (VObj [(ig_id, r1)])) (net w)) /\
  Part001.save_account _ cfg long_token (VStr ig_id) page1 (VStr "bakery.official") w
  = (Ok tt, mkWorld (saveJSON (disk w) accounts_file (VObj [(ig_id, r2)])) (net w)).
Proof.
  cbv zeta. split; [split; vm_compute; reflexivity|].
  destruct (upsert_replaces_record (list call) cfg long_token (VStr ig_id) page1
              (VStr "bakery.official") old_record (start (disk_with stored_accounts))
              [(ig_id, old_record)] ig_id)
    as (H1 & H2 & _); try (vm_compute; reflexivity); try discriminate.
  split; [exact H1|exact H2].
Defined.

Lemma loadJSON_default_or_parsed_witness :
  loadJSON empty_disk accounts_file = VObj [] /\
  loadJSON (with_file empty_disk accounts_file "") accounts_file = VObj [] /\
  loadJSON (with_file empty_disk accounts_file "{ not json") accounts_file = VObj [] /\
  loadJSON (with_file empty_disk accounts_file "[1, true, null]") accounts_file
  = VArr [VNum 1; VBool true; VNull].
Proof.
  destruct (loadJSON_default_or_parsed empty_disk accounts_file) as (_ & Habsent & _).
  destruct (loadJSON_default_or_parsed (with_file empty_disk accounts_file "") accounts_file)
    as (_ & _ & _ & Hempty & _).
  destruct (loadJSON_default_or_parsed (with_file empty_disk accounts_file "{ not json")
              accounts_file) as (_ & _ & _ & _ & Hbad & _).
  destruct (loadJSON_default_or_parsed (with_file empty_disk accounts_file "[1, true, null]")
              accounts_file) as (_ & _ & _ & _ & _ & Hgood).
  split; [|split; [|split]].
  - apply Habsent. reflexivity.
  - apply Hempty. reflexivity.
  - apply (Hbad "{ not json"); reflexivity.
  - apply (Hgood "[1, true, null]"); reflexivity.
Defined.

Lemma saveJSON_loadJSON_roundtrip_witness :
  (serializable stored_accounts = true /\
   save_succeeds empty_disk accounts_file stored_accounts = true) /\
  loadJSON (saveJSON empty_disk accounts_file stored_accounts) accounts_file
  = stored_accounts.
Proof.
  split; [split; vm_compute; reflexivity|].
  apply saveJSON_loadJSON_roundtrip; vm_compute; reflexivity.
Defined.


Lemma schedule_update_replaces_witness :
  let l1 := [VStr "08:00"] in
  let l2 := [VStr "09:00"; VStr "18:00"] in
  let fs1 := snd (Routes.post_schedule "/tmp" (post_times l1) empty_disk) in
  let fs2 := snd (Routes.post_schedule "/tmp" (post_times l2) fs1) in
  save_succeeds fs1 (SCHEDULE_FILE "/tmp") (VObj [("times", VArr l2)]) = true /\
  Routes.get_schedule "/tmp" fs2 = (Reply 200 (Json (VArr l2)), fs2).
Proof.
  cbv zeta. split; [vm_compute; reflexivity|].
  refine (proj2 (schedule_update_replaces "/tmp" (post_times [VStr "08:00"])
                   (post_times [VStr "09:00"; VStr "18:00"]) empty_disk
                   [VStr "09:00"; VStr "18:00"] _ _ _ _));
    vm_compute; reflexivity.
Defined.


Lemma tokens_not_exposed_witness :
  let fs1 := disk_with stored_accounts in
  let fs2 := disk_with other_tokens in
  (same_but_tokens (loadJSON fs1 accounts_file) (loadJSON fs2 accounts_file) = true /\
   loadJSON fs1 accounts_file <> loadJSON fs2 accounts_file) /\
  fst (Routes.get_accounts "/tmp" fs1) = fst (Routes.get_accounts "/tmp" fs2) /\
  fst (Part000.debug_read_accounts "/tmp" fs1)
  = Reply 200 (Json (VObj [(ig_id,
      VObj [("accessToken", VStr "***len:9");
            ("username", VStr "Instagram-17841400000000001");
            ("buckets", VArr [VStr "recipes"; VStr "offers"])])])).
Proof.
  cbv zeta. split; [split; [vm_compute; reflexivity|vm_compute; discriminate]|].
  destruct (tokens_not_exposed "/tmp") as [Hlist Hmask]. split.
  - apply Hlist. vm_compute. reflexivity.
  - destruct (Hmask (disk_with stored_accounts) [(ig_id, old_record)]) as (m' & Hr & _);
      [vm_compute; reflexivity|vm_compute; reflexivity|].
    vm_compute. reflexivity.
Defined.

Lemma callback_username_fallback_witness :
  let respond := logged (one_page false) in
  let w := start (disk_with stored_accounts) in
  let r := Part001.callback _ respond cfg request_with_code w in
  fst r = Ok (Reply 200 (Text (Part001.connected_page ("Instagram-" +++ ig_id) "Bakery"))) /\
  prop_opt (prop_opt (loadJSON (disk (snd r)) accounts_file) ig_id) "igUsername"
  = VStr ("Instagram-" +++ ig_id).
Proof.
  cbv zeta.
  pose (respond := logged (one_page false)).
  pose (w := start (disk_with stored_accounts)).
  pose (r0 := exchange _ respond cfg (prop_opt (query request_with_code) "code") callback_uri w).
  pose (r1 := Part001.resolve _ respond long_token (snd r0)).
  pose (a := respond (net (snd r1))
               (mkCall (GRAPH +++ ig_id)
                  [("fields", VStr "username"); ("access_token", VStr "page-token")])).
  destruct (callback_username_fallback _ respond cfg request_with_code long_token
              (VStr ig_id) page1
              (VObj [("error", VObj [("message", VStr "Unsupported get request")])])
              "Request failed with status code 400" ig_id "Bakery"
              [(ig_id, old_record)] w (snd r0) (snd r1) (snd a))
    as (Hr & _); try (vm_compute; reflexivity); try discriminate.
  fold w respond. rewrite Hr. cbn [fst snd disk]. split; [reflexivity|].
  vm_compute. reflexivity.
Defined.

End Runs.

(** ** The two documents side by side, and the start of the server *)

Module StoreFrame.
Import JS JSON Fs Storage Http Routes StringFacts JSFacts JSONFacts StorageFacts.

Lemma dirname_aux_join (d n : string) :
  has_slash n = false -> path_dirname_aux (d +++ "/" +++ n) = d.
Proof.
  intros Hn. induction d as [|c d IH]; simpl.
  - now rewrite Hn.
  - assert (H : has_slash (d +++ String "/" n) = true).
    { clear IH. induction d as [|c' d IH]; simpl; [reflexivity|].
      rewrite IH. apply orb_true_r. }
    simpl in IH. now rewrite H, IH.
Qed.

Lemma has_slash_join (d n : string) : has_slash (path_join d n) = true.
Proof.
  unfold path_join. induction d as [|c d IH]; simpl; [reflexivity|].
  simpl in IH. rewrite IH. apply orb_true_r.
Qed.

Lemma dirname_join (d n : string) :
  has_slash n = false ->
  path_dirname (path_join d n) = if (d =? "")%string then "/" else d.
Proof.
  intros Hn. unfold path_dirname. rewrite has_slash_join.
  unfold path_join. rewrite (dirname_aux_join d n Hn).
  destruct d; reflexivity.
Qed.

Lemma join_longer (d n : string) : String.length d < String.length (path_join d n).
Proof. unfold path_join. rewrite !length_append. simpl. lia. Qed.

Lemma dirname_not_sibling (d n n' : string) :
  has_slash n = false -> n' <> "" -> path_dirname (path_join d n) <> path_join d n'.
Proof.
  intros Hn Hne E. rewrite (dirname_join d n Hn) in E.
  pose proof (join_longer d n') as L.
  destruct d as [|c d]; simpl in E.
  - unfold path_join in E. simpl in E. inversion E. destruct n'; [contradiction|discriminate].
  - rewrite <- E in L. simpl in L. lia.
Qed.

Lemma append_inj_l (d a b : string) : d +++ a = d +++ b -> a = b.
Proof. induction d; simpl; intros H; [exact H|]. inversion H. auto. Qed.

Lemma files_differ (d : string) : ACCOUNTS_FILE d <> SCHEDULE_FILE d.
Proof.
  unfold ACCOUNTS_FILE, SCHEDULE_FILE, path_join. intros E.
  apply append_inj_l in E. discriminate.
Qed.

Lemma accounts_dirname (d : string) :
  path_dirname (ACCOUNTS_FILE d) <> ACCOUNTS_FILE d /\
  path_dirname (ACCOUNTS_FILE d) <> SCHEDULE_FILE d.
Proof. split; apply dirname_not_sibling; (reflexivity || discriminate). Qed.

Lemma schedule_dirname (d : string) :
  path_dirname (SCHEDULE_FILE d) <> SCHEDULE_FILE d /\
  path_dirname (SCHEDULE_FILE d) <> ACCOUNTS_FILE d.
Proof. split; apply dirname_not_sibling; (reflexivity || discriminate). Qed.

(** What [saveJSON] leaves alone. *)
Lemma mkdirSync_nodes (fs fs1 : FS) (p q : string) :
  mkdirSync fs p = Ok fs1 -> q <> p -> nodes fs1 q = nodes fs q.
Proof.
  unfold mkdirSync. destruct (nodes fs p).
  - destruct (writable fs p); [|discriminate]. intros H Hq. inversion H; subst.
    now apply nodes_set_other.
  - intros H _. now inversion H.
  - discriminate.
Qed.

Lemma writeFileSync_nodes (fs fs1 : FS) (p q txt : string) :
  writeFileSync fs p txt = Ok fs1 -> q <> p -> nodes fs1 q = nodes fs q.
Proof.
  unfold writeFileSync.
  destruct (nodes fs p); try discriminate;
    (destruct (writable fs p); [|discriminate]); intros H Hq; inversion H; subst;
    now apply nodes_set_other.
Qed.

Lemma saveJSON_other (fs : FS) (file q : string) (d : value) :
  q <> file -> q <> path_dirname file -> nodes (saveJSON fs file d) q = nodes fs q.
Proof.
  intros Hf Hd. unfold saveJSON, saveJSON_try.
  destruct (mkdirSync fs (path_dirname file)) as [fs1|e] eqn:Em; [|reflexivity].
  pose proof (mkdirSync_nodes _ _ _ q Em Hd) as H1.
  destruct (JSON.stringify d) as [txt|]; [|exact H1].
  destruct (writeFileSync fs1 file txt) as [fs2|e] eqn:Ew; [|exact H1].
  simpl. now rewrite (writeFileSync_nodes _ _ _ q _ Ew Hf).
Qed.

Lemma saveJSON_failed (fs : FS) (file : string) (d : value) :
  path_dirname file <> file -> save_succeeds fs file d = false ->
  nodes (saveJSON fs file d) file = nodes fs file.
Proof.
  intros Hd. unfold save_succeeds, saveJSON, saveJSON_try.
  destruct (mkdirSync fs (path_dirname file)) as [fs1|e] eqn:Em; [|reflexivity].
  assert (H1 : nodes fs1 file = nodes fs file).
  { apply (mkdirSync_nodes _ _ _ _ Em). congruence. }
  destruct (JSON.stringify d) as [txt|]; [|intros _; exact H1].
  destruct (writeFileSync fs1 file txt) as [fs2|e] eqn:Ew; [discriminate|].
  intros _. exact H1.
Qed.

Lemma loadJSON_nodes (fs fs' : FS) (file : string) :
  nodes fs' file = nodes fs file -> loadJSON fs' file = loadJSON fs file.
Proof.
  intros H. unfold loadJSON, loadJSON_try, existsSync, readFileSync. now rewrite H.
Qed.

Lemma existsSync_nodes (fs fs' : FS) (file : string) :
  nodes fs' file = nodes fs file -> existsSync fs' file = existsSync fs file.
Proof. intros H. unfold existsSync. now rewrite H. Qed.

Lemma save_accounts_keeps_schedule (dir : string) (fs : FS) (d : value) :
  nodes (saveJSON fs (ACCOUNTS_FILE dir) d) (SCHEDULE_FILE dir) = nodes fs (SCHEDULE_FILE dir).
Proof.
  apply saveJSON_other.
  - intros E. symmetry in E. now apply files_differ in E.
  - intros E. symmetry in E. revert E. apply accounts_dirname.
Qed.

Lemma save_schedule_keeps_accounts (dir : string) (fs : FS) (d : value) :
  nodes (saveJSON fs (SCHEDULE_FILE dir) d) (ACCOUNTS_FILE dir) = nodes fs (ACCOUNTS_FILE dir).
Proof.
  apply saveJSON_other.
  - apply files_differ.
  - intros E. symmetry in E. revert E. apply schedule_dirname.
Qed.

(** The replies of the reading routes depend on the disk through the
    document they load. *)
Lemma get_schedule_nodes (dir : string) (fs fs' : FS) :
  nodes fs' (SCHEDULE_FILE dir) = nodes fs (SCHEDULE_FILE dir) ->
  fst (get_schedule dir fs') = fst (get_schedule dir fs).
Proof.
  intros H. unfold get_schedule. rewrite (loadJSON_nodes _ _ _ H).
  destruct (get _ "times"); reflexivity.
Qed.

Lemma get_buckets_nodes (dir : string) (fs fs' : FS) :
  nodes fs' (ACCOUNTS_FILE dir) = nodes fs (ACCOUNTS_FILE dir) ->
  fst (get_buckets dir fs') = fst (get_buckets dir fs).
Proof. intros H. unfold get_buckets. now rewrite (loadJSON_nodes _ _ _ H). Qed.

Lemma get_accounts_nodes (dir : string) (fs fs' : FS) :
  nodes fs' (ACCOUNTS_FILE dir) = nodes fs (ACCOUNTS_FILE dir) ->
  fst (get_accounts dir fs') = fst (get_accounts dir fs).
Proof.
  intros H. unfold get_accounts. rewrite (loadJSON_nodes _ _ _ H).
  destruct (bind_result _ listing); reflexivity.
Qed.

Lemma post_buckets_disk (dir : string) (req : request) (fs : FS) :
  snd (post_buckets dir req fs) = fs \/
  exists d, snd (post_buckets dir req fs) = saveJSON fs (ACCOUNTS_FILE dir) d.
Proof.
  unfold post_buckets.
  destruct (bind_result _ _) as [[key record]|e]; [|now left].
  destruct (negb (truthy record)); [now left|].
  destruct (put record "buckets" _) as [record'|e]; [|now left].
  right. eexists. reflexivity.
Qed.

(** X2.  The accounts document and the schedule document do not
    interfere: whatever a [POST /buckets] does, [GET /schedule] answers
    as before it, and whatever a [POST /schedule] does, [GET /buckets] and
    [GET /accounts] answer as before it. *)
Theorem documents_do_not_interfere (dir : string) (req : request) (fs : FS) :
  fst (get_schedule dir (snd (post_buckets dir req fs))) = fst (get_schedule dir fs) /\
  fst (get_buckets dir (snd (post_schedule dir req fs))) = fst (get_buckets dir fs) /\
  fst (get_accounts dir (snd (post_schedule dir req fs))) = fst (get_accounts dir fs).
Proof.
  split; [|split].
  - apply get_schedule_nodes.
    destruct (post_buckets_disk dir req fs) as [->|[d ->]]; [reflexivity|].
    apply save_accounts_keeps_schedule.
  - apply get_buckets_nodes. apply save_schedule_keeps_accounts.
  - apply get_accounts_nodes. apply save_schedule_keeps_accounts.
Qed.

(** X3.  What [loadJSON] returns can be saved back without loss: when
    the write goes through, the document loaded after the save is the
    document loaded before it, whatever text the file held. *)
Theorem loaded_document_survives_resave (fs : FS) (file : string) :
  save_succeeds fs file (loadJSON fs file) = true ->
  loadJSON (saveJSON fs file (loadJSON fs file)) file = loadJSON fs file.
Proof.
  intros Hok. apply saved_document_loads; [|exact Hok].
  apply loadJSON_serializable.
Qed.

End StoreFrame.

Module StartupFacts.
Import JS JSON Fs Storage Http Routes OAuth Startup Notions.
Import StringFacts JSFacts JSONFacts StorageFacts StoreFrame.

Lemma truthy_getenv (env : environment) (name : string) :
  truthy (getenv env name) = is_set env name.
Proof. unfold getenv, is_set. destruct (env name); reflexivity. Qed.

Lemma text_of_getenv (env : environment) (name : string) :
  is_set env name = true -> env name = Some (text_of (getenv env name)).
Proof. unfold getenv, is_set. destruct (env name); [reflexivity|discriminate]. Qed.


(** [ensure_files] creates what is missing and nothing else. *)
Lemma ensure_accounts (dir : string) (fs : FS) :
  loadJSON (ensure_files dir fs) (ACCOUNTS_FILE dir) = loadJSON fs (ACCOUNTS_FILE dir).
Proof.
  unfold ensure_files.
  set (fs1 := if negb (existsSync fs (ACCOUNTS_FILE dir)) then _ else fs).
  assert (H1 : loadJSON fs1 (ACCOUNTS_FILE dir) = loadJSON fs (ACCOUNTS_FILE dir)).
  { unfold fs1, existsSync.
    destruct (nodes fs (ACCOUNTS_FILE dir)) eqn:En; simpl; try reflexivity.
    rewrite (loadJSON_absent fs _ En).
    destruct (save_succeeds fs (ACCOUNTS_FILE dir) (VObj [])) eqn:Es.
    - now apply saved_document_loads.
    - apply loadJSON_absent. rewrite saveJSON_failed; [exact En| |exact Es].
      apply accounts_dirname. }
  rewrite <- H1.
  destruct (negb (existsSync fs1 (SCHEDULE_FILE dir))); [|reflexivity].
  apply loadJSON_nodes, save_schedule_keeps_accounts.
Qed.

Lemma ensure_schedule (dir : string) (fs : FS) :
  fst (get_schedule dir (ensure_files dir fs)) = fst (get_schedule dir fs).
Proof.
  unfold ensure_files.
  set (fs1 := if negb (existsSync fs (ACCOUNTS_FILE dir)) then _ else fs).
  assert (H1 : nodes fs1 (SCHEDULE_FILE dir) = nodes fs (SCHEDULE_FILE dir)).
  { unfold fs1. destruct (negb (existsSync fs (ACCOUNTS_FILE dir))); [|reflexivity].
    apply save_accounts_keeps_schedule. }
  rewrite <- (get_schedule_nodes dir fs fs1 H1).
  unfold existsSync.
  destruct (nodes fs1 (SCHEDULE_FILE dir)) eqn:En; simpl; try reflexivity.
  unfold get_schedule. rewrite (loadJSON_absent fs1 _ En).
  destruct (save_succeeds fs1 (SCHEDULE_FILE dir) (VObj [("times", VArr [])])) eqn:Es.
  - rewrite saved_document_loads; [reflexivity|reflexivity|exact Es].
  - rewrite (loadJSON_absent (saveJSON _ _ _)); [reflexivity|].
    rewrite saveJSON_failed; [exact En| |exact Es]. apply schedule_dirname.
Qed.

Lemma ensure_keeps_what_exists (dir : string) (fs : FS) (p : string) :
  existsSync fs p = true -> nodes (ensure_files dir fs) p = nodes fs p.
Proof.
  assert (K : forall fs0 file d, existsSync fs0 file = false ->
              existsSync fs0 p = true -> nodes (saveJSON fs0 file d) p = nodes fs0 p).
  { intros fs0 file d Hf Hp.
    assert (Hne : p <> file) by (intros ->; congruence).
    unfold saveJSON, saveJSON_try, mkdirSync.
    destruct (nodes fs0 (path_dirname file)) eqn:Ed; try reflexivity.
    - destruct (writable fs0 (path_dirname file)); [|reflexivity].
      assert (Hnd : p <> path_dirname file).
      { intros ->. unfold existsSync in Hp. rewrite Ed in Hp. discriminate. }
      destruct (JSON.stringify d) as [txt|]; simpl; [|now apply nodes_set_other].
      destruct (writeFileSync _ file txt) as [fs2|e] eqn:Ew; simpl.
      + rewrite (writeFileSync_nodes _ _ _ p _ Ew Hne). now apply nodes_set_other.
      + now apply nodes_set_other.
    - destruct (JSON.stringify d) as [txt|]; simpl; [|reflexivity].
      destruct (writeFileSync fs0 file txt) as [fs2|e] eqn:Ew; simpl; [|reflexivity].
      apply (writeFileSync_nodes _ _ _ p _ Ew Hne). }
  intros Hp. unfold ensure_files.
  set (fs1 := if negb (existsSync fs (ACCOUNTS_FILE dir)) then _ else fs).
  assert (H1 : nodes fs1 p = nodes fs p).
  { unfold fs1. destruct (existsSync fs (ACCOUNTS_FILE dir)) eqn:Ea; simpl; [reflexivity|].
    now apply K. }
  destruct (existsSync fs1 (SCHEDULE_FILE dir)) eqn:Es; simpl; [exact H1|].
  rewrite K; [exact H1|exact Es|]. unfold existsSync. rewrite H1. exact Hp.
Qed.

(** X5.  Starting the server again loses nothing: the start creates
    the documents that are missing, leaves every path that exists as it
    is, and [GET /buckets], [GET /accounts] and [GET /schedule] answer
    after the start what they would have answered before it, whether or
    not the writes of the start went through. *)
Theorem restart_keeps_documents (env : environment) (fs fs' : FS) (s : settings) :
  startup env fs = (Listening s, fs') ->
  let dir := DATA_DIR (app s) in
  fst (get_buckets dir fs') = fst (get_buckets dir fs) /\
  fst (get_accounts dir fs') = fst (get_accounts dir fs) /\
  fst (get_schedule dir fs') = fst (get_schedule dir fs) /\
  (forall p, existsSync fs p = true -> nodes fs' p = nodes fs p).
Proof.
  unfold startup.
  destruct (requireEnv "FB_APP_ID" _); [discriminate|].
  destruct (requireEnv "FB_APP_SECRET" _); [discriminate|].
  intros H. inversion H; subst. simpl.
  split; [|split; [|split]].
  - unfold get_buckets. simpl. now rewrite ensure_accounts.
  - unfold get_accounts. rewrite ensure_accounts.
    destruct (bind_result _ listing); reflexivity.
  - apply ensure_schedule.
  - intros p. apply ensure_keeps_what_exists.
Qed.

End StartupFacts.

(** ** More on the JSON routes *)

Module RoutesMore.
Import JS JSON Fs Storage Http Routes Shape Notions.
Import StringFacts JSFacts JSONFacts StorageFacts RoutesFacts StoreFrame.

(** *** POST /buckets *)

(** X6.  A request that names a stored record and carries a list of
    buckets (any JSON value that is not falsy: the handler does not look
    at its shape) is answered [{ status: 'ok' }]; the document saved is
    the stored one with the [buckets] of that record replaced by what was
    posted and nothing else changed, and once the write has gone through
    [GET /buckets] answers that document. *)
Theorem post_buckets_stores_what_is_posted
    (dir : string) (req : request) (fs : FS) (m f : props) (key : string) :
  to_string (posted_account req) = Some key ->
  truthy (posted_buckets req) = true ->
  serializable (posted_buckets req) = true ->
  loadJSON fs (ACCOUNTS_FILE dir) = VObj m ->
  own m key = Some (VObj f) ->
  let f' := define_own f "buckets" (posted_buckets req) in
  let m' := replace_own m key (VObj f') in
  let fs' := saveJSON fs (ACCOUNTS_FILE dir) (VObj m') in
  post_buckets dir req fs = (Reply 200 (Json ok_body), fs') /\
  own m' key = Some (VObj f') /\
  own f' "buckets" = Some (posted_buckets req) /\
  (forall g, g <> "buckets" -> own f' g = own f g) /\
  (forall k, k <> key -> own m' k = own m k) /\
  map fst m' = map fst m /\
  (save_succeeds fs (ACCOUNTS_FILE dir) (VObj m') = true ->
   get_buckets dir fs' = (Reply 200 (Json (VObj m')), fs')).
Proof.
  intros Hkey Hb Hsb Hload Hown f' m' fs'.
  unfold posted_account in Hkey. unfold posted_buckets in Hb.
  assert (Hhas : has_own m key = true) by (unfold has_own; now rewrite Hown).
  split; [|split; [|split; [|split; [|split; [|split]]]]].
  - unfold post_buckets, ToString. rewrite Hkey, Hload. simpl.
    unfold get, prop. rewrite Hown. simpl.
    unfold or_else at 1. rewrite Hb.
    rewrite put_object by discriminate. simpl. now rewrite Hhas.
  - now apply own_replace_same.
  - apply own_define_same.
  - intros g Hg. now apply own_define_other.
  - intros k Hk. now apply own_replace_other.
  - apply keys_replace.
  - intros Hok. unfold get_buckets, fs'. rewrite saved_document_loads; [reflexivity| |exact Hok].
    pose proof (loadJSON_serializable fs (ACCOUNTS_FILE dir)) as Hser.
    rewrite Hload in Hser.
    apply serializable_replace; [exact Hser|].
    apply serializable_define; [|exact Hsb].
    eapply serializable_own; eauto.
Qed.

(** *** GET and POST /schedule *)

(** *** GET and POST /schedule *)

Lemma times_of_document (d : value) :
  serializable d = true -> d <> VNull ->
  exists x, get d "times" = Ok x /\ (truthy x = true -> serializable x = true).
Proof.
  intros Hd Hn.
  destruct d as [| |b|n|s|l|m|]; try discriminate; try contradiction;
    try (exists VUndef; split; [reflexivity|discriminate]).
  unfold get, prop. destruct (own m "times") as [x|] eqn:E.
  - exists x. split; [reflexivity|]. intros _. eapply serializable_own; eauto.
  - exists VUndef. split; [reflexivity|discriminate].
Qed.

(** X7.  [GET /schedule] answers with status 200 and a JSON value that
    is never falsy (the stored [times], or the empty list in its place),
    on every disk but one: when the schedule file holds the JSON text
    [null], reading [.times] throws and the request fails.  The disk is
    never changed. *)
Theorem get_schedule_answers_unless_null (dir : string) (fs : FS) :
  (loadJSON fs (SCHEDULE_FILE dir) <> VNull ->
   exists v, get_schedule dir fs = (Reply 200 (Json v), fs) /\
             truthy v = true /\ serializable v = true) /\
  (loadJSON fs (SCHEDULE_FILE dir) = VNull ->
   exists msg, get_schedule dir fs = (Unhandled (TypeError msg), fs)) /\
  (nodes fs (SCHEDULE_FILE dir) = File "null" -> loadJSON fs (SCHEDULE_FILE dir) = VNull).
Proof.
  split; [|split].
  - intros Hn.
    destruct (times_of_document _ (loadJSON_serializable fs (SCHEDULE_FILE dir)) Hn)
      as (x & Hx & Hs).
    unfold get_schedule. rewrite Hx. unfold or_else.
    destruct (truthy x) eqn:T; eexists; (split; [reflexivity|]); auto.
  - intros Hn. unfold get_schedule. rewrite Hn. simpl. eauto.
  - intros Hf. now rewrite (loadJSON_file _ _ _ Hf).
Qed.

(** X8.  [POST /schedule] stores whatever is posted as [schedule] when
    it is not falsy (the handler does not look at its shape), and the
    empty list when the request has no body, no [schedule], or a falsy
    one; the reply is [{ status: 'ok' }] in every case, and once the
    write has gone through [GET /schedule] answers what was stored. *)
Theorem post_schedule_stores_what_is_posted (dir : string) (req : request) (fs : FS) :
  let fs' := saveJSON fs (SCHEDULE_FILE dir) (VObj [("times", posted_times req)]) in
  post_schedule dir req fs = (Reply 200 (Json ok_body), fs') /\
  (truthy (body req) = false -> posted_times req = VArr []) /\
  (truthy (prop_opt (body req) "schedule") = false -> posted_times req = VArr []) /\
  (truthy (body req) = true -> truthy (prop_opt (body req) "schedule") = true ->
   posted_times req = prop_opt (body req) "schedule") /\
  (serializable (posted_times req) = true ->
   save_succeeds fs (SCHEDULE_FILE dir) (VObj [("times", posted_times req)]) = true ->
   get_schedule dir fs' = (Reply 200 (Json (posted_times req)), fs')).
Proof.
  intros fs'. split; [reflexivity|].
  assert (T : truthy (posted_times req) = true).
  { unfold posted_times, or_else.
    destruct (truthy (if truthy (body req) then _ else _)) eqn:E; [exact E|reflexivity]. }
  split; [|split; [|split]].
  - intros Hb. unfold posted_times. rewrite Hb. unfold or_else. now rewrite Hb.
  - intros Hs. unfold posted_times, or_else.
    destruct (truthy (body req)) eqn:Hb; [now rewrite Hs|now rewrite Hb].
  - intros Hb Hs. unfold posted_times, or_else. now rewrite Hb, Hs.
  - intros Hser Hok. unfold get_schedule, fs'.
    rewrite saved_document_loads; [|rewrite serializable_obj; simpl; now rewrite Hser|exact Hok].
    unfold get, prop. simpl. unfold or_else. now rewrite T.
Qed.

(** *** GET /accounts *)

Lemma serializable_members (m : props) :
  serializable (VObj m) = true -> Forall (fun kv => serializable (snd kv) = true) m.
Proof.
  rewrite serializable_obj. intros H. apply andb_true_iff in H as [_ H].
  induction m as [|[k x] m IH]; [constructor|].
  simpl in H. apply andb_true_iff in H as [Hx H]. constructor; [exact Hx|now apply IH].
Qed.

Lemma get_defined (r : value) (k : string) :
  serializable r = true -> is_null r = false -> get r k = Ok (prop_opt r k).
Proof.
  intros Hs Hn. unfold get, prop_opt.
  destruct r; try discriminate; reflexivity.
Qed.

Lemma listing_total (m : props) :
  Forall (fun kv => serializable (snd kv) = true) m -> no_null_record m = true ->
  listing m = Ok (map listed m).
Proof.
  unfold no_null_record.
  induction 1 as [|[k r] m Hr Hm IH]; simpl; [reflexivity|].
  intros H. apply andb_true_iff in H as [Hn H]. apply negb_true_iff in Hn.
  simpl in Hr. rewrite (get_defined _ _ Hr Hn). simpl. now rewrite (IH H).
Qed.

Lemma listing_null (m : props) :
  Forall (fun kv => serializable (snd kv) = true) m -> no_null_record m = false ->
  exists msg, listing m = Throw (TypeError msg).
Proof.
  unfold no_null_record.
  induction 1 as [|[k r] m Hr Hm IH]; simpl; [discriminate|].
  destruct (is_null r) eqn:Hn; simpl.
  - intros _. destruct r; try discriminate. simpl. eauto.
  - intros H. simpl in Hr. rewrite (get_defined _ _ Hr Hn). simpl.
    destruct (IH H) as [msg ->]. simpl. eauto.
Qed.

(** X9.  [GET /accounts] of [src/server.js] lists every stored account
    once, in the order of the store, with its key as [accountId] and its
    [username]; it fails, for all the accounts, as soon as one key of the
    store holds [null]. *)
Theorem get_accounts_lists_or_fails (dir : string) (fs : FS) (m : props) :
  loadJSON fs (ACCOUNTS_FILE dir) = VObj m ->
  (no_null_record m = true ->
   get_accounts dir fs = (Reply 200 (Json (VArr (map listed m))), fs)) /\
  (no_null_record m = false ->
   exists msg, get_accounts dir fs = (Unhandled (TypeError msg), fs)).
Proof.
  intros Hload.
  pose proof (loadJSON_serializable fs (ACCOUNTS_FILE dir)) as Hser.
  rewrite Hload in Hser. apply serializable_members in Hser.
  unfold get_accounts. rewrite Hload. simpl. split; intros H.
  - now rewrite (listing_total m Hser H).
  - destruct (listing_null m Hser H) as [msg ->]. eauto.
Qed.

Lemma listing_with_page_step (k : string) (r : value) (m : props) :
  serializable r = true -> is_null r = false ->
  Part001.listing ((k, r) :: m)
  = bind_result (Part001.listing m) (fun rest => Ok (listed_with_page (k, r) :: rest)).
Proof.
  intros Hr Hn. cbn [Part001.listing].
  rewrite !(get_defined _ _ Hr Hn).
  unfold listed_with_page, or_else. cbn [fst snd bind_result].
  destruct (truthy (prop_opt r "igUsername")); reflexivity.
Qed.

Lemma listing_with_page_total (m : props) :
  Forall (fun kv => serializable (snd kv) = true) m -> no_null_record m = true ->
  Part001.listing m = Ok (map listed_with_page m).
Proof.
  unfold no_null_record.
  induction 1 as [|[k r] m Hr Hm IH]; [reflexivity|].
  cbn [forallb snd map]. intros H. apply andb_true_iff in H as [Hn H].
  apply negb_true_iff in Hn.
  rewrite (listing_with_page_step _ _ _ Hr Hn), (IH H). reflexivity.
Qed.

Lemma listing_with_page_agrees (m1 m2 : props) :
  forall2b entry_agrees m1 m2 = true -> Part001.listing m1 = Part001.listing m2.
Proof.
  revert m2. induction m1 as [|[k1 r1] m1 IH]; intros [|[k2 r2] m2]; simpl;
    try discriminate; [reflexivity|].
  intros H. apply andb_true_iff in H as [H Hrest].
  unfold entry_agrees in H. simpl in H. apply andb_true_iff in H as [Hk Hr].
  apply String.eqb_eq in Hk. subst k2.
  rewrite (get_agrees _ _ "igUsername" Hr) by discriminate.
  rewrite (get_agrees _ _ "username" Hr) by discriminate.
  rewrite (get_agrees _ _ "pageId" Hr) by discriminate.
  rewrite (get_agrees _ _ "pageName" Hr) by discriminate.
  now rewrite (IH _ Hrest).
Qed.

(** X10.  [GET /accounts] of the second revision of
    [src/unnamed/part_001] lists every stored account once, in the order
    of the store; the name it shows is the stored [igUsername], else the
    stored [username] (the field the other revisions write), else
    [Instagram-<key>], so that it is never empty; and two stores that
    differ only in the values of the access tokens get the same
    answer. *)
Theorem get_accounts_with_page_names_every_account (dir : string) (fs : FS) (m : props) :
  loadJSON fs (ACCOUNTS_FILE dir) = VObj m ->
  no_null_record m = true ->
  Part001.get_accounts dir fs = (Reply 200 (Json (VArr (map listed_with_page m))), fs) /\
  Forall (fun e => truthy (prop_opt e "username") = true) (map listed_with_page m) /\
  (forall fs2, same_but_tokens (loadJSON fs (ACCOUNTS_FILE dir))
                               (loadJSON fs2 (ACCOUNTS_FILE dir)) = true ->
               fst (Part001.get_accounts dir fs2) = fst (Part001.get_accounts dir fs)).
Proof.
  intros Hload Hn.
  pose proof (loadJSON_serializable fs (ACCOUNTS_FILE dir)) as Hser.
  rewrite Hload in Hser. apply serializable_members in Hser.
  split; [|split].
  - unfold Part001.get_accounts. rewrite Hload. simpl.
    now rewrite (listing_with_page_total m Hser Hn).
  - clear. induction m as [|[k r] m IH]; constructor; [|exact IH].
    unfold listed_with_page, prop_opt. simpl. unfold or_else at 1.
    destruct (truthy (or_else _ _)) eqn:T; [exact T|reflexivity].
  - intros fs2 H. rewrite Hload in H. unfold Part001.get_accounts. rewrite Hload.
    destruct (loadJSON fs2 (ACCOUNTS_FILE dir)) as [| | | | | |m2|]; try discriminate.
    simpl in H. simpl. rewrite (listing_with_page_agrees _ _ H).
    destruct (Part001.listing m2); reflexivity.
Qed.

(** *** GET /debug/read-accounts, second revision of [src/unnamed/part_001] *)

Lemma mask_record_hides (r r' : value) :
  Part001.mask_record r = Ok r' -> token_hidden r'.
Proof.
  unfold Part001.mask_record, get.
  destruct (prop r "accessToken") as [token|] eqn:Ep; [|discriminate]. simpl.
  destruct (truthy token) eqn:T.
  - destruct (ToString token) as [s|e]; [|discriminate]. simpl.
    assert (E : exists f, r = VObj f /\ has_own f "accessToken" = true).
    { destruct r as [| |b|n|x|l|f|]; simpl in Ep; inversion Ep; subst; try discriminate.
      exists f. split; [reflexivity|]. unfold has_own.
      destruct (own f "accessToken"); [reflexivity|discriminate]. }
    destruct E as (f & -> & Hhas).
    unfold put, assign. rewrite Hhas. intros H. inversion H; subst.
    intros t Ht _. simpl in Ht. rewrite own_replace_same in Ht by exact Hhas.
    inversion Ht. eexists. reflexivity.
  - intros H. inversion H; subst. intros t Ht Tt. congruence.
Qed.

Lemma mask_tokens_hide (todo : props) :
  forall done acc',
    (forall k, In k (map fst todo) -> ~ In k (map fst done)) ->
    NoDup (map fst todo) ->
    Part001.mask_tokens (VObj (done ++ todo)) (map fst todo) = Ok acc' ->
    exists todo', acc' = VObj (done ++ todo') /\ map fst todo' = map fst todo /\
                  Forall (fun kv => token_hidden (snd kv)) todo'.
Proof.
  induction todo as [|[k r] todo IH]; intros done acc' Hdis Hnd; simpl.
  - intros H. inversion H. exists []. auto.
  - inversion Hnd as [|? ? Hk Hnd']; subst.
    assert (Hkd : ~ In k (map fst done)) by (apply Hdis; now left).
    unfold get, prop. rewrite (own_app_skip _ _ _ Hkd). simpl.
    rewrite String.eqb_refl. simpl.
    destruct (Part001.mask_record r) as [r'|e] eqn:Em; [|discriminate]. simpl.
    unfold has_own. rewrite (own_app_skip _ _ _ Hkd). simpl.
    rewrite String.eqb_refl.
    rewrite (replace_app_skip _ _ _ _ Hkd). simpl. rewrite String.eqb_refl.
    intros H.
    specialize (IH (done ++ [(k, r')]) acc').
    rewrite <- !app_assoc in IH. simpl in IH.
    destruct IH as (todo' & -> & Hkeys & Hall); [|exact Hnd'|exact H|].
    + intros k' I. rewrite map_app, in_app_iff. simpl.
      intros [J|[<-|[]]]; [|contradiction].
      revert J. apply Hdis. now right.
    + exists ((k, r') :: todo'). rewrite <- app_assoc. simpl.
      split; [reflexivity|]. split; [now rewrite Hkeys|].
      constructor; [|exact Hall]. simpl. now apply mask_record_hides in Em.
Qed.

(** X11.  Whatever the records of the store hold, the debug route of the
    second revision of [src/unnamed/part_001] shows no token: it answers
    either the accounts under their keys, each with an [accessToken]
    that is missing, falsy or of the form [***len:N], or status 500 with
    the text of an error; it does not change the disk. *)
Theorem debug_read_accounts_hides_every_token (dir : string) (fs : FS) (m : props) :
  loadJSON fs (ACCOUNTS_FILE dir) = VObj m ->
  (exists m',
     Part001.debug_read_accounts dir fs = (Reply 200 (Json (VObj m')), fs) /\
     map fst m' = map fst m /\
     Forall (fun kv => token_hidden (snd kv)) m') \/
  (exists msg,
     Part001.debug_read_accounts dir fs
     = (Reply 500 (Json (VObj [("error", VStr msg)])), fs)).
Proof.
  intros Hload.
  pose proof (loadJSON_serializable fs (ACCOUNTS_FILE dir)) as Hser.
  rewrite Hload, serializable_obj in Hser. apply andb_true_iff in Hser as [Hkeys _].
  unfold Part001.debug_read_accounts. rewrite Hload. simpl.
  destruct (Part001.mask_tokens (VObj m) (map fst m)) as [acc'|e] eqn:Em.
  - left.
    destruct (mask_tokens_hide m [] acc' (fun k _ (I : In k []) => I)
                (keys_ok_NoDup _ Hkeys) Em) as (m' & -> & Hk & Hall).
    exists m'. auto.
  - right. eexists. reflexivity.
Qed.

(** *** GET /debug/files *)

(** X12.  For a data directory spelled as [path.join] leaves it,
    [GET /debug/files] answers with the two paths, each the directory, a
    [/] and the name of the document, says of each document whether it
    exists, and writes nothing; it reports a document that does not exist
    with 0 bytes, and either document, once [saveJSON] has written it, as
    existing, with the number of bytes of the text [JSON.stringify] made
    of it. *)
Theorem debug_files_reports_the_documents (dir : string) (dir_size : Z) (fs : FS) :
  plain_dir dir = true ->
  (exists ab sb,
     DebugFiles.debug_files dir dir_size fs
     = (Reply 200 (Json (VObj [("accountsPath", VStr (dir +++ "/accounts.json"));
                               ("accountsExists", VBool (existsSync fs (ACCOUNTS_FILE dir)));
                               ("accountsBytes", VNum ab);
                               ("schedulePath", VStr (dir +++ "/scheduleData.json"));
                               ("scheduleExists", VBool (existsSync fs (SCHEDULE_FILE dir)));
                               ("scheduleBytes", VNum sb)])), fs) /\
     (existsSync fs (ACCOUNTS_FILE dir) = false -> ab = 0%Z) /\
     (existsSync fs (SCHEDULE_FILE dir) = false -> sb = 0%Z)) /\
  (forall d txt,
     save_succeeds fs (ACCOUNTS_FILE dir) d = true ->
     JSON.stringify d = Some txt ->
     exists report,
       DebugFiles.debug_files dir dir_size (saveJSON fs (ACCOUNTS_FILE dir) d)
       = (Reply 200 (Json report), saveJSON fs (ACCOUNTS_FILE dir) d) /\
       prop_opt report "accountsExists" = VBool true /\
       prop_opt report "accountsBytes" = VNum (DebugFiles.byteLength txt)) /\
  (forall d txt,
     save_succeeds fs (SCHEDULE_FILE dir) d = true ->
     JSON.stringify d = Some txt ->
     exists report,
       DebugFiles.debug_files dir dir_size (saveJSON fs (SCHEDULE_FILE dir) d)
       = (Reply 200 (Json report), saveJSON fs (SCHEDULE_FILE dir) d) /\
       prop_opt report "scheduleExists" = VBool true /\
       prop_opt report "scheduleBytes" = VNum (DebugFiles.byteLength txt)).
Proof.
  intros _.
  assert (Hsize : forall fs0 p, exists n,
             (if existsSync fs0 p then DebugFiles.statSync_size dir_size fs0 p else Ok 0%Z)
             = Ok n /\ (existsSync fs0 p = false -> n = 0%Z) /\
             (forall t, nodes fs0 p = File t -> n = DebugFiles.byteLength t)).
  { intros fs0 p. unfold existsSync, DebugFiles.statSync_size.
    destruct (nodes fs0 p) as [| |t]; eexists; (split; [reflexivity|]);
      split; try discriminate; try reflexivity.
    intros t' E. now inversion E. }
  split; [|split].
  - destruct (Hsize fs (ACCOUNTS_FILE dir)) as (ab & Ha & Ha0 & _).
    destruct (Hsize fs (SCHEDULE_FILE dir)) as (sb & Hs & Hs0 & _).
    exists ab, sb. unfold DebugFiles.debug_files. rewrite Ha, Hs. simpl. auto.
  - intros d txt Hok Htxt.
    destruct (save_succeeds_file _ _ _ Hok) as (txt' & Ht & Hn).
    rewrite Htxt in Ht. inversion Ht; subst txt'.
    set (fs' := saveJSON fs (ACCOUNTS_FILE dir) d) in *.
    destruct (Hsize fs' (ACCOUNTS_FILE dir)) as (ab & Ha & _ & Hab).
    destruct (Hsize fs' (SCHEDULE_FILE dir)) as (sb & Hs & _ & _).
    eexists. unfold DebugFiles.debug_files. rewrite Ha, Hs. simpl.
    split; [reflexivity|]. unfold prop_opt. simpl.
    split; [|now rewrite (Hab _ Hn)].
    unfold existsSync. now rewrite Hn.
  - intros d txt Hok Htxt.
    destruct (save_succeeds_file _ _ _ Hok) as (txt' & Ht & Hn).
    rewrite Htxt in Ht. inversion Ht; subst txt'.
    set (fs' := saveJSON fs (SCHEDULE_FILE dir) d) in *.
    destruct (Hsize fs' (ACCOUNTS_FILE dir)) as (ab & Ha & _ & _).
    destruct (Hsize fs' (SCHEDULE_FILE dir)) as (sb & Hs & _ & Hsb).
    eexists. unfold DebugFiles.debug_files. rewrite Ha, Hs. simpl.
    split; [reflexivity|]. unfold prop_opt. simpl.
    split; [|now rewrite (Hsb _ Hn)].
    unfold existsSync. now rewrite Hn.
Qed.

End RoutesMore.

(** ** More on the OAuth callback *)

Module OAuthMore.
Import JS JSON Fs Storage Http OAuth Shape Notions.
Import StringFacts JSFacts JSONFacts StorageFacts RoutesFacts StoreFrame OAuthFacts.
Local Open Scope js_scope.

Ltac keeps_disk_steps :=
  repeat first
    [ apply keeps_ret | apply keeps_throw | apply keeps_lift | apply keeps_axios
    | apply keeps_if
    | apply keeps_bind; [|intros ?]
    | apply keeps_try; [|intros ?] ].

Section Provider.
Variable P : Type.
Variable respond : P -> call -> answer * P.
Variable cfg : config.

(** *** What a run can end in *)

Lemma keeps_server_resolve (token : value) :
  keeps_disk P (ServerJs.resolve P respond token).
Proof.
  unfold ServerJs.resolve.
  apply keeps_bind; [apply keeps_axios|]. intros d.
  apply keeps_if; [apply keeps_throw|].
  apply keeps_bind; [apply keeps_lift|]. intros ps.
  apply keeps_bind; [apply keeps_scan_pages|]. intros id.
  apply keeps_if; [apply keeps_throw|apply keeps_ret].
Qed.

Lemma server_resolve_truthy (token id : value) (w w' : world P) :
  ServerJs.resolve P respond token w = (Ok id, w') -> truthy id = true.
Proof.
  unfold ServerJs.resolve, bind.
  destruct (axios_get respond _ _ w) as [[d|e] w1]; [|discriminate].
  destruct (negb (truthy (prop_opt _ "length"))); [discriminate|].
  unfold lift. destruct (for_of _) as [ps|e]; [|discriminate].
  destruct (scan_pages P respond token VNull ps w1) as [[x|e] w2]; [|discriminate].
  destruct (truthy x) eqn:T; simpl; [|discriminate].
  intros H. inversion H; subst. exact T.
Qed.

Lemma part000_resolve_truthy (token id : value) (w w' : world P) :
  Part000.resolve P respond token w = (Ok id, w') -> truthy id = true.
Proof.
  unfold Part000.resolve, bind.
  destruct (Part000.path1 P respond token VNull w) as [[ig1|e] w1]; [|discriminate].
  destruct ((if negb (truthy ig1) then Part000.path2 P respond token ig1 else ret ig1) w1)
    as [[ig2|e] w2]; [|discriminate].
  destruct ((if negb (truthy ig2) then Part000.path3 P respond token ig2 else ret ig2) w2)
    as [[ig3|e] w3]; [|discriminate].
  destruct (truthy ig3) eqn:T; simpl; [|discriminate].
  intros H. inversion H; subst. exact T.
Qed.

(** The callbacks of [src/server.js] and of [src/unnamed/part_000] differ
    in the resolution only. *)
Lemma settled_by (resolve : value -> M P value) (req : request) (w : world P) :
  (forall token, keeps_disk P (resolve token)) ->
  (forall token id w1 w2, resolve token w1 = (Ok id, w2) -> truthy id = true) ->
  settled cfg req w
    ((let code := prop_opt (query req) "code" in
      if negb (truthy code) then ret (Reply 400 (Text "No code returned"))
      else
        let REDIRECT_URI := buildBaseUrl req +++ "/auth/instagram/callback" in
        try_catch
          (longToken <- exchange P respond cfg code REDIRECT_URI ;;
           igAccountId <- resolve longToken ;;
           _ <- ServerJs.save_account P cfg longToken igAccountId ;;
           ret (Reply 200 (Text connected_page)))
          (fun err => ret (error_page err))) w).
Proof.
  intros Hkeep Htruthy. unfold settled. cbv zeta.
  destruct (truthy (prop_opt (query req) "code")) eqn:Hcode; simpl.
  2:{ left. split; reflexivity. }
  right. unfold try_catch, bind.
  destruct (exchange P respond cfg _ _ w) as [[token|e] w0] eqn:Ex;
    apply keeps_exchange in Ex.
  2:{ left. split; [reflexivity|]. eexists _, _. split; [reflexivity|exact Ex]. }
  destruct (resolve token w0) as [[id|e] w1] eqn:Er.
  2:{ apply Hkeep in Er. left. split; [reflexivity|].
      eexists _, _. split; [reflexivity|congruence]. }
  pose proof (Htruthy _ _ _ _ Er) as Tid. apply Hkeep in Er.
  unfold ServerJs.save_account, bind, load, lift, save.
  destruct (ToString id) as [name|e] eqn:En; simpl.
  2:{ left. split; [reflexivity|]. eexists _, _. split; [reflexivity|congruence]. }
  destruct (put _ name _) as [acc'|e] eqn:Ep; simpl.
  2:{ left. split; [reflexivity|]. eexists _, _. split; [reflexivity|congruence]. }
  right. split; [reflexivity|].
  exists token, id, name, acc'. eexists. split; [reflexivity|].
  split; [exact Tid|]. split.
  { unfold ToString in En. destruct (to_string id); inversion En. reflexivity. }
  rewrite Er, Ex in Ep. split; [exact Ep|]. simpl. now rewrite Er, Ex.
Qed.


(** *** A code the provider rejects *)

Lemma exchange_rejected (code : value) (c uri : string) (d : value) (msg : string)
                        (w : world P) (p' : P) :
  to_string code = Some c ->
  respond (net w)
          (mkCall TOKEN_URL
                  [("client_id", VStr (FB_APP_ID cfg));
                   ("client_secret", VStr (FB_APP_SECRET cfg));
                   ("redirect_uri", VStr uri);
                   ("code", code)])
  = (Rejected d msg, p') ->
  exchange P respond cfg code uri w = (Throw (AxiosError d msg), mkWorld (disk w) p').
Proof.
  intros Hc Hr. unfold exchange, bind, lift. rewrite (ToString_ok _ _ Hc).
  unfold axios_get. now rewrite Hr.
Qed.

(** X14.  When the provider rejects the code (expired, used before, or
    issued for another redirect URI), the callback of every revision
    that builds its URL from the request stops there: the provider is
    asked nothing more, nothing is written, and the browser gets status
    500 with the body of the provider's reply, or with the message of the
    failure when there was no reply. *)
Theorem rejected_code_is_reported
    (req : request) (w : world P) (c : string) (d : value) (msg : string) (p' : P) :
  truthy (prop_opt (query req) "code") = true ->
  to_string (prop_opt (query req) "code") = Some c ->
  respond (net w)
          (mkCall TOKEN_URL
                  [("client_id", VStr (FB_APP_ID cfg));
                   ("client_secret", VStr (FB_APP_SECRET cfg));
                   ("redirect_uri", VStr (buildBaseUrl req +++ "/auth/instagram/callback"));
                   ("code", prop_opt (query req) "code")])
  = (Rejected d msg, p') ->
  let page := oauth_error (detail_text (or_else d (VStr msg))) in
  ServerJs.callback P respond cfg req w = (Ok page, mkWorld (disk w) p') /\
  Part000.callback P respond cfg req w = (Ok page, mkWorld (disk w) p') /\
  Part001.callback P respond cfg req w = (Ok page, mkWorld (disk w) p').
Proof.
  intros Hcode Hc Hr page.
  pose proof (exchange_rejected _ _ _ _ _ _ _ Hc Hr) as Hex.
  unfold ServerJs.callback, Part000.callback, Part001.callback.
  rewrite Hcode. simpl. unfold try_catch, bind. rewrite Hex. auto.
Qed.

(** *** The token that is stored *)

Lemma exchange_answered (code short long d1 d2 : value) (c uri : string)
                        (w : world P) (p1 p2 : P) :
  to_string code = Some c ->
  respond (net w)
          (mkCall TOKEN_URL
                  [("client_id", VStr (FB_APP_ID cfg));
                   ("client_secret", VStr (FB_APP_SECRET cfg));
                   ("redirect_uri", VStr uri);
                   ("code", code)])
  = (Resolved d1, p1) ->
  prop d1 "access_token" = Some short ->
  respond p1
          (mkCall TOKEN_URL
                  [("grant_type", VStr "fb_exchange_token");
                   ("client_id", VStr (FB_APP_ID cfg));
                   ("client_secret", VStr (FB_APP_SECRET cfg));
                   ("fb_exchange_token", short)])
  = (Resolved d2, p2) ->
  prop d2 "access_token" = Some long ->
  exchange P respond cfg code uri w = (Ok long, mkWorld (disk w) p2).
Proof.
  intros Hc H1 Hs H2 Hl. unfold exchange, bind at 1, lift at 1.
  rewrite (ToString_ok _ _ Hc).
  unfold bind at 1, axios_get at 1. rewrite H1.
  unfold bind at 1, lift at 1. rewrite (get_ok _ _ _ Hs).
  unfold bind, axios_get. cbn [net disk]. rewrite H2.
  unfold lift. now rewrite (get_ok _ _ _ Hl).
Qed.

(** X15.  The two exchanges run one after the other, the second on the
    token the first has returned, and the token [src/server.js] stores
    with the account is the long-lived one, the answer to the second
    exchange: when both are answered and an account is found, the
    callback answers the confirmation page and saves the record with that
    token under the identifier. *)
Theorem callback_saves_long_lived_token
    (req : request) (c name : string) (d1 d2 short long id : value) (m : props)
    (w w3 : world P) (p1 p2 : P) :
  truthy (prop_opt (query req) "code") = true ->
  to_string (prop_opt (query req) "code") = Some c ->
  respond (net w)
          (mkCall TOKEN_URL
                  [("client_id", VStr (FB_APP_ID cfg));
                   ("client_secret", VStr (FB_APP_SECRET cfg));
                   ("redirect_uri", VStr (buildBaseUrl req +++ "/auth/instagram/callback"));
                   ("code", prop_opt (query req) "code")])
  = (Resolved d1, p1) ->
  prop d1 "access_token" = Some short ->
  respond p1
          (mkCall TOKEN_URL
                  [("grant_type", VStr "fb_exchange_token");
                   ("client_id", VStr (FB_APP_ID cfg));
                   ("client_secret", VStr (FB_APP_SECRET cfg));
                   ("fb_exchange_token", short)])
  = (Resolved d2, p2) ->
  prop d2 "access_token" = Some long ->
  ServerJs.resolve P respond long (mkWorld (disk w) p2) = (Ok id, w3) ->
  to_string id = Some name ->
  name <> "__proto__" ->
  loadJSON (disk w) (ACCOUNTS_FILE (DATA_DIR cfg)) = VObj m ->
  let record := VObj [("accessToken", long);
                      ("username", VStr ("Instagram-" +++ name));
                      ("buckets", VArr [])] in
  ServerJs.callback P respond cfg req w
  = (Ok (Reply 200 (Text connected_page)),
     mkWorld (saveJSON (disk w) (ACCOUNTS_FILE (DATA_DIR cfg))
                (VObj (define_own m name record)))
             (net w3)) /\
  own (define_own m name record) name = Some record.
Proof.
  intros Hcode Hc H1 Hs H2 Hl Hres Hname Hproto Hload record.
  pose proof (exchange_answered _ _ _ _ _ _ _ _ _ _ Hc H1 Hs H2 Hl) as Hex.
  pose proof (keeps_server_resolve _ _ _ _ Hres) as Hd. simpl in Hd.
  split; [|apply own_define_same].
  unfold ServerJs.callback. rewrite Hcode. simpl.
  unfold try_catch. unfold bind at 1. rewrite Hex.
  unfold bind at 1. rewrite Hres.
  unfold ServerJs.save_account, bind, load, lift, save.
  rewrite Hd, Hload, (ToString_ok _ _ Hname).
  unfold ServerJs.new_record. fold record.
  now rewrite (put_object _ _ _ Hproto).
Qed.

(** *** The scan of the pages *)

Lemma page_lookup_total (p token : value) (w : world P) :
  exists v w', page_lookup P respond p token w = (Ok v, w').
Proof. apply try_catch_total. Qed.

Lemma scan_pages_total (token cur : value) (ps : list value) :
  forall w, exists v w', scan_pages P respond token cur ps w = (Ok v, w').
Proof.
  induction ps as [|p ps IH]; intros w; simpl.
  - unfold ret. eauto.
  - unfold bind. destruct (page_lookup_total p token w) as (v & w1 & ->).
    destruct (truthy v); [unfold ret; eauto|apply IH].
Qed.

Lemma scan_pages_app (token cur : value) (ps1 ps2 : list value) :
  truthy cur = false ->
  forall w v w1,
    scan_pages P respond token cur ps1 w = (Ok v, w1) ->
    scan_pages P respond token cur (ps1 ++ ps2) w
    = if truthy v then (Ok v, w1) else scan_pages P respond token cur ps2 w1.
Proof.
  intros Hcur. induction ps1 as [|p ps1 IH]; intros w v w1; simpl.
  - intros H. inversion H; subst. now rewrite Hcur.
  - unfold bind. destruct (page_lookup P respond p token w) as [[x|e] w0]; [|discriminate].
    destruct (truthy x) eqn:T.
    + intros H. inversion H; subst. now rewrite T.
    + apply IH.
Qed.

Lemma page_lookup_rejected (p token pid : value) (seg : string) (d : value) (msg : string)
                           (w : world P) (p' : P) :
  prop p "id" = Some pid -> to_string pid = Some seg ->
  respond (net w)
          (mkCall (GRAPH +++ seg)
                  [("fields", VStr "instagram_business_account"); ("access_token", token)])
  = (Rejected d msg, p') ->
  page_lookup P respond p token w = (Ok VUndef, mkWorld (disk w) p').
Proof.
  intros Hp Hs Hr. unfold page_lookup, try_catch, bind, lift.
  rewrite (get_ok _ _ _ Hp), (ToString_ok _ _ Hs). unfold axios_get. now rewrite Hr.
Qed.

(** X16.  The scan of the pages in [src/server.js] and in the first
    lookup of [src/unnamed/part_000] never throws; it ends at the first
    page whose lookup yields an identifier, in the world that lookup
    left, so that the pages after it are not asked about; a page that
    yields none is passed over, and so is a page whose lookup the
    provider rejects. *)
Theorem scan_stops_at_first_linked_page (token : value) :
  let scan := scan_pages P respond token VNull in
  (forall ps w, exists v w', scan ps w = (Ok v, w')) /\
  (forall ps1 ps2 w v w1,
     scan ps1 w = (Ok v, w1) -> truthy v = true -> scan (ps1 ++ ps2) w = (Ok v, w1)) /\
  (forall ps1 ps2 w v w1,
     scan ps1 w = (Ok v, w1) -> truthy v = false -> scan (ps1 ++ ps2) w = scan ps2 w1) /\
  (forall p ps w pid seg d msg p',
     prop p "id" = Some pid -> to_string pid = Some seg ->
     respond (net w)
             (mkCall (GRAPH +++ seg)
                     [("fields", VStr "instagram_business_account");
                      ("access_token", token)])
     = (Rejected d msg, p') ->
     scan (p :: ps) w = scan ps (mkWorld (disk w) p')).
Proof.
  cbv zeta. split; [|split; [|split]].
  - intros ps w. apply scan_pages_total.
  - intros ps1 ps2 w v w1 H T.
    rewrite (scan_pages_app token VNull ps1 ps2 eq_refl _ _ _ H). now rewrite T.
  - intros ps1 ps2 w v w1 H T.
    rewrite (scan_pages_app token VNull ps1 ps2 eq_refl _ _ _ H). now rewrite T.
  - intros p ps w pid seg d msg p' Hp Hs Hr. simpl. unfold bind.
    now rewrite (page_lookup_rejected _ _ _ _ _ _ _ _ Hp Hs Hr).
Qed.

(** *** A page listing the provider rejects *)

(** X17.  The revisions differ in what a rejected request for the pages
    of the user leads to.  In [src/server.js] it ends the flow with the
    provider's error; in [src/unnamed/part_000] the first lookup swallows
    it, yields no identifier, and the second lookup is tried next; in the
    second revision of [src/unnamed/part_001] it is swallowed too, the
    list of pages stays empty, and the flow ends with the error that no
    page was found.  Nothing is written in any of them. *)
Theorem rejected_page_listing
    (req : request) (token d : value) (msg : string) (w w1 : world P) (p2 : P) :
  truthy (prop_opt (query req) "code") = true ->
  exchange P respond cfg (prop_opt (query req) "code")
           (buildBaseUrl req +++ "/auth/instagram/callback") w = (Ok token, w1) ->
  (respond (net w1) (mkCall ME_ACCOUNTS_URL [("access_token", token)])
   = (Rejected d msg, p2) ->
   ServerJs.callback P respond cfg req w
   = (Ok (oauth_error (detail_text (or_else d (VStr msg)))), mkWorld (disk w) p2) /\
   Part000.path1 P respond token VNull w1 = (Ok VNull, mkWorld (disk w) p2)) /\
  (respond (net w1)
           (mkCall ME_ACCOUNTS_URL
                   [("access_token", token); ("fields", VStr "id,name,access_token")])
   = (Rejected d msg, p2) ->
   Part001.callback P respond cfg req w
   = (Ok (oauth_error Part001.NO_PAGES), mkWorld (disk w) p2)).
Proof.
  intros Hcode Hex.
  assert (Hd : disk w1 = disk w) by (now apply keeps_exchange in Hex).
  split.
  - intros Hr. split.
    + unfold ServerJs.callback. rewrite Hcode. simpl.
      unfold try_catch, bind at 1. rewrite Hex.
      unfold ServerJs.resolve, bind, axios_get. rewrite Hr, Hd. reflexivity.
    + unfold Part000.path1, try_catch, bind, axios_get. rewrite Hr, Hd. reflexivity.
  - intros Hr. unfold Part001.callback. rewrite Hcode. simpl.
    unfold try_catch at 1. unfold bind at 1. rewrite Hex.
    unfold Part001.resolve, Part001.fetch_pages, bind, try_catch, axios_get.
    rewrite Hr, Hd. reflexivity.
Qed.

(** *** Pages without a token of their own *)

(** X18.  In the second revision of [src/unnamed/part_001] a page that
    comes without an [access_token] is passed over without a request:
    when no page of the list has one, the scan asks the provider nothing
    and finds nothing, and the flow ends with the error that no account
    is linked. *)
Theorem pages_without_token_are_not_asked
    (req : request) (token : value) (ps : list value) (w w1 w2 : world P) :
  truthy (prop_opt (query req) "code") = true ->
  exchange P respond cfg (prop_opt (query req) "code")
           (buildBaseUrl req +++ "/auth/instagram/callback") w = (Ok token, w1) ->
  Part001.fetch_pages P respond token w1 = (Ok (VArr ps), w2) ->
  ps <> [] ->
  Forall (fun p => exists t, prop p "access_token" = Some t /\ truthy t = false) ps ->
  Part001.scan_pages P respond ps w2 = (Ok (VNull, VNull), w2) /\
  Part001.callback P respond cfg req w = (Ok (oauth_error Part001.NO_IG), w2).
Proof.
  intros Hcode Hex Hf Hne Hall.
  assert (Hscan : forall w, Part001.scan_pages P respond ps w = (Ok (VNull, VNull), w)).
  { clear - Hall. induction Hall as [|p ps (t & Hp & Ht) Hps IH]; intros w; simpl;
      [reflexivity|].
    unfold bind, lift. rewrite (get_ok _ _ _ Hp), Ht. simpl. apply IH. }
  split; [apply Hscan|].
  assert (Hres : Part001.resolve P respond token w1 = (Throw (Error Part001.NO_IG), w2)).
  { unfold Part001.resolve. unfold bind at 1. rewrite Hf.
    assert (Hlen : truthy (prop_opt (VArr ps) "length") = true).
    { destruct ps; [contradiction|reflexivity]. }
    rewrite Hlen. simpl. unfold bind, lift. simpl. rewrite Hscan. reflexivity. }
  unfold Part001.callback. rewrite Hcode. simpl.
  unfold try_catch, bind. rewrite Hex, Hres. reflexivity.
Qed.

(** *** The display name, second revision of [src/unnamed/part_001] *)

Lemma keeps_fetch_username (id page : value) :
  keeps_disk P (Part001.fetch_username P respond id page).
Proof. unfold Part001.fetch_username. keeps_disk_steps. Qed.

Lemma fetch_username_answered (id page tok data : value) (key : string)
                              (w : world P) (p3 : P) :
  to_string id = Some key ->
  prop page "access_token" = Some tok ->
  respond (net w)
          (mkCall (GRAPH +++ key) [("fields", VStr "username"); ("access_token", tok)])
  = (Resolved data, p3) ->
  Part001.fetch_username P respond id page w
  = (Ok (or_else (prop_opt data "username") (VStr ("Instagram-" +++ key))),
     mkWorld (disk w) p3).
Proof.
  intros Hk Ht Hr. unfold Part001.fetch_username, bind at 1, lift at 1.
  rewrite (ToString_ok _ _ Hk).
  unfold try_catch, bind at 1, lift at 1. rewrite (get_ok _ _ _ Ht).
  unfold bind, axios_get. rewrite Hr. unfold or_else.
  destruct (truthy (prop_opt data "username")); reflexivity.
Qed.

Lemma finish_after_name (token id page u pid : value) (key seg pageName : string)
                        (m : props) (w2 w3 : world P) :
  Part001.fetch_username P respond id page w2 = (Ok u, w3) ->
  to_string id = Some key -> key <> "__proto__" ->
  prop page "id" = Some pid -> to_string pid = Some seg ->
  to_string (prop_opt page "name") = Some pageName ->
  loadJSON (disk w2) (ACCOUNTS_FILE (DATA_DIR cfg)) = VObj m ->
  Part001.finish P respond cfg token id page w2
  = (match to_string u with
     | Some shown => Ok (Reply 200 (Text (Part001.connected_page shown pageName)))
     | None => Throw (TypeError "Cannot convert object to primitive value")
     end,
     mkWorld (saveJSON (disk w2) (ACCOUNTS_FILE (DATA_DIR cfg))
                (VObj (define_own m key (Part001.new_record token page u))))
             (net w3)).
Proof.
  intros Hf Hkey Hproto Hpid Hseg Hname Hload.
  pose proof (keeps_fetch_username _ _ _ _ _ Hf) as Hd.
  unfold Part001.finish, bind at 1, lift at 1.
  rewrite (ToString_ok _ _ Hname).
  unfold bind at 1, lift at 1.
  assert (Epid : prop_opt page "id" = pid) by (unfold prop_opt; now rewrite Hpid).
  rewrite Epid, (ToString_ok _ _ Hseg).
  unfold bind at 1. rewrite Hf.
  unfold bind at 1.
  assert (Esave : Part001.save_account P cfg token id page u w3
                  = (Ok tt, mkWorld (saveJSON (disk w2) (ACCOUNTS_FILE (DATA_DIR cfg))
                                       (VObj (define_own m key
                                                (Part001.new_record token page u))))
                                    (net w3))).
  { unfold Part001.save_account, bind, load, lift, save.
    rewrite Hd, Hload, (ToString_ok _ _ Hkey), (get_ok _ _ _ Hpid).
    now rewrite (put_object _ _ _ Hproto). }
  rewrite Esave.
  unfold bind, lift, ToString. destruct (to_string u) as [shown|]; [|reflexivity].
  assert (Epn : exists x, prop page "name" = Some x /\ to_string x = Some pageName).
  { unfold prop_opt in Hname. destruct (prop page "name") as [x|] eqn:E.
    - eauto.
    - destruct page; simpl in E, Hpid; discriminate. }
  destruct Epn as (x & Hx & Hsx).
  rewrite (get_ok _ _ _ Hx). simpl. rewrite Hsx. reflexivity.
Qed.

(** X19.  Once an account is found on a page and the provider answers
    the request for its name, the second revision of
    [src/unnamed/part_001] stores and shows the [username] of the answer,
    whatever JSON value it is, and [Instagram-<id>] in its place when the
    answer has none or an empty one. *)
Theorem callback_stores_served_username
    (req : request) (token id page data : value) (key pageName shown : string)
    (m : props) (w w1 w2 : world P) (p3 : P) :
  truthy (prop_opt (query req) "code") = true ->
  exchange P respond cfg (prop_opt (query req) "code")
           (buildBaseUrl req +++ "/auth/instagram/callback") w = (Ok token, w1) ->
  Part001.resolve P respond token w1 = (Ok (id, page), w2) ->
  to_string id = Some key ->
  key <> "__proto__" ->
  to_string (prop_opt page "name") = Some pageName ->
  loadJSON (disk w) (ACCOUNTS_FILE (DATA_DIR cfg)) = VObj m ->
  respond (net w2)
          (mkCall (GRAPH +++ key)
                  [("fields", VStr "username");
                   ("access_token", prop_opt page "access_token")])
  = (Resolved data, p3) ->
  let name := or_else (prop_opt data "username") (VStr ("Instagram-" +++ key)) in
  to_string name = Some shown ->
  let record := VObj [("accessToken", token);
                      ("pageId", prop_opt page "id");
                      ("pageName", prop_opt page "name");
                      ("igUsername", name);
                      ("buckets", VArr [])] in
  let saved := VObj (define_own m key record) in
  Part001.callback P respond cfg req w
  = (Ok (Reply 200 (Text (Part001.connected_page shown pageName))),
     mkWorld (saveJSON (disk w) (ACCOUNTS_FILE (DATA_DIR cfg)) saved) p3) /\
  own (define_own m key record) key = Some record /\
  (truthy (prop_opt data "username") = true -> name = prop_opt data "username") /\
  (truthy (prop_opt data "username") = false -> name = VStr ("Instagram-" +++ key)).
Proof.
  intros Hcode Hex Hres Hkey Hproto Hname Hload Hans name Hshown record saved.
  destruct (resolve_found _ _ _ _ _ _ _ Hres)
    as (Tid & tok & pid & seg & Htok & Ttok & Hpid & Hseg).
  assert (Hd1 : disk w1 = disk w) by (now apply keeps_exchange in Hex).
  assert (Hd2 : disk w2 = disk w1) by (now apply keeps_resolve_tokens in Hres).
  assert (Etok : prop_opt page "access_token" = tok) by (unfold prop_opt; now rewrite Htok).
  rewrite Etok in Hans.
  pose proof (fetch_username_answered _ _ _ _ _ _ _ Hkey Htok Hans) as Hf.
  fold name in Hf.
  assert (Hload2 : loadJSON (disk w2) (ACCOUNTS_FILE (DATA_DIR cfg)) = VObj m)
    by (now rewrite Hd2, Hd1).
  pose proof (finish_after_name token _ _ _ _ _ _ _ _ _ _ Hf Hkey Hproto Hpid Hseg Hname Hload2)
    as Hfin.
  rewrite Hshown in Hfin. simpl in Hfin. rewrite Hd2, Hd1 in Hfin.
  split; [|split; [|split]].
  - unfold Part001.callback. rewrite Hcode. simpl.
    unfold try_catch, bind. rewrite Hex, Hres. simpl. rewrite Hfin. reflexivity.
  - apply own_define_same.
  - intros T. unfold name, or_else. now rewrite T.
  - intros T. unfold name, or_else. now rewrite T.
Qed.

(** X20.  The save comes before the confirmation page is built.  When
    the name the provider serves cannot be put into a text (an object
    with a [toString] of its own, which JSON cannot make callable), the
    second revision of [src/unnamed/part_001] has saved the account by
    the time the page fails: the browser gets status 500, and the record
    is in the document handed to [saveJSON]. *)
Theorem unprintable_username_is_saved_before_the_error
    (req : request) (token id page data : value) (fields : props) (key pageName : string)
    (m : props) (w w1 w2 : world P) (p3 : P) :
  truthy (prop_opt (query req) "code") = true ->
  exchange P respond cfg (prop_opt (query req) "code")
           (buildBaseUrl req +++ "/auth/instagram/callback") w = (Ok token, w1) ->
  Part001.resolve P respond token w1 = (Ok (id, page), w2) ->
  to_string id = Some key ->
  key <> "__proto__" ->
  to_string (prop_opt page "name") = Some pageName ->
  loadJSON (disk w) (ACCOUNTS_FILE (DATA_DIR cfg)) = VObj m ->
  respond (net w2)
          (mkCall (GRAPH +++ key)
                  [("fields", VStr "username");
                   ("access_token", prop_opt page "access_token")])
  = (Resolved data, p3) ->
  prop_opt data "username" = VObj fields ->
  has_own fields "toString" = true ->
  let record := VObj [("accessToken", token);
                      ("pageId", prop_opt page "id");
                      ("pageName", prop_opt page "name");
                      ("igUsername", VObj fields);
                      ("buckets", VArr [])] in
  let saved := VObj (define_own m key record) in
  Part001.callback P respond cfg req w
  = (Ok (oauth_error "Cannot convert object to primitive value"),
     mkWorld (saveJSON (disk w) (ACCOUNTS_FILE (DATA_DIR cfg)) saved) p3) /\
  own (define_own m key record) key = Some record.
Proof.
  intros Hcode Hex Hres Hkey Hproto Hname Hload Hans Hu Hts record saved.
  destruct (resolve_found _ _ _ _ _ _ _ Hres)
    as (Tid & tok & pid & seg & Htok & Ttok & Hpid & Hseg).
  assert (Hd1 : disk w1 = disk w) by (now apply keeps_exchange in Hex).
  assert (Hd2 : disk w2 = disk w1) by (now apply keeps_resolve_tokens in Hres).
  assert (Etok : prop_opt page "access_token" = tok) by (unfold prop_opt; now rewrite Htok).
  rewrite Etok in Hans.
  pose proof (fetch_username_answered _ _ _ _ _ _ _ Hkey Htok Hans) as Hf.
  rewrite Hu in Hf. unfold or_else in Hf. simpl in Hf.
  assert (Hload2 : loadJSON (disk w2) (ACCOUNTS_FILE (DATA_DIR cfg)) = VObj m)
    by (now rewrite Hd2, Hd1).
  pose proof (finish_after_name token _ _ _ _ _ _ _ _ _ _ Hf Hkey Hproto Hpid Hseg Hname Hload2)
    as Hfin.
  simpl in Hfin. rewrite Hts in Hfin. simpl in Hfin. rewrite Hd2, Hd1 in Hfin.
  split.
  - unfold Part001.callback. rewrite Hcode. simpl.
    unfold try_catch, bind. rewrite Hex, Hres. simpl. rewrite Hfin. reflexivity.
  - apply own_define_same.
Qed.

(** *** An account that was connected, seen from the JSON routes *)

Lemma can_write_any (fs : FS) (file : string) (d : value) :
  can_write fs file = true -> defined d = true -> save_succeeds fs file d = true.
Proof.
  unfold can_write, save_succeeds, saveJSON_try, stringify. intros H Hd. rewrite Hd.
  destruct (mkdirSync fs (path_dirname file)) as [fs1|e]; [|discriminate].
  simpl in H. unfold writeFileSync in *.
  destruct (nodes fs1 file); try discriminate;
    (destruct (writable fs1 file); [reflexivity|discriminate]).
Qed.

Lemma own_In (m : props) (k : string) (v : value) : own m k = Some v -> In (k, v) m.
Proof.
  induction m as [|[k0 v0] m IH]; simpl; [discriminate|].
  destruct (String.eqb_spec k0 k) as [->|Hne].
  - intros H. inversion H. now left.
  - intros H. right. now apply IH.
Qed.

(** X21.  An account the callback of [src/server.js] has saved is there
    for the other routes: once the write has gone through, the accounts
    document holds the new record under the identifier, [GET /accounts]
    lists the account under the name [Instagram-<id>], and a
    [POST /buckets] for the identifier is accepted. *)
Theorem connected_account_is_listed_and_takes_buckets
    (token id : value) (name : string) (m : props) (w : world P) (req : request) :
  loadJSON (disk w) (ACCOUNTS_FILE (DATA_DIR cfg)) = VObj m ->
  no_null_record m = true ->
  to_string id = Some name ->
  name <> "__proto__" ->
  serializable token = true ->
  can_write (disk w) (ACCOUNTS_FILE (DATA_DIR cfg)) = true ->
  to_string (posted_account req) = Some name ->
  let record := VObj [("accessToken", token);
                      ("username", VStr ("Instagram-" +++ name));
                      ("buckets", VArr [])] in
  let after := disk (snd (ServerJs.save_account P cfg token id w)) in
  ServerJs.save_account P cfg token id w = (Ok tt, mkWorld after (net w)) /\
  loadJSON after (ACCOUNTS_FILE (DATA_DIR cfg)) = VObj (define_own m name record) /\
  (exists l,
     Routes.get_accounts (DATA_DIR cfg) after = (Reply 200 (Json (VArr l)), after) /\
     In (VObj [("accountId", VStr name); ("username", VStr ("Instagram-" +++ name))]) l) /\
  fst (Routes.post_buckets (DATA_DIR cfg) req after) = Reply 200 (Json ok_body).
Proof.
  intros Hload Hnn Hname Hproto Htok Hw Hreq record after.
  assert (Hrun : ServerJs.save_account P cfg token id w
                 = (Ok tt, mkWorld (saveJSON (disk w) (ACCOUNTS_FILE (DATA_DIR cfg))
                                      (VObj (define_own m name record))) (net w))).
  { unfold ServerJs.save_account, bind, load, lift, save. rewrite Hload.
    rewrite (ToString_ok _ _ Hname). unfold ServerJs.new_record. fold record.
    now rewrite (put_object _ _ _ Hproto). }
  assert (Hafter : after = saveJSON (disk w) (ACCOUNTS_FILE (DATA_DIR cfg))
                             (VObj (define_own m name record))).
  { unfold after. now rewrite Hrun. }
  assert (Hrec : serializable record = true).
  { unfold record. rewrite serializable_obj. simpl. now rewrite Htok. }
  assert (Hdoc : loadJSON after (ACCOUNTS_FILE (DATA_DIR cfg))
                 = VObj (define_own m name record)).
  { rewrite Hafter. apply saved_document_loads.
    - pose proof (loadJSON_serializable (disk w) (ACCOUNTS_FILE (DATA_DIR cfg))) as Hser.
      rewrite Hload in Hser. now apply serializable_define.
    - now apply can_write_any. }
  assert (Hown : own (define_own m name record) name = Some record)
    by apply own_define_same.
  split; [now rewrite Hrun, <- Hafter|]. split; [exact Hdoc|]. split.
  - exists (map listed (define_own m name record)). split.
    + unfold Routes.get_accounts. rewrite Hdoc. simpl.
      rewrite RoutesMore.listing_total; [reflexivity| |].
      * apply RoutesMore.serializable_members. rewrite <- Hdoc.
        apply loadJSON_serializable.
      * unfold no_null_record, define_own.
        destruct (has_own m name);
          [apply (forallb_replace (fun v => negb (is_null v)))
          |apply (forallb_insert (fun v => negb (is_null v)))];
          (exact Hnn || reflexivity).
    + apply own_In in Hown.
      apply (in_map listed) in Hown. exact Hown.
  - unfold Routes.post_buckets, ToString. unfold posted_account in Hreq.
    rewrite Hreq, Hdoc. simpl.
    unfold get, prop. rewrite Hown. unfold record. cbn [bind_result truthy negb].
    rewrite put_object by discriminate. reflexivity.
Qed.

(** *** The schedule is out of reach of the callback *)

Lemma writes_only_keeps {A : Type} (file : string) (m : M P A) :
  keeps_disk P m -> writes_only P file m.
Proof. intros H w r w' q E _ _. now rewrite (H _ _ _ E). Qed.

Lemma writes_only_bind {A B : Type} (file : string) (m : M P A) (k : A -> M P B) :
  writes_only P file m -> (forall a, writes_only P file (k a)) ->
  writes_only P file (bind m k).
Proof.
  intros Hm Hk w r w' q H Hf Hd. unfold bind in H.
  destruct (m w) as [[a|e] w1] eqn:E.
  - rewrite (Hk _ _ _ _ _ H Hf Hd). exact (Hm _ _ _ _ E Hf Hd).
  - inversion H; subst. exact (Hm _ _ _ _ E Hf Hd).
Qed.

Lemma writes_only_try {A : Type} (file : string) (m : M P A) (h : exn -> M P A) :
  writes_only P file m -> (forall e, writes_only P file (h e)) ->
  writes_only P file (try_catch m h).
Proof.
  intros Hm Hh w r w' q H Hf Hd. unfold try_catch in H.
  destruct (m w) as [[a|e] w1] eqn:E.
  - inversion H; subst. exact (Hm _ _ _ _ E Hf Hd).
  - rewrite (Hh _ _ _ _ _ H Hf Hd). exact (Hm _ _ _ _ E Hf Hd).
Qed.

Lemma writes_only_save (file : string) (d : value) : writes_only P file (save file d).
Proof.
  intros w r w' q H Hf Hd. unfold save in H. inversion H; subst. simpl.
  now apply saveJSON_other.
Qed.

Lemma writes_only_server_save (token id : value) :
  writes_only P (ACCOUNTS_FILE (DATA_DIR cfg)) (ServerJs.save_account P cfg token id).
Proof.
  unfold ServerJs.save_account.
  apply writes_only_bind; [apply writes_only_keeps; intros w r w' H; now inversion H|].
  intros accounts. apply writes_only_bind; [apply writes_only_keeps, keeps_lift|].
  intros name. apply writes_only_bind; [apply writes_only_keeps, keeps_lift|].
  intros accounts'. apply writes_only_save.
Qed.

Lemma writes_only_callback (resolve : value -> M P value) (req : request) (uri : string) :
  (forall token, keeps_disk P (resolve token)) ->
  forall page,
  writes_only P (ACCOUNTS_FILE (DATA_DIR cfg))
    (if negb (truthy (prop_opt (query req) "code"))
     then ret (Reply 400 (Text "No code returned"))
     else
       try_catch
         (longToken <- exchange P respond cfg (prop_opt (query req) "code") uri ;;
          igAccountId <- resolve longToken ;;
          _ <- ServerJs.save_account P cfg longToken igAccountId ;;
          ret (Reply 200 (Text connected_page)))
         (fun err => ret (page err))).
Proof.
  intros Hkeep page.
  destruct (negb (truthy (prop_opt (query req) "code")));
    [apply writes_only_keeps, keeps_ret|].
  apply writes_only_try; [|intros e; apply writes_only_keeps, keeps_ret].
  apply writes_only_bind; [apply writes_only_keeps, keeps_exchange|]. intros token.
  apply writes_only_bind; [apply writes_only_keeps, Hkeep|]. intros id.
  apply writes_only_bind; [apply writes_only_server_save|]. intros _.
  apply writes_only_keeps, keeps_ret.
Qed.

Lemma writes_only_callback_with_page (req : request) :
  writes_only P (ACCOUNTS_FILE (DATA_DIR cfg)) (Part001.callback P respond cfg req).
Proof.
  unfold Part001.callback.
  destruct (negb (truthy (prop_opt (query req) "code")));
    [apply writes_only_keeps, keeps_ret|].
  apply writes_only_try; [|intros e; apply writes_only_keeps, keeps_ret].
  apply writes_only_bind; [apply writes_only_keeps, keeps_exchange|]. intros token.
  apply writes_only_bind; [apply writes_only_keeps, keeps_resolve_tokens|]. intros found.
  unfold Part001.finish.
  apply writes_only_bind; [apply writes_only_keeps, keeps_lift|]. intros _.
  apply writes_only_bind; [apply writes_only_keeps, keeps_lift|]. intros _.
  apply writes_only_bind; [apply writes_only_keeps, keeps_fetch_username|]. intros u.
  apply writes_only_bind.
  { unfold Part001.save_account.
    apply writes_only_bind; [apply writes_only_keeps; intros w r w' H; now inversion H|].
    intros accounts. apply writes_only_bind; [apply writes_only_keeps, keeps_lift|].
    intros key. apply writes_only_bind; [apply writes_only_keeps, keeps_lift|].
    intros _. apply writes_only_bind; [apply writes_only_keeps, keeps_lift|].
    intros accounts'. apply writes_only_save. }
  intros _.
  apply writes_only_bind; [apply writes_only_keeps, keeps_lift|]. intros shown.
  apply writes_only_bind; [apply writes_only_keeps, keeps_lift|]. intros pageName.
  apply writes_only_keeps, keeps_ret.
Qed.

Lemma writes_only_schedule {A : Type} (m : M P A) (w : world P) :
  writes_only P (ACCOUNTS_FILE (DATA_DIR cfg)) m ->
  fst (Routes.get_schedule (DATA_DIR cfg) (disk (snd (m w))))
  = fst (Routes.get_schedule (DATA_DIR cfg) (disk w)).
Proof.
  intros H. apply get_schedule_nodes.
  destruct (m w) as [r w'] eqn:E. simpl. apply (H _ _ _ _ E).
  - intros X. symmetry in X. now apply files_differ in X.
  - intros X. symmetry in X. revert X. apply accounts_dirname.
Qed.

End Provider.

Section Schedule.
Variable P : Type.
Variable respond : P -> call -> answer * P.

Lemma keeps_first_resolve (token : value) :
  keeps_disk P (Part001First.resolve P respond token).
Proof. unfold Part001First.resolve. keeps_disk_steps. Qed.

(** X22.  No run of the OAuth callback, in any revision and however it
    ends, changes what [GET /schedule] answers: the callback writes to
    the accounts file and to nothing else. *)
Theorem callback_leaves_schedule
    (cfg : config) (cfg1 : Part001First.config) (req : request) (w : world P) :
  let after (run : result response * world P) := disk (snd run) in
  fst (Routes.get_schedule (DATA_DIR cfg) (after (ServerJs.callback P respond cfg req w)))
  = fst (Routes.get_schedule (DATA_DIR cfg) (disk w)) /\
  fst (Routes.get_schedule (DATA_DIR cfg) (after (Part000.callback P respond cfg req w)))
  = fst (Routes.get_schedule (DATA_DIR cfg) (disk w)) /\
  fst (Routes.get_schedule (DATA_DIR cfg) (after (Part001.callback P respond cfg req w)))
  = fst (Routes.get_schedule (DATA_DIR cfg) (disk w)) /\
  fst (Routes.get_schedule (DATA_DIR (Part001First.app cfg1))
         (after (Part001First.callback P respond cfg1 req w)))
  = fst (Routes.get_schedule (DATA_DIR (Part001First.app cfg1)) (disk w)).
Proof.
  cbv zeta. split; [|split; [|split]].
  - apply writes_only_schedule.
    apply (writes_only_callback P respond cfg (ServerJs.resolve P respond)).
    apply keeps_server_resolve.
  - apply writes_only_schedule.
    apply (writes_only_callback P respond cfg (Part000.resolve P respond)).
    apply keeps_resolve.
  - apply writes_only_schedule. apply writes_only_callback_with_page.
  - apply writes_only_schedule.
    apply (writes_only_callback P respond (Part001First.app cfg1)
             (Part001First.resolve P respond)).
    apply keeps_first_resolve.
Qed.

End Schedule.

(** *** [src/unnamed/part_001], first revision *)

Section FirstRevision.
Variable P : Type.
Variable respond : P -> call -> answer * P.
Variable cfg : Part001First.config.

(** X23.  The first revision of [src/unnamed/part_001] looks at the
    first page of the list and at no other: when that page has no linked
    account the flow ends there with status 500, whatever the pages after
    it are linked to; the provider has been asked about the first page
    only, and nothing is written. *)
Theorem first_revision_asks_first_page_only
    (req : request) (token data pid ig : value) (seg : string) (w w1 : world P) (p2 p3 : P) :
  truthy (prop_opt (query req) "code") = true ->
  exchange P respond (Part001First.app cfg) (prop_opt (query req) "code")
           (Part001First.REDIRECT_URI cfg) w = (Ok token, w1) ->
  respond (net w1) (mkCall ME_ACCOUNTS_URL [("access_token", token)])
  = (Resolved data, p2) ->
  let pageList := or_else (prop_opt data "data") (VArr []) in
  truthy (prop_opt pageList "length") = true ->
  prop (prop_opt pageList "0") "id" = Some pid ->
  to_string pid = Some seg ->
  respond p2 (mkCall (GRAPH +++ seg)
                     [("fields", VStr "instagram_business_account");
                      ("access_token", token)])
  = (Resolved ig, p3) ->
  truthy (prop_opt (prop_opt ig "instagram_business_account") "id") = false ->
  Part001First.callback P respond cfg req w
  = (Ok (Reply 500 (Text ("OAuth error: " +++ Part001First.NO_IG))), mkWorld (disk w) p3).
Proof.
  intros Hcode Hex Hpages pageList Hlen Hpid Hseg Hig Hnone.
  assert (Hd : disk w1 = disk w) by (now apply keeps_exchange in Hex).
  assert (Hres : Part001First.resolve P respond token w1
                 = (Throw (Error Part001First.NO_IG), mkWorld (disk w) p3)).
  { unfold Part001First.resolve. unfold bind at 1. unfold axios_get at 1. rewrite Hpages.
    fold pageList. rewrite Hlen. cbn [negb].
    unfold bind at 1, lift at 1. rewrite (get_ok _ _ _ Hpid).
    unfold bind at 1, lift at 1. rewrite (ToString_ok _ _ Hseg).
    unfold bind, axios_get. cbn [net disk]. rewrite Hig. cbn [net disk].
    rewrite Hnone, Hd. reflexivity. }
  unfold Part001First.callback. rewrite Hcode. simpl.
  unfold try_catch, bind. rewrite Hex, Hres. reflexivity.
Qed.

(** X26.  No error escapes the callback of either revision of
    [src/unnamed/part_001]: every run ends in a reply, with status 400
    and nothing done when the request has no code, with status 200 or 500
    otherwise, and the disk is as it was or the accounts document was
    saved once. *)
Theorem callback_always_replies (cfg2 : config) (req : request) (w : world P) :
  replied cfg2 req w (Part001.callback P respond cfg2 req w) /\
  replied (Part001First.app cfg) req w (Part001First.callback P respond cfg req w).
Proof.
  split.
  - unfold replied, Part001.callback.
    destruct (truthy (prop_opt (query req) "code")) eqn:Hcode; simpl.
    2:{ eexists _, _, _. split; [reflexivity|].
        split; [auto|]. split; [discriminate|now left]. }
    unfold try_catch, bind.
    destruct (exchange P respond cfg2 _ _ w) as [[token|e] w0] eqn:Ex;
      apply (keeps_exchange P respond cfg2) in Ex.
    2:{ eexists _, _, _. split; [reflexivity|].
        split; [discriminate|]. split; [auto|now left]. }
    destruct (Part001.resolve P respond token w0) as [[found|e] w1] eqn:Er;
      apply keeps_resolve_tokens in Er.
    2:{ eexists _, _, _. split; [reflexivity|].
        split; [discriminate|]. split; [auto|left; congruence]. }
    unfold Part001.finish, bind, lift.
    destruct (ToString (prop_opt (snd found) "name")) as [n|e].
    2:{ eexists _, _, _. split; [reflexivity|].
        split; [discriminate|]. split; [auto|left; congruence]. }
    destruct (ToString (prop_opt (snd found) "id")) as [i|e].
    2:{ eexists _, _, _. split; [reflexivity|].
        split; [discriminate|]. split; [auto|left; congruence]. }
    destruct (Part001.fetch_username P respond (fst found) (snd found) w1)
      as [[u|e] w2] eqn:Ef; apply keeps_fetch_username in Ef.
    2:{ eexists _, _, _. split; [reflexivity|].
        split; [discriminate|]. split; [auto|left; congruence]. }
    unfold Part001.save_account, bind, load, lift, save.
    destruct (ToString (fst found)) as [key|e]; simpl.
    2:{ eexists _, _, _. split; [reflexivity|].
        split; [discriminate|]. split; [auto|left; congruence]. }
    destruct (get (snd found) "id") as [pid|e]; simpl.
    2:{ eexists _, _, _. split; [reflexivity|].
        split; [discriminate|]. split; [auto|left; congruence]. }
    destruct (put _ key _) as [acc'|e]; simpl.
    2:{ eexists _, _, _. split; [reflexivity|].
        split; [discriminate|]. split; [auto|left; congruence]. }
    assert (Hd : disk w2 = disk w) by congruence.
    destruct (ToString u) as [shown|e]; simpl.
    2:{ eexists _, _, _. split; [reflexivity|].
        split; [discriminate|]. split; [auto|]. right. rewrite Hd. eexists. reflexivity. }
    destruct (bind_result (get (snd found) "name") ToString) as [pn|e]; simpl.
    2:{ eexists _, _, _. split; [reflexivity|].
        split; [discriminate|]. split; [auto|]. right. rewrite Hd. eexists. reflexivity. }
    eexists _, _, _. split; [reflexivity|].
    split; [discriminate|]. split; [auto|]. right. rewrite Hd. eexists. reflexivity.
  - unfold replied, Part001First.callback.
    destruct (truthy (prop_opt (query req) "code")) eqn:Hcode; simpl.
    2:{ eexists _, _, _. split; [reflexivity|].
        split; [auto|]. split; [discriminate|now left]. }
    unfold try_catch, bind.
    destruct (exchange P respond (Part001First.app cfg) _ _ w) as [[token|e] w0] eqn:Ex;
      apply (keeps_exchange P respond (Part001First.app cfg)) in Ex.
    2:{ eexists _, _, _. split; [reflexivity|].
        split; [discriminate|]. split; [auto|now left]. }
    destruct (Part001First.resolve P respond token w0) as [[id|e] w1] eqn:Er;
      apply keeps_first_resolve in Er.
    2:{ eexists _, _, _. split; [reflexivity|].
        split; [discriminate|]. split; [auto|left; congruence]. }
    unfold ServerJs.save_account, bind, load, lift, save.
    destruct (ToString id) as [name|e]; simpl.
    2:{ eexists _, _, _. split; [reflexivity|].
        split; [discriminate|]. split; [auto|left; congruence]. }
    destruct (put _ name _) as [acc'|e]; simpl.
    2:{ eexists _, _, _. split; [reflexivity|].
        split; [discriminate|]. split; [auto|left; congruence]. }
    eexists _, _, _. split; [reflexivity|].
    split; [discriminate|]. split; [auto|]. right.
    assert (Hd : disk w1 = disk w) by congruence. rewrite Hd. eexists. reflexivity.
Qed.

End FirstRevision.

Lemma strip_slash_added (b : string) : Part001First.strip_slash (b +++ "/") = b.
Proof.
  induction b as [|c b IH]; [reflexivity|].
  simpl. simpl in IH. rewrite IH. destruct b; reflexivity.
Qed.

Lemma strip_slash_none (b : string) :
  ends_with_slash b = false -> Part001First.strip_slash b = b.
Proof.
  induction b as [|c b IH]; [reflexivity|].
  simpl. destruct b as [|c' b].
  - intros H. now rewrite H.
  - intros H. now rewrite (IH H).
Qed.

(** X24.  The first revision of [src/unnamed/part_001] takes its base URL
    with or without a slash at the end: one slash at the end is dropped
    before the path of the callback is added, so that both spellings give
    the same redirect URI (a second slash would stay). *)
Theorem base_url_trailing_slash (app : config) (b : string) :
  Part001First.REDIRECT_URI (Part001First.mkConfig app (b +++ "/"))
  = b +++ "/auth/instagram/callback" /\
  (ends_with_slash b = false ->
   Part001First.REDIRECT_URI (Part001First.mkConfig app b)
   = b +++ "/auth/instagram/callback").
Proof.
  unfold Part001First.REDIRECT_URI. simpl. split.
  - now rewrite strip_slash_added.
  - intros H. now rewrite (strip_slash_none _ H).
Qed.

End OAuthMore.

(** ** The redirect to the consent dialog *)

Module StartFacts.
Import JS Http OAuth Start Notions StringFacts.

Lemma has_char_app (c : ascii) (a b : string) :
  has_char c (a +++ b) = has_char c a || has_char c b.
Proof.
  induction a as [|x a IH]; simpl; [reflexivity|]. rewrite IH. apply orb_assoc.
Qed.

Lemma encode_unit_clean (c x : ascii) :
  c = "&"%char \/ c = "="%char -> has_char c (encode_unit x) = false.
Proof.
  intros E. destruct x as [b0 b1 b2 b3 b4 b5 b6 b7].
  destruct E as [->| ->];
    destruct b0, b1, b2, b3, b4, b5, b6, b7; reflexivity.
Qed.

Lemma encoded_clean (c : ascii) (s : string) :
  c = "&"%char \/ c = "="%char -> has_char c (encodeURIComponent s) = false.
Proof.
  intros H. induction s as [|x s IH]; simpl; [reflexivity|].
  now rewrite has_char_app, IH, (encode_unit_clean c x H).
Qed.

Lemma split_on_none (c : ascii) (a : string) :
  has_char c a = false -> split_on c a = [a].
Proof.
  induction a as [|x a IH]; simpl; [reflexivity|].
  intros H. apply orb_false_iff in H as [Hx Ha].
  rewrite Hx, (IH Ha). reflexivity.
Qed.

Lemma split_on_app (c : ascii) (a b : string) :
  has_char c a = false -> split_on c (a +++ String c b) = a :: split_on c b.
Proof.
  induction a as [|x a IH]; simpl.
  - intros _. now rewrite Ascii.eqb_refl.
  - intros H. apply orb_false_iff in H as [Hx Ha].
    rewrite Hx, (IH Ha). reflexivity.
Qed.

Lemma after_mark_app (a b : string) :
  has_char "?" a = false -> after_mark (a +++ String "?" b) = b.
Proof.
  induction a as [|x a IH]; simpl; [reflexivity|].
  intros H. apply orb_false_iff in H as [Hx Ha]. now rewrite Hx, IH.
Qed.

Lemma parameter_pieces (name v : string) :
  has_char "=" name = false -> has_char "=" v = false ->
  split_on "=" (name +++ String "=" v) = [name; v].
Proof.
  intros Hn Hv. now rewrite (split_on_app _ _ _ Hn), (split_on_none _ _ Hv).
Qed.

Lemma four_parameters (head a b c d : string) :
  has_char "?" head = false ->
  has_char "&" a = false -> has_char "&" b = false ->
  has_char "&" c = false -> has_char "&" d = false ->
  split_on "&" (after_mark (head +++ String "?" (a +++ String "&" (b +++ String "&"
                              (c +++ String "&" d)))))
  = [a; b; c; d].
Proof.
  intros Hh Ha Hb Hc Hd.
  rewrite (after_mark_app _ _ Hh), (split_on_app _ _ _ Ha), (split_on_app _ _ _ Hb),
    (split_on_app _ _ _ Hc), (split_on_none _ _ Hd).
  reflexivity.
Qed.

(** The URL every revision builds, [scope] being the third parameter as
    it stands in the URL. *)
Lemma dialog_parameters (id uri scope : string) :
  has_char "&" scope = false -> has_char "=" scope = false ->
  parameters (DIALOG +++ ("?client_id=" +++ encodeURIComponent id) +++
              ("&redirect_uri=" +++ encodeURIComponent uri) +++
              ("&scope=" +++ scope) +++ "&response_type=code")
  = [["client_id"; encodeURIComponent id];
     ["redirect_uri"; encodeURIComponent uri];
     ["scope"; scope];
     ["response_type"; "code"]].
Proof.
  intros Hs1 Hs2. unfold parameters.
  set (i := encodeURIComponent id). set (u := encodeURIComponent uri).
  change (DIALOG +++ ("?client_id=" +++ i) +++ ("&redirect_uri=" +++ u) +++
          ("&scope=" +++ scope) +++ "&response_type=code")
    with (DIALOG +++ String "?" (("client_id" +++ String "=" i) +++ String "&"
            (("redirect_uri" +++ String "=" u) +++ String "&"
               (("scope" +++ String "=" scope) +++ String "&" "response_type=code")))).
  assert (Hp : forall name v, has_char "&" name = false -> has_char "&" v = false ->
                 has_char "&" (name +++ String "=" v) = false).
  { intros name v Hn Hv. rewrite has_char_app, Hn. simpl. exact Hv. }
  rewrite (four_parameters DIALOG ("client_id" +++ String "=" i)
             ("redirect_uri" +++ String "=" u) ("scope" +++ String "=" scope)
             "response_type=code");
    try reflexivity;
    try (apply Hp; [reflexivity|]; first [exact Hs1|apply encoded_clean; now left]).
  cbn [map].
  rewrite !parameter_pieces; try reflexivity;
    first [exact Hs2|apply encoded_clean; now right].
Qed.

(** X25.  Whatever the application id and the headers of the request
    hold, the URL of the consent dialog carries the four parameters
    [client_id], [redirect_uri], [scope] and [response_type], in this
    order, and no other: what comes from outside is passed through
    [encodeURIComponent], whose output holds no [&] and no [=], so that
    it can neither end a parameter nor start one. *)
Theorem consent_url_parameters
    (cfg : config) (cfg1 : Part001First.config) (req : request) :
  let id := encodeURIComponent (FB_APP_ID cfg) in
  let uri := encodeURIComponent (buildBaseUrl req +++ "/auth/instagram/callback") in
  parameters (server_js cfg req)
  = [["client_id"; id]; ["redirect_uri"; uri];
     ["scope"; "instagram_basic,instagram_content_publish"];
     ["response_type"; "code"]] /\
  parameters (part_000 cfg req)
  = [["client_id"; id]; ["redirect_uri"; uri];
     ["scope"; "instagram_basic%2Cinstagram_content_publish%2Cpages_show_list"];
     ["response_type"; "code"]] /\
  parameters (part_001 cfg req)
  = [["client_id"; id]; ["redirect_uri"; uri];
     ["scope";
      "instagram_basic%2Cinstagram_content_publish%2Cpages_show_list%2Cpages_read_engagement"];
     ["response_type"; "code"]] /\
  parameters (Part001First.auth_instagram cfg1)
  = [["client_id"; encodeURIComponent (FB_APP_ID (Part001First.app cfg1))];
     ["redirect_uri"; encodeURIComponent (Part001First.REDIRECT_URI cfg1)];
     ["scope"; "instagram_basic,instagram_content_publish"];
     ["response_type"; "code"]] /\
  (forall s, has_char "&" (encodeURIComponent s) = false /\
             has_char "=" (encodeURIComponent s) = false).
Proof.
  cbv zeta. split; [|split; [|split; [|split]]].
  - apply dialog_parameters; reflexivity.
  - apply (dialog_parameters (FB_APP_ID cfg)
             (buildBaseUrl req +++ "/auth/instagram/callback")
             "instagram_basic%2Cinstagram_content_publish%2Cpages_show_list");
      reflexivity.
  - apply (dialog_parameters (FB_APP_ID cfg)
             (buildBaseUrl req +++ "/auth/instagram/callback")
             "instagram_basic%2Cinstagram_content_publish%2Cpages_show_list%2Cpages_read_engagement");
      reflexivity.
  - apply (dialog_parameters (FB_APP_ID (Part001First.app cfg1))
             (Part001First.REDIRECT_URI cfg1)
             "instagram_basic,instagram_content_publish");
      reflexivity.
  - intros s. split; apply encoded_clean; auto.
Qed.

End StartFacts.

(** ** The further properties on concrete runs *)

Module RunsMore.
Import JS JSON Fs Storage Http OAuth Shape Notions Mock Scenes.
Import StorageFacts RoutesFacts OAuthFacts StoreFrame StartupFacts RoutesMore OAuthMore.

(** A file written by hand, without the line breaks [saveJSON] makes. *)
Lemma loaded_document_survives_resave_witness :
  let fs := with_file empty_disk accounts_file "[1,[true,null],{}]  " in
  (loadJSON fs accounts_file = VArr [VNum 1; VArr [VBool true; VNull]; VObj []] /\
   save_succeeds fs accounts_file (loadJSON fs accounts_file) = true) /\
  loadJSON (saveJSON fs accounts_file (loadJSON fs accounts_file)) accounts_file
  = loadJSON fs accounts_file.
Proof.
  cbv zeta. split; [split; vm_compute; reflexivity|].
  apply loaded_document_survives_resave. vm_compute. reflexivity.
Defined.

(** A start on a disk that holds the accounts and no schedule yet. *)
Lemma restart_keeps_documents_witness :
  let fs := disk_with stored_accounts in
  let r := Startup.startup credentials fs in
  (fst r = Startup.Listening
             (Startup.mkSettings (VNum 5000) (VStr "http://localhost:3000") cfg) /\
   existsSync fs schedule_file = false /\ existsSync (snd r) schedule_file = true) /\
  fst (Routes.get_buckets "/tmp" (snd r)) = Reply 200 (Json stored_accounts) /\
  fst (Routes.get_schedule "/tmp" (snd r)) = Reply 200 (Json (VArr [])) /\
  nodes (snd r) accounts_file = nodes fs accounts_file.
Proof.
  cbv zeta. split; [repeat split; vm_compute; reflexivity|].
  destruct (restart_keeps_documents credentials (disk_with stored_accounts)
              (snd (Startup.startup credentials (disk_with stored_accounts)))
              (Startup.mkSettings (VNum 5000) (VStr "http://localhost:3000") cfg))
    as (Hb & _ & Hs & Hn); [vm_compute; reflexivity|].
  cbv zeta in Hb, Hs. change (DATA_DIR (Startup.app _)) with "/tmp" in Hb, Hs.
  split; [|split].
  - rewrite Hb. vm_compute. reflexivity.
  - rewrite Hs. vm_compute. reflexivity.
  - apply Hn. vm_compute. reflexivity.
Defined.

Lemma post_buckets_stores_what_is_posted_witness :
  let req := post_to ig_id (VArr [VStr "news"]) in
  let fs := disk_with stored_accounts in
  let r := Routes.post_buckets "/tmp" req fs in
  fst r = Reply 200 (Json ok_body) /\
  fst (Routes.get_buckets "/tmp" (snd r))
  = Reply 200 (Json (VObj [(ig_id,
                            VObj [("accessToken", VStr "old-token");
                                  ("username", VStr "Instagram-17841400000000001");
                                  ("buckets", VArr [VStr "news"])])])).
Proof.
  cbv zeta.
  destruct (post_buckets_stores_what_is_posted "/tmp" (post_to ig_id (VArr [VStr "news"]))
              (disk_with stored_accounts) [(ig_id, old_record)]
              [("accessToken", VStr "old-token");
               ("username", VStr "Instagram-17841400000000001");
               ("buckets", VArr [VStr "recipes"; VStr "offers"])] ig_id)
    as (Hr & _ & _ & _ & _ & _ & Hg); try (vm_compute; reflexivity).
  rewrite Hr. cbn [fst snd]. split; [reflexivity|].
  rewrite Hg; [|vm_compute; reflexivity]. reflexivity.
Defined.

Lemma get_accounts_lists_or_fails_witness :
  fst (Routes.get_accounts "/tmp" (disk_with stored_accounts))
  = Reply 200 (Json (VArr [VObj [("accountId", VStr ig_id);
                                 ("username", VStr "Instagram-17841400000000001")]])) /\
  exists msg,
    fst (Routes.get_accounts "/tmp" (disk_with broken_accounts))
    = Unhandled (TypeError msg).
Proof.
  split.
  - destruct (get_accounts_lists_or_fails "/tmp" (disk_with stored_accounts)
                [(ig_id, old_record)]) as (H & _); [vm_compute; reflexivity|].
    rewrite H; [reflexivity|vm_compute; reflexivity].
  - destruct (get_accounts_lists_or_fails "/tmp" (disk_with broken_accounts)
                [(ig_id, old_record); ("17841400000000002", VNull)]) as (_ & H);
      [vm_compute; reflexivity|].
    destruct H as [msg Hm]; [vm_compute; reflexivity|].
    exists msg. now rewrite Hm.
Defined.

Lemma get_accounts_with_page_witness :
  fst (Part001.get_accounts "/tmp" (disk_with mixed_accounts))
  = Reply 200 (Json (VArr
      [VObj [("accountId", VStr "17841400000000001");
             ("username", VStr "Instagram-17841400000000001");
             ("pageId", VUndef); ("pageName", VUndef)];
       VObj [("accountId", VStr "17841400000000002");
             ("username", VStr "bakery.official");
             ("pageId", VStr "1001"); ("pageName", VStr "Bakery")];
       VObj [("accountId", VStr "17841400000000003");
             ("username", VStr "Instagram-17841400000000003");
             ("pageId", VUndef); ("pageName", VUndef)]])).
Proof.
  destruct (get_accounts_with_page_names_every_account "/tmp" (disk_with mixed_accounts)
              mixed_records) as (H & _);
    [vm_compute; reflexivity|vm_compute; reflexivity|].
  rewrite H. reflexivity.
Defined.

Lemma debug_read_accounts_hides_every_token_witness :
  fst (Part001.debug_read_accounts "/tmp" (disk_with mixed_accounts))
  = Reply 200 (Json (VObj
      [("17841400000000001",
        VObj [("accessToken", VStr "***len:9");
              ("username", VStr "Instagram-17841400000000001");
              ("buckets", VArr [VStr "recipes"; VStr "offers"])]);
       ("17841400000000002",
        VObj [("accessToken", VStr "***len:5");
              ("pageId", VStr "1001"); ("pageName", VStr "Bakery");
              ("igUsername", VStr "bakery.official");
              ("buckets", VArr [])]);
       ("17841400000000003", VStr "")])) /\
  exists m',
    fst (Part001.debug_read_accounts "/tmp" (disk_with mixed_accounts))
    = Reply 200 (Json (VObj m')) /\
    Forall (fun kv => token_hidden (snd kv)) m'.
Proof.
  split; [vm_compute; reflexivity|].
  destruct (debug_read_accounts_hides_every_token "/tmp" (disk_with mixed_accounts)
              mixed_records) as [(m' & Hr & _ & Hall)|(msg & Hr)].
  - vm_compute. reflexivity.
  - exists m'. rewrite Hr. split; [reflexivity|exact Hall].
  - exfalso. apply (f_equal fst) in Hr. vm_compute in Hr. discriminate.
Defined.

(** In a process whose [Object.prototype] has gained [buckets]: an
    identifier that is not stored, and an identifier that is an object
    and reads as [[object Object]]. *)
Lemma post_buckets_unknown_rejected_witness :
  let fs := disk_with stored_accounts in
  let R := Process.gain Process.pristine Process.OfObject (VArr [VStr "x"]) in
  Process.post_buckets "/tmp" R (post_to "17841400000000009" (VArr [VStr "news"])) fs
  = Some (Reply 400 (Text "Account not found"), fs, R) /\
  Process.post_buckets "/tmp" R
    (json_request (VObj [("accountId", VObj [("valueOf", VNum 1)])])) fs
  = Some (Reply 400 (Text "Account not found"), fs, R).
Proof.
  cbv zeta. split.
  - apply (post_buckets_unknown_rejected "/tmp" _ _ _ [(ig_id, old_record)]
             "17841400000000009");
      [vm_compute; reflexivity|vm_compute; reflexivity|vm_compute; reflexivity
      |vm_compute; reflexivity|intros H; discriminate H].
  - apply (post_buckets_unknown_rejected "/tmp" _ _ _ [(ig_id, old_record)]
             "[object Object]");
      [vm_compute; reflexivity|vm_compute; reflexivity|vm_compute; reflexivity
      |vm_compute; reflexivity|intros H; discriminate H].
Defined.

(** The provider rejects the code: one request, no write. *)
Lemma rejected_code_is_reported_witness :
  let respond := logged rejects_all in
  let w := start (disk_with stored_accounts) in
  let page := oauth_error (detail_text
                (VObj [("error", VObj [("message", VStr "Unsupported get request")])])) in
  let r := ServerJs.callback _ respond cfg request_with_code w in
  fst r = Ok page /\ disk (snd r) = disk w /\ List.length (net (snd r)) = 1 /\
  fst (Part000.callback _ respond cfg request_with_code w) = Ok page /\
  fst (Part001.callback _ respond cfg request_with_code w) = Ok page.
Proof.
  cbv zeta.
  pose (respond := logged rejects_all).
  pose (w := start (disk_with stored_accounts)).
  pose (a := respond (net w)
               (mkCall TOKEN_URL
                  [("client_id", VStr "app-id"); ("client_secret", VStr "app-secret");
                   ("redirect_uri", VStr callback_uri); ("code", VStr "AQD-code")])).
  destruct (rejected_code_is_reported _ respond cfg request_with_code w "AQD-code"
              (VObj [("error", VObj [("message", VStr "Unsupported get request")])])
              "Request failed with status code 400" (snd a))
    as (H1 & H2 & H3); try (vm_compute; reflexivity).
  fold w respond. rewrite H1, H2, H3. cbn [fst snd disk net].
  repeat split; reflexivity.
Defined.

(** The provider exchanges the code and rejects every lookup. *)
Lemma rejected_page_listing_witness :
  let respond := logged no_account in
  let w := start (disk_with stored_accounts) in
  let body := VObj [("error", VObj [("message", VStr "Unsupported get request")])] in
  let w1 := snd (exchange _ respond cfg (VStr "AQD-code") callback_uri w) in
  fst (ServerJs.callback _ respond cfg request_with_code w)
  = Ok (oauth_error (detail_text body)) /\
  fst (Part000.path1 _ respond long_token VNull w1) = Ok VNull /\
  fst (Part001.callback _ respond cfg request_with_code w)
  = Ok (oauth_error Part001.NO_PAGES).
Proof.
  cbv zeta.
  pose (respond := logged no_account).
  pose (w := start (disk_with stored_accounts)).
  pose (w1 := snd (exchange _ respond cfg (VStr "AQD-code") callback_uri w)).
  pose (a1 := respond (net w1) (mkCall ME_ACCOUNTS_URL [("access_token", long_token)])).
  pose (a2 := respond (net w1)
                (mkCall ME_ACCOUNTS_URL
                   [("access_token", long_token); ("fields", VStr "id,name,access_token")])).
  destruct (rejected_page_listing _ respond cfg request_with_code long_token
              (VObj [("error", VObj [("message", VStr "Unsupported get request")])])
              "Request failed with status code 400" w w1 (snd a1))
    as (Ha & _); try (vm_compute; reflexivity).
  destruct (rejected_page_listing _ respond cfg request_with_code long_token
              (VObj [("error", VObj [("message", VStr "Unsupported get request")])])
              "Request failed with status code 400" w w1 (snd a2))
    as (_ & Hb); try (vm_compute; reflexivity).
  destruct Ha as (H1 & H2); [vm_compute; reflexivity|].
  fold w respond w1. rewrite H1, H2, Hb; [|vm_compute; reflexivity].
  repeat split; reflexivity.
Defined.

(** No page of the list comes with a token: nothing is asked about them. *)
Lemma pages_without_token_witness :
  let respond := logged tokenless in
  let w := start (disk_with stored_accounts) in
  let r := Part001.callback _ respond cfg request_with_code w in
  fst r = Ok (oauth_error Part001.NO_IG) /\
  map url (net (snd r)) = [ME_ACCOUNTS_URL; TOKEN_URL; TOKEN_URL] /\
  disk (snd r) = disk w.
Proof.
  cbv zeta.
  pose (respond := logged tokenless).
  pose (w := start (disk_with stored_accounts)).
  pose (w1 := snd (exchange _ respond cfg (VStr "AQD-code") callback_uri w)).
  pose (w2 := snd (Part001.fetch_pages _ respond long_token w1)).
  destruct (pages_without_token_are_not_asked _ respond cfg request_with_code long_token
              bare_pages w w1 w2) as (_ & H); try (vm_compute; reflexivity).
  - discriminate.
  - repeat constructor; eexists; (split; [reflexivity|reflexivity]).
  - fold w respond. rewrite H. cbn [fst snd].
    repeat split; vm_compute; reflexivity.
Defined.

(** The provider serves the name of the account. *)
Lemma callback_stores_served_username_witness :
  let respond := logged (one_page true) in
  let w := start (disk_with stored_accounts) in
  let r := Part001.callback _ respond cfg request_with_code w in
  fst r = Ok (Reply 200 (Text (Part001.connected_page "bakery.official" "Bakery"))) /\
  prop_opt (prop_opt (loadJSON (disk (snd r)) accounts_file) ig_id) "igUsername"
  = VStr "bakery.official".
Proof.
  cbv zeta.
  pose (respond := logged (one_page true)).
  pose (w := start (disk_with stored_accounts)).
  pose (r0 := exchange _ respond cfg (prop_opt (query request_with_code) "code") callback_uri w).
  pose (r1 := Part001.resolve _ respond long_token (snd r0)).
  pose (a := respond (net (snd r1))
               (mkCall (GRAPH +++ ig_id)
                  [("fields", VStr "username"); ("access_token", VStr "page-token")])).
  destruct (callback_stores_served_username _ respond cfg request_with_code long_token
              (VStr ig_id) page1
              (VObj [("username", VStr "bakery.official"); ("id", VStr ig_id)])
              ig_id "Bakery" "bakery.official"
              [(ig_id, old_record)] w (snd r0) (snd r1) (snd a))
    as (Hr & _); try (vm_compute; reflexivity); try discriminate.
  fold w respond. rewrite Hr. cbn [fst snd disk]. split; [reflexivity|].
  vm_compute. reflexivity.
Defined.

(** The provider serves a name that is an object: status 500, and the
    account is in the store. *)
Lemma unprintable_username_witness :
  let respond := logged names_oddly in
  let w := start empty_disk in
  let r := Part001.callback _ respond cfg request_with_code w in
  fst r = Ok (oauth_error "Cannot convert object to primitive value") /\
  loadJSON (disk w) accounts_file = VObj [] /\
  loadJSON (disk (snd r)) accounts_file
  = VObj [(ig_id, VObj [("accessToken", long_token);
                        ("pageId", VStr "1001");
                        ("pageName", VStr "Bakery");
                        ("igUsername", odd_name);
                        ("buckets", VArr [])])].
Proof.
  cbv zeta.
  pose (respond := logged names_oddly).
  pose (w := start empty_disk).
  pose (r0 := exchange _ respond cfg (prop_opt (query request_with_code) "code") callback_uri w).
  pose (r1 := Part001.resolve _ respond long_token (snd r0)).
  pose (a := respond (net (snd r1))
               (mkCall (GRAPH +++ ig_id)
                  [("fields", VStr "username"); ("access_token", VStr "page-token")])).
  destruct (unprintable_username_is_saved_before_the_error _ respond cfg request_with_code
              long_token (VStr ig_id) page1
              (VObj [("username", odd_name); ("id", VStr ig_id)])
              [("toString", VStr "bakery")] ig_id "Bakery"
              [] w (snd r0) (snd r1) (snd a))
    as (Hr & _); try (vm_compute; reflexivity); try discriminate.
  fold w respond. rewrite Hr. cbn [fst snd disk]. split; [reflexivity|].
  split; vm_compute; reflexivity.
Defined.

(** The account is linked to the second page: the first revision of
    [src/unnamed/part_001] does not get to it, [src/server.js] does. *)
Lemma first_revision_asks_first_page_only_witness :
  let respond := logged second_page_linked in
  let w := start empty_disk in
  let r := Part001First.callback _ respond first_config request_with_code w in
  fst r = Ok (Reply 500 (Text ("OAuth error: " +++ Part001First.NO_IG))) /\
  map url (net (snd r)) = [GRAPH +++ "1000"; ME_ACCOUNTS_URL; TOKEN_URL; TOKEN_URL] /\
  disk (snd r) = disk w /\
  fst (ServerJs.callback _ respond cfg request_with_code w)
  = Ok (Reply 200 (Text connected_page)).
Proof.
  cbv zeta.
  pose (respond := logged second_page_linked).
  pose (w := start empty_disk).
  pose (r0 := exchange _ respond cfg (VStr "AQD-code")
                (Part001First.REDIRECT_URI first_config) w).
  pose (a1 := respond (net (snd r0)) (mkCall ME_ACCOUNTS_URL [("access_token", long_token)])).
  pose (a2 := respond (snd a1)
                (mkCall (GRAPH +++ "1000")
                   [("fields", VStr "instagram_business_account");
                    ("access_token", long_token)])).
  assert (H : Part001First.callback _ respond first_config request_with_code w
              = (Ok (Reply 500 (Text ("OAuth error: " +++ Part001First.NO_IG))),
                 mkWorld (disk w) (snd a2))).
  { apply (first_revision_asks_first_page_only _ respond first_config request_with_code
             long_token (VObj [("data", VArr [page0; page1])]) (VStr "1000")
             (VObj [("id", VStr "1000")]) "1000" w (snd r0) (snd a1) (snd a2));
      vm_compute; reflexivity. }
  fold w respond. rewrite H. cbn [fst snd disk net].
  split; [reflexivity|]. split; [vm_compute; reflexivity|]. split; [reflexivity|].
  vm_compute. reflexivity.
Defined.

(** An account connected on an empty store. *)
Lemma connected_account_witness :
  let w := start empty_disk in
  let after := disk (snd (ServerJs.save_account (list call) cfg long_token (VStr ig_id) w)) in
  fst (Routes.post_buckets "/tmp" (post_to ig_id (VArr [VStr "news"])) after)
  = Reply 200 (Json ok_body) /\
  exists l,
    fst (Routes.get_accounts "/tmp" after) = Reply 200 (Json (VArr l)) /\
    In (VObj [("accountId", VStr ig_id); ("username", VStr ("Instagram-" +++ ig_id))]) l.
Proof.
  cbv zeta.
  destruct (connected_account_is_listed_and_takes_buckets (list call) cfg long_token
              (VStr ig_id) ig_id [] (start empty_disk) (post_to ig_id (VArr [VStr "news"])))
    as (_ & _ & (l & Hl & Hin) & Hp); try (vm_compute; reflexivity); try discriminate.
  split; [exact Hp|]. exists l. split; [|exact Hin].
  change (DATA_DIR cfg) with "/tmp" in Hl. now rewrite Hl.
Defined.

(** Both exchanges are answered and the page is linked. *)
Lemma callback_saves_long_lived_token_witness :
  let respond := logged linked_page in
  let w := start empty_disk in
  let r := ServerJs.callback _ respond cfg request_with_code w in
  fst r = Ok (Reply 200 (Text connected_page)) /\
  loadJSON (disk (snd r)) accounts_file
  = VObj [(ig_id, VObj [("accessToken", VStr "long-lived-token");
                        ("username", VStr "Instagram-17841400000000001");
                        ("buckets", VArr [])])].
Proof.
  cbv zeta.
  pose (respond := logged linked_page).
  pose (w := start empty_disk).
  pose (a1 := respond (net w)
                (mkCall TOKEN_URL
                   [("client_id", VStr "app-id"); ("client_secret", VStr "app-secret");
                    ("redirect_uri", VStr callback_uri); ("code", VStr "AQD-code")])).
  pose (a2 := respond (snd a1)
                (mkCall TOKEN_URL
                   [("grant_type", VStr "fb_exchange_token");
                    ("client_id", VStr "app-id"); ("client_secret", VStr "app-secret");
                    ("fb_exchange_token", VStr "short-lived-token")])).
  pose (r3 := ServerJs.resolve _ respond long_token (mkWorld (disk w) (snd a2))).
  destruct (callback_saves_long_lived_token _ respond cfg request_with_code
              "AQD-code" ig_id
              (VObj [("access_token", VStr "short-lived-token"); ("expires_in", VNum 3600)])
              (VObj [("access_token", VStr "long-lived-token")])
              (VStr "short-lived-token") long_token (VStr ig_id) [] w (snd r3)
              (snd a1) (snd a2))
    as (Hr & _); try (vm_compute; reflexivity); try discriminate.
  fold w respond. rewrite Hr. cbn [fst snd disk]. split; [reflexivity|].
  vm_compute. reflexivity.
Defined.


(** A schedule file that holds the text [null], and one that was never
    written. *)
Lemma get_schedule_answers_unless_null_witness :
  (exists msg,
     Routes.get_schedule "/tmp" (with_file empty_disk schedule_file "null")
     = (Unhandled (TypeError msg), with_file empty_disk schedule_file "null")) /\
  exists v, Routes.get_schedule "/tmp" empty_disk = (Reply 200 (Json v), empty_disk) /\
            truthy v = true.
Proof.
  destruct (get_schedule_answers_unless_null "/tmp"
              (with_file empty_disk schedule_file "null")) as (_ & Hnull & Hfile).
  destruct (get_schedule_answers_unless_null "/tmp" empty_disk) as (Hok & _ & _).
  split.
  - apply Hnull, Hfile. reflexivity.
  - destruct Hok as (v & Hv & Tv & _); [vm_compute; discriminate|].
    exists v. split; [exact Hv|exact Tv].
Defined.

(** A request without a body. *)
Lemma post_schedule_stores_what_is_posted_witness :
  let req := json_request VUndef in
  let r := Routes.post_schedule "/tmp" req (disk_with stored_accounts) in
  fst r = Reply 200 (Json ok_body) /\
  Routes.get_schedule "/tmp" (snd r) = (Reply 200 (Json (VArr [])), snd r).
Proof.
  cbv zeta.
  destruct (post_schedule_stores_what_is_posted "/tmp" (json_request VUndef)
              (disk_with stored_accounts)) as (Hr & Hempty & _ & _ & Hget).
  rewrite Hr. cbn [fst snd]. split; [reflexivity|].
  rewrite Hget; [|vm_compute; reflexivity|vm_compute; reflexivity].
  rewrite Hempty; reflexivity.
Defined.

(** The sizes reported after the accounts were saved, and after the
    schedule. *)
Lemma debug_files_reports_the_documents_witness :
  plain_dir "/tmp" = true /\
  fst (DebugFiles.debug_files "/tmp" 4096 (disk_with stored_accounts))
  = Reply 200 (Json (VObj [("accountsPath", VStr "/tmp/accounts.json");
                           ("accountsExists", VBool true);
                           ("accountsBytes", VNum 166);
                           ("schedulePath", VStr "/tmp/scheduleData.json");
                           ("scheduleExists", VBool false);
                           ("scheduleBytes", VNum 0)])) /\
  (let fs := saveJSON empty_disk schedule_file (VObj [("times", VArr [])]) in
   exists report,
     fst (DebugFiles.debug_files "/tmp" 4096 fs) = Reply 200 (Json report) /\
     prop_opt report "scheduleExists" = VBool true /\
     prop_opt report "scheduleBytes" = VNum 17).
Proof.
  destruct (debug_files_reports_the_documents "/tmp" 4096 (disk_with stored_accounts) eq_refl)
    as ((ab & sb & Hr & _ & Hs) & _ & _).
  destruct (debug_files_reports_the_documents "/tmp" 4096 empty_disk eq_refl)
    as (_ & _ & Hsaved).
  split; [reflexivity|]. split.
  - rewrite Hr. cbn [fst].
    rewrite (Hs eq_refl).
    apply (f_equal fst) in Hr. vm_compute in Hr. inversion Hr. reflexivity.
  - cbv zeta.
    destruct (Hsaved (VObj [("times", VArr [])]) ("{" +++ nl +++ "  " +++ quote "times" +++ ": []" +++ nl +++ "}"))
      as (report & Hrep & He & Hb); [vm_compute; reflexivity|vm_compute; reflexivity|].
    exists report. unfold schedule_file. change (DATA_DIR cfg) with "/tmp".
    rewrite Hrep. cbn [fst]. split; [reflexivity|]. split; [exact He|].
    rewrite Hb. vm_compute. reflexivity.
Defined.

(** Two pages, the account linked to the second. *)
Lemma scan_stops_at_first_linked_page_witness :
  let scan := scan_pages _ (logged second_page_linked) long_token VNull in
  let w := start empty_disk in
  fst (scan [page0] w) = Ok VNull /\
  fst (scan [page0; page1] w) = Ok (VStr ig_id) /\
  scan ([page0; page1] ++ [page0]) w = scan [page0; page1] w.
Proof.
  cbv zeta.
  destruct (scan_stops_at_first_linked_page _ (logged second_page_linked) long_token)
    as (_ & Hstop & Hnext & _).
  pose (w := start empty_disk).
  pose (r1 := scan_pages _ (logged second_page_linked) long_token VNull [page0] w).
  pose (r2 := scan_pages _ (logged second_page_linked) long_token VNull [page0; page1] w).
  split; [vm_compute; reflexivity|]. split.
  - change [page0; page1] with ([page0] ++ [page1]). fold w.
    rewrite (Hnext [page0] [page1] w VNull (snd r1)); vm_compute; reflexivity.
  - fold w. rewrite (Hstop [page0; page1] [page0] w (VStr ig_id) (snd r2));
      vm_compute; reflexivity.
Defined.

(** The base URL with a slash at its end, and without. *)
Lemma base_url_trailing_slash_witness :
  Part001First.REDIRECT_URI (Part001First.mkConfig cfg "https://api.example.com/")
  = "https://api.example.com/auth/instagram/callback" /\
  Part001First.REDIRECT_URI (Part001First.mkConfig cfg "https://api.example.com")
  = "https://api.example.com/auth/instagram/callback".
Proof.
  destruct (base_url_trailing_slash cfg "https://api.example.com") as (H1 & H2).
  split; [exact H1|apply H2; reflexivity].
Defined.

(** A provider that rejects every lookup. *)
Lemma resolve_throws_no_account_witness :
  let respond := logged no_account in
  let r := Part000.resolve _ respond long_token (start empty_disk) in
  fst r = Throw (Error Part000.NO_IG) /\
  map url (net (snd r)) = [ME_URL; ME_URL; ME_ACCOUNTS_URL].
Proof.
  cbv zeta.
  destruct (Part000.resolve _ (logged no_account) long_token (start empty_disk))
    as [[id|e] w'] eqn:E.
  - exfalso. apply (f_equal fst) in E. vm_compute in E. discriminate.
  - rewrite (resolve_throws_no_account _ (logged no_account) long_token _ _ _ E).
    split; [reflexivity|].
    apply (f_equal snd) in E. cbn [snd] in *. rewrite <- E. vm_compute. reflexivity.
Defined.

(** The second revision of [src/unnamed/part_001] on a request without a
    code, and the first on a code the provider rejects. *)
Lemma callback_always_replies_witness :
  let w := start (disk_with stored_accounts) in
  Part001.callback _ (logged rejects_all) cfg (json_request VUndef) w
  = (Ok (Reply 400 (Text "No code returned")), w) /\
  exists text w',
    Part001First.callback _ (logged rejects_all) first_config request_with_code w
    = (Ok (Reply 500 (Text text)), w') /\ disk w' = disk w.
Proof.
  cbv zeta.
  destruct (callback_always_replies _ (logged rejects_all) first_config cfg
              (json_request VUndef) (start (disk_with stored_accounts)))
    as ((s1 & t1 & w1 & H1 & Hno & _ & _) & _).
  destruct (callback_always_replies _ (logged rejects_all) first_config cfg
              request_with_code (start (disk_with stored_accounts)))
    as (_ & (s2 & t2 & w2 & H2 & _ & Hyes & Hdisk)).
  split.
  - rewrite H1. destruct (Hno eq_refl) as (-> & ->).
    apply (f_equal fst) in H1. vm_compute in H1. inversion H1. reflexivity.
  - exists t2, w2. rewrite H2.
    assert (E : s2 = 500%Z).
    { apply (f_equal fst) in H2. vm_compute in H2. inversion H2. reflexivity. }
    rewrite E. split; [reflexivity|].
    apply (f_equal (fun r => disk (snd r))) in H2. cbn [snd] in H2. rewrite <- H2.
    reflexivity.
Defined.

End RunsMore.
